(** * Prompt library extension: shallow embedding of the prompt store,
    the search filter, the relevance scorer and variable substitution
    (src/unnamed/part_001, src/src/services/prompt-evaluation-service.ts). *)

From Stdlib Require Import String Ascii List ZArith QArith Qminmax Lqa Bool Lia Sorted Permutation DecimalPos DecimalN.
Import ListNotations.
Open Scope string_scope.
Open Scope list_scope.

(* ------------------------------------------------------------------ *)
(** ** JavaScript string helpers used by the source *)

Module JS.
Local Open Scope string_scope.
Local Open Scope nat_scope.

(** [String.prototype.toLowerCase], on the ASCII range. *)
Definition lower_char (c : ascii) : ascii :=
  let n := nat_of_ascii c in
  if (65 <=? n) && (n <=? 90) then ascii_of_nat (n + 32) else c.

Fixpoint toLowerCase (s : string) : string :=
  match s with
  | EmptyString => EmptyString
  | String c r => String (lower_char c) (toLowerCase r)
  end.

(** [s.startsWith(p)] *)
Fixpoint startsWith (s p : string) : bool :=
  match p, s with
  | EmptyString, _ => true
  | String c p', String d s' => Ascii.eqb c d && startsWith s' p'
  | String _ _, EmptyString => false
  end.

(** [s.includes(sub)] *)
Fixpoint includes (s sub : string) : bool :=
  startsWith s sub ||
  match s with
  | EmptyString => false
  | String _ r => includes r sub
  end.

(** The characters [String.prototype.trim] removes (ASCII part). *)
Definition is_ws (c : ascii) : bool :=
  match nat_of_ascii c with
  | 9 | 10 | 11 | 12 | 13 | 32 => true
  | _ => false
  end.

Fixpoint trimStart (s : string) : string :=
  match s with
  | String c r => if is_ws c then trimStart r else s
  | EmptyString => EmptyString
  end.

Fixpoint rev_str (s acc : string) : string :=
  match s with
  | EmptyString => acc
  | String c r => rev_str r (String c acc)
  end.

Definition trim (s : string) : string :=
  rev_str (trimStart (rev_str (trimStart s) EmptyString)) EmptyString.

Definition is_digit (c : ascii) : bool :=
  let n := nat_of_ascii c in (48 <=? n) && (n <=? 57).

Definition digit_val (c : ascii) : Z := Z.of_nat (nat_of_ascii c - 48).

Fixpoint digit_prefix (s : string) : list Z :=
  match s with
  | String c r => if is_digit c then digit_val c :: digit_prefix r else []
  | EmptyString => []
  end.

Definition digits_value (ds : list Z) : Z :=
  fold_left (fun acc d => acc * 10 + d)%Z ds 0%Z.

Fixpoint uint_to_string (u : Decimal.uint) : string :=
  match u with
  | Decimal.Nil => EmptyString
  | Decimal.D0 r => String "0" (uint_to_string r)
  | Decimal.D1 r => String "1" (uint_to_string r)
  | Decimal.D2 r => String "2" (uint_to_string r)
  | Decimal.D3 r => String "3" (uint_to_string r)
  | Decimal.D4 r => String "4" (uint_to_string r)
  | Decimal.D5 r => String "5" (uint_to_string r)
  | Decimal.D6 r => String "6" (uint_to_string r)
  | Decimal.D7 r => String "7" (uint_to_string r)
  | Decimal.D8 r => String "8" (uint_to_string r)
  | Decimal.D9 r => String "9" (uint_to_string r)
  end.

(** The decimal digits of a non-negative integer. *)
Definition decimalString (z : Z) : string := uint_to_string (N.to_uint (Z.to_N z)).

(** A JavaScript [number] with an integer value (an IEEE 754 double):
    the ids, counters and counts the code computes with are never
    fractional, and [NaN] is kept apart where it can arise. *)
Inductive number :=
| Finite (z : Z)
| PosInfinity
| NegInfinity.

(** A non-negative integer rounded to the nearest one with a 53-bit
    significand, ties to the even significand. *)
Definition roundSignificand (m : Z) : Z :=
  let e := (Z.log2 m - 52)%Z in
  if (e <=? 0)%Z then m
  else
    let q := Z.shiftr m e in
    let r := (m - Z.shiftl q e)%Z in
    let h := Z.shiftl 1 (e - 1) in
    let q' := if (h <? r)%Z || ((r =? h)%Z && Z.odd q) then (q + 1)%Z else q in
    Z.shiftl q' e.

(** The [number] an integer denotes: rounded to nearest, ties to even,
    and [Infinity] or [-Infinity] from [2^1024] on. *)
Definition ofZ (z : Z) : number :=
  let m := roundSignificand (Z.abs z) in
  if (2 ^ 1024 <=? m)%Z then (if (z <? 0)%Z then NegInfinity else PosInfinity)
  else Finite (if (z <? 0)%Z then (- m)%Z else m).

(** [a < b] *)
Definition ltb (a b : number) : bool :=
  match a, b with
  | Finite x, Finite y => (x <? y)%Z
  | NegInfinity, NegInfinity => false
  | NegInfinity, _ => true
  | _, NegInfinity => false
  | PosInfinity, _ => false
  | _, PosInfinity => true
  end.

(** [a <= b] *)
Definition leb (a b : number) : bool := negb (ltb b a).

(** [a + 1] *)
Definition succ (a : number) : number :=
  match a with
  | Finite x => ofZ (x + 1)
  | _ => a
  end.

(** [parseInt(s, 10)]: leading white space, an optional sign, then the
    longest run of decimal digits, whose value is rounded to the nearest
    [number] (V8 rounds correctly); [NaN] (here [None]) when there is no
    digit. *)
Definition parseInt (s : string) : option number :=
  let s1 := trimStart s in
  let '(sign, s2) :=
    match s1 with
    | String "-"%char r => ((-1)%Z, r)
    | String "+"%char r => (1%Z, r)
    | _ => (1%Z, s1)
    end in
  match digit_prefix s2 with
  | [] => None
  | ds => Some (ofZ (sign * digits_value ds))
  end.

(** The number of decimal digits of a positive integer. *)
Fixpoint countDigits (fuel : nat) (v : Z) : Z :=
  match fuel with
  | O => 0
  | S f => if (v <? 10)%Z then 1%Z else (1 + countDigits f (v / 10))%Z
  end.

Definition digitCount (v : Z) : Z := countDigits (Z.to_nat (Z.log2 v + 1)) v.

Fixpoint zeros (n : nat) : string :=
  match n with
  | O => EmptyString
  | S n => String "0" (zeros n)
  end.

(** Whether the integer [c] denotes the number [v]. *)
Definition roundsTo (c v : Z) : bool :=
  match ofZ c with Finite w => (w =? v)%Z | _ => false end.

(** Number::toString, step 5, for a positive integer [v] of [D] digits:
    the least [k], then the [s] of [k] digits and the [n] such that
    [s * 10^(n-k)] denotes [v], the nearest to [v] and the even [s] on a
    tie. For [k] digits, the candidates nearest to [v] are [v] rounded
    down and up to a multiple of [10^(D-k)]; rounding up may give
    [10^D], that is [s = 10^(k-1)] and [n = D + 1]. Returns
    [(s, k, n)]. *)
Fixpoint shortestDigits (v D : Z) (fuel : nat) (k : Z) : Z * Z * Z :=
  match fuel with
  | O => (v, D, D)
  | S fuel' =>
      let p := (10 ^ (D - k))%Z in
      let lo := (v / p)%Z in
      let hi := (lo + 1)%Z in
      let pickLo := (lo, k, D) in
      let pickHi := if (hi =? 10 ^ k)%Z then ((10 ^ (k - 1))%Z, k, (D + 1)%Z)
                    else (hi, k, D) in
      match roundsTo (lo * p) v, roundsTo (hi * p) v with
      | true, true =>
          if ((v - lo * p <? hi * p - v)%Z
              || ((v - lo * p =? hi * p - v)%Z && Z.even lo))
          then pickLo else pickHi
      | true, false => pickLo
      | false, true => pickHi
      | false, false => shortestDigits v D fuel' (k + 1)
      end
  end.

(** [String(x)] for a [number] with an integer value (Number::toString
    with radix 10). *)
Definition numberToString (x : number) : string :=
  match x with
  | PosInfinity => "Infinity"
  | NegInfinity => "-Infinity"
  | Finite z =>
      if (z =? 0)%Z then "0" else
      let v := Z.abs z in
      let D := digitCount v in
      let '(s, k, n) := shortestDigits v D (Z.to_nat D) 1 in
      let ds := decimalString s in
      let body :=
        if (n <=? 21)%Z then ds ++ zeros (Z.to_nat (n - k))
        else match ds with
             | String d rest =>
                 String d ((if (k =? 1)%Z then EmptyString else String "." rest)
                           ++ "e+" ++ decimalString (n - 1))
             | EmptyString => EmptyString
             end in
      if (z <? 0)%Z then String "-" body else body
  end.

End JS.

(* ------------------------------------------------------------------ *)
(** ** Data model: the JSON files and the in-memory tree *)

(** [PromptEvaluationScore] *)
Record PromptEvaluationScore := {
  overallScore : Z; clarity : Z; specificity : Z; context : Z;
  efficiency : Z; relevance : Z;
  suggestions : list string; timestamp : string }.

Inductive CategoryType := CSystem | CUser.

Definition CategoryType_eqb (a b : CategoryType) : bool :=
  match a, b with CSystem, CSystem | CUser, CUser => true | _, _ => false end.

(** [PromptNodeType = 'category' | 'group' | 'prompt'] *)
Inductive PromptNodeType := TCategory | TGroup | TPrompt.

Definition PromptNodeType_eqb (a b : PromptNodeType) : bool :=
  match a, b with
  | TCategory, TCategory | TGroup, TGroup | TPrompt, TPrompt => true
  | _, _ => false
  end.

(** [interface Prompt] as it is read from and written to JSON; a saved
    prompt whose [prompt] field is [undefined] is read back without it,
    hence the option. *)
Record Prompt := {
  p_id : string; p_label : string; p_prompt : option string;
  p_tags : list string; p_evaluation : option PromptEvaluationScore }.

Record PromptGroup := { g_id : string; g_label : string; g_prompts : list Prompt }.

Record PromptCategory := {
  c_id : string; c_label : string; c_type : CategoryType;
  c_groups : list PromptGroup }.

(** [interface PromptEntry] (the unused [sortOrder] field is left out). *)
#[local] Set Warnings "-register-all".
Inductive PromptEntry := mkEntry {
  e_id : string;
  e_label : string;
  e_type : PromptNodeType;
  e_categoryType : option CategoryType;
  e_prompt : option string;
  e_tags : option (list string);
  e_children : option (list PromptEntry);
  e_parentId : option string;
  e_categoryId : option string;
  e_evaluation : option PromptEvaluationScore }.

Definition set_children (e : PromptEntry) (ch : option (list PromptEntry)) :=
  mkEntry (e_id e) (e_label e) (e_type e) (e_categoryType e) (e_prompt e)
    (e_tags e) ch (e_parentId e) (e_categoryId e) (e_evaluation e).

Definition set_categoryType (e : PromptEntry) (t : option CategoryType) :=
  mkEntry (e_id e) (e_label e) (e_type e) t (e_prompt e)
    (e_tags e) (e_children e) (e_parentId e) (e_categoryId e) (e_evaluation e).

(** Depth-first pre-order list of all nodes of a tree and of a forest. *)
Fixpoint flatten_entry (e : PromptEntry) : list PromptEntry :=
  match e with
  | mkEntry _ _ _ _ _ _ ch _ _ _ =>
      e :: match ch with
           | Some ch => flat_map flatten_entry ch
           | None => []
           end
  end.

Definition flatten (es : list PromptEntry) : list PromptEntry :=
  flat_map flatten_entry es.

(** The first [Some] answer of [f] along a list (a [for ... of] loop that
    returns as soon as it finds something). *)
Fixpoint first_some {A B : Type} (f : A -> option B) (l : list A) : option B :=
  match l with
  | [] => None
  | x :: r => match f x with Some y => Some y | None => first_some f r end
  end.

(** [PromptLibrary.findById]: one iteration of its loop is
    [findById_entry], the loop is [first_some]. *)
Fixpoint findById_entry (id : string) (e : PromptEntry) : option PromptEntry :=
  match e with
  | mkEntry eid _ _ _ _ _ ch _ _ _ =>
      if String.eqb eid id then Some e
      else match ch with
           | Some ch => first_some (findById_entry id) ch
           | None => None
           end
  end.

Definition findById (es : list PromptEntry) (id : string) : option PromptEntry :=
  first_some (findById_entry id) es.

(** In-place mutation of the object [findById] returned: the first node,
    in the same depth-first order, whose id is [pid] is replaced. *)
Fixpoint modify_first_list {A : Type} (g : A -> option A) (l : list A) : option (list A) :=
  match l with
  | [] => None
  | x :: r =>
      match g x with
      | Some x' => Some (x' :: r)
      | None => option_map (cons x) (modify_first_list g r)
      end
  end.

Fixpoint replace_first_entry (pid : string) (n : PromptEntry) (e : PromptEntry)
  : option PromptEntry :=
  match e with
  | mkEntry eid _ _ _ _ _ ch _ _ _ =>
      if String.eqb eid pid then Some n
      else match ch with
           | Some ch =>
               option_map (fun ch' => set_children e (Some ch'))
                 (modify_first_list (replace_first_entry pid n) ch)
           | None => None
           end
  end.

Definition replace_first (pid : string) (n : PromptEntry) (es : list PromptEntry) :=
  match modify_first_list (replace_first_entry pid n) es with
  | Some es' => es'
  | None => es
  end.

Fixpoint keep_some {A B : Type} (f : A -> option B) (l : list A) : list B :=
  match l with
  | [] => []
  | x :: r => match f x with Some y => y :: keep_some f r | None => keep_some f r end
  end.

(** [PromptLibrary.removeById]: [entries.filter(...)], where the filter
    callback rewrites [entry.children] of every kept entry. *)
Fixpoint removeById_entry (id : string) (e : PromptEntry) : option PromptEntry :=
  match e with
  | mkEntry eid _ _ _ _ _ ch _ _ _ =>
      if String.eqb eid id then None
      else Some (set_children e
                   (match ch with
                    | Some ch => Some (keep_some (removeById_entry id) ch)
                    | None => None
                    end))
  end.

Definition removeById (es : list PromptEntry) (id : string) : list PromptEntry :=
  keep_some (removeById_entry id) es.

(** [PromptLibrary.convertJsonToEntries] *)
Definition convertPrompt (cat : PromptCategory) (group : PromptGroup) (p : Prompt) :=
  mkEntry (p_id p) (p_label p) TPrompt (Some (c_type cat)) (p_prompt p)
    (Some (p_tags p)) None (Some (g_id group)) (Some (c_id cat)) None.

Definition convertGroup (cat : PromptCategory) (group : PromptGroup) :=
  mkEntry (g_id group) (g_label group) TGroup (Some (c_type cat)) None None
    (Some (map (convertPrompt cat group) (g_prompts group)))
    (Some (c_id cat)) (Some (c_id cat)) None.

Definition convertCategory (cat : PromptCategory) :=
  mkEntry (c_id cat) (c_label cat) TCategory (Some (c_type cat)) None None
    (Some (map (convertGroup cat) (c_groups cat))) None None None.

Definition convertJsonToEntries (cats : list PromptCategory) : list PromptEntry :=
  map convertCategory cats.

(** [PromptLibrary.extractAllPrompts] *)
Definition extractAllPrompts (cats : list PromptCategory) : list Prompt :=
  flat_map (fun c => flat_map g_prompts (c_groups c)) cats.

(** [PromptLibrary.getDefaultPrompts] and [convertEntriesToCategories]:
    the fallback used when the system prompts file does not exist. *)
Definition getDefaultPrompts : list PromptEntry :=
  [mkEntry "1" "User Prompts" TCategory (Some CUser) None None (Some []) None None None].

Definition opt_list {A : Type} (o : option (list A)) : list A :=
  match o with Some l => l | None => [] end.

Definition isType (t : PromptNodeType) (e : PromptEntry) : bool :=
  PromptNodeType_eqb (e_type e) t.

Definition hasCategoryType (t : CategoryType) (e : PromptEntry) : bool :=
  match e_categoryType e with Some t' => CategoryType_eqb t' t | None => false end.

Definition entryToPrompt (child : PromptEntry) : Prompt :=
  {| p_id := e_id child; p_label := e_label child; p_prompt := e_prompt child;
     p_tags := opt_list (e_tags child); p_evaluation := None |}.

Definition entryToGroup (group : PromptEntry) : PromptGroup :=
  {| g_id := e_id group; g_label := e_label group;
     g_prompts := map entryToPrompt (filter (isType TPrompt) (opt_list (e_children group))) |}.

Definition convertEntriesToCategories (entries : list PromptEntry) : list PromptCategory :=
  map (fun entry =>
         {| c_id := e_id entry; c_label := e_label entry;
            c_type := match e_categoryType entry with Some t => t | None => CUser end;
            c_groups := map entryToGroup (filter (isType TGroup) (opt_list (e_children entry))) |})
      (filter (isType TCategory) entries).

(** [PromptLibrary.saveUserPromptsToJson]: only the categories whose
    [categoryType] is ['user'] are written, with [type: 'user']. *)
Definition saveUserCategories (entries : list PromptEntry) : list PromptCategory :=
  map (fun entry =>
         {| c_id := e_id entry; c_label := e_label entry; c_type := CUser;
            c_groups := map entryToGroup (filter (isType TGroup) (opt_list (e_children entry))) |})
      (filter (hasCategoryType CUser) entries).

(** [PromptLibrary.getMaxId]: one loop iteration is [getMaxId_step]. *)
Fixpoint getMaxId_step (max : JS.number) (e : PromptEntry) : JS.number :=
  match e with
  | mkEntry eid _ _ _ _ _ ch _ _ _ =>
      let max1 := match JS.parseInt eid with
                  | Some id => if JS.ltb max id then id else max
                  | None => max
                  end in
      match ch with
      | Some ch =>
          let childMax := fold_left getMaxId_step ch (JS.Finite 0) in
          if JS.ltb max1 childMax then childMax else max1
      | None => max1
      end
  end.

Definition getMaxId (entries : list PromptEntry) : JS.number :=
  fold_left getMaxId_step entries (JS.Finite 0).

(** A JSON file on disk, as [fs.existsSync] and [JSON.parse] see it. *)
Inductive JsonFile :=
| Missing
| Corrupt
| Parsed (cats : list PromptCategory).

Record UserPreferences := {
  favorites : list string; recentPrompts : list string; searchHistory : list string }.

(** The fields of [class PromptLibrary] the claims are about, together with
    the two files it reads; the search query and the view filters are kept
    apart. *)
Record Library := {
  systemFile : JsonFile;
  userFile : JsonFile;
  prompts : list PromptEntry;
  allPrompts : list Prompt;
  nextId : JS.number;
  userPreferences : UserPreferences }.

Definition initialUserCategory : PromptCategory :=
  {| c_id := "user"; c_label := "User Prompts"; c_type := CUser; c_groups := [] |}.

Definition loadSystemCategories (f : JsonFile) : list PromptCategory :=
  match f with
  | Parsed cats => cats
  | Missing => convertEntriesToCategories (filter (hasCategoryType CSystem) getDefaultPrompts)
  | Corrupt => []  (* the error is logged *)
  end.

(** The user file: read it, or create it with one empty category, or fall
    back to that category in memory when it cannot be parsed. *)
Definition loadUserCategories (f : JsonFile) : JsonFile * list PromptCategory :=
  match f with
  | Parsed cats => (f, cats)
  | Missing => (Parsed [initialUserCategory], [initialUserCategory])
  | Corrupt => (Corrupt, [initialUserCategory])
  end.

(** [PromptLibrary.loadPrompts] *)
Definition loadPrompts (st : Library) : Library :=
  let sys := loadSystemCategories (systemFile st) in
  let '(uf, usr) := loadUserCategories (userFile st) in
  let allCategories := (sys ++ usr)%list in
  let entries := convertJsonToEntries allCategories in
  {| systemFile := systemFile st;
     userFile := uf;
     prompts := entries;
     allPrompts := extractAllPrompts allCategories;
     nextId := JS.succ (getMaxId entries);
     userPreferences := userPreferences st |}.

(** The library right after its constructor ran. *)
Definition initLibrary (sf uf : JsonFile) (prefs : UserPreferences) : Library :=
  loadPrompts {| systemFile := sf; userFile := uf; prompts := []; allPrompts := [];
                 nextId := JS.Finite 0; userPreferences := prefs |}.

(** [savePromptsToJson] followed by nothing else: the user file is
    rewritten from the in-memory tree. *)
Definition saveUserPromptsToJson (st : Library) : Library :=
  {| systemFile := systemFile st;
     userFile := Parsed (saveUserCategories (prompts st));
     prompts := prompts st; allPrompts := allPrompts st; nextId := nextId st;
     userPreferences := userPreferences st |}.

Definition with_tree (st : Library) (es : list PromptEntry) (ps : list Prompt)
    (n : JS.number) :=
  {| systemFile := systemFile st; userFile := userFile st;
     prompts := es; allPrompts := ps; nextId := n;
     userPreferences := userPreferences st |}.

(* ------------------------------------------------------------------ *)
(** ** [String.prototype.replace] with a global regular expression *)

Module Regex.
Local Open Scope string_scope.

Fixpoint drop (n : nat) (s : string) : string :=
  match n, s with
  | O, _ => s
  | S k, String _ r => drop k r
  | S _, EmptyString => EmptyString
  end.

(** Case-insensitive ([i] flag) test that the lower-case literal [p]
    occurs at the start of [s]. *)
Definition imatch (p : string) (s : string) : bool :=
  JS.startsWith (JS.toLowerCase s) p.

(** [s.replace(re, repl)] for a global [re]: [match_at s] is the length
    of the match [re] finds at the start of [s] (if any); [expand m before
    after] builds the replacement text of a match [m] with the original
    text [before] and [after] it. The scan resumes after each match. *)
Fixpoint replace_go (match_at : string -> option nat)
    (expand : string -> string -> string -> string)
    (fuel : nat) (before s : string) : string :=
  match fuel with
  | O => s
  | S f =>
      match s with
      | EmptyString => EmptyString
      | String c r =>
          match match_at s with
          | Some (S _ as n) =>
              let m := substring 0 n s in
              expand m before (drop n s)
                ++ replace_go match_at expand f (before ++ m) (drop n s)
          | _ => String c (replace_go match_at expand f (before ++ String c EmptyString) r)
          end
      end
  end.

Definition replace_all (match_at : string -> option nat)
    (expand : string -> string -> string -> string) (s : string) : string :=
  replace_go match_at expand (S (String.length s)) EmptyString s.

(** First alternative of a list of lower-case literals that matches. *)
Fixpoint first_alt (alts : list string) (s : string) : option nat :=
  match alts with
  | [] => None
  | a :: r => if imatch a s then Some (String.length a) else first_alt r s
  end.

End Regex.

(** [prompt.replace(/e\.g\.,|example:|for example:|such as:/gi, '').trim()] *)
Definition placeholderPhrases : list string :=
  ["e.g.,"; "example:"; "for example:"; "such as:"].

Definition stripPlaceholders (prompt : string) : string :=
  JS.trim (Regex.replace_all (Regex.first_alt placeholderPhrases)
             (fun _ _ _ => EmptyString) prompt).

(* ------------------------------------------------------------------ *)
(** ** [addPrompt], [updatePrompt], [deletePrompt] *)

(** What [await this.evaluationService.evaluatePrompt(prompt)] does. *)
Inductive EvalOutcome :=
| EvalThrows
| EvalUndefined
| EvalReturns (s : PromptEvaluationScore).

(** The two fallbacks of [addPrompt]: [fallbackEvaluation] when the
    service returns [undefined], the one of the [catch] block otherwise. *)
Definition addFallbackEvaluation (ts : string) : PromptEvaluationScore :=
  {| overallScore := 65; clarity := 6; specificity := 7; context := 6;
     efficiency := 7; relevance := 7;
     suggestions := ["Make the prompt more specific.";
                     "Add more context to improve results."];
     timestamp := ts |}.

Definition addErrorEvaluation (ts : string) : PromptEvaluationScore :=
  {| overallScore := 60; clarity := 6; specificity := 6; context := 6;
     efficiency := 6; relevance := 6;
     suggestions := ["Error evaluating prompt. Please try again later."];
     timestamp := ts |}.

Definition addEvaluation (ev : EvalOutcome) (ts : string) : PromptEvaluationScore :=
  match ev with
  | EvalReturns e => e
  | EvalUndefined => addFallbackEvaluation ts
  | EvalThrows => addErrorEvaluation ts
  end.

Definition push_child (parent child : PromptEntry) : PromptEntry :=
  set_children parent (Some (opt_list (e_children parent) ++ [child])).

Definition truthy (s : option string) : bool :=
  match s with Some v => negb (String.eqb v EmptyString) | None => false end.

(** The attachment step of [addPrompt]: given the tree, the counter after
    the prompt's id was drawn and the new prompt, returns the new tree,
    the counter, and the prompt as it is stored. *)
Definition attachPrompt (es : list PromptEntry) (nid : JS.number) (parentId : option string)
    (newPrompt : PromptEntry) : list PromptEntry * JS.number * PromptEntry :=
  match parentId with
  | Some pid =>
      if truthy parentId then
        match findById es pid with
        | Some parent =>
            let np := set_categoryType newPrompt (e_categoryType parent) in
            match e_type parent with
            | TCategory =>
                match modify_first_list
                        (fun g => if isType TGroup g then Some (push_child g np) else None)
                        (opt_list (e_children parent)) with
                | Some ch' => (replace_first pid (set_children parent (Some ch')) es, nid, np)
                | None =>
                    let targetGroup :=
                      mkEntry (JS.numberToString nid) "Default" TGroup (e_categoryType parent)
                        None None (Some []) (Some (e_id parent)) None None in
                    (replace_first pid (push_child parent (push_child targetGroup np)) es,
                     JS.succ nid, np)
                end
            | TGroup => (replace_first pid (push_child parent np) es, nid, np)
            | TPrompt => (es, nid, newPrompt)
            end
        | None => (es, nid, newPrompt)
        end
      else (es, nid, newPrompt)
  | None => (es, nid, newPrompt)
  end.

Record AddResult := {
  add_returned : option string;   (** the resolved value of the promise *)
  add_stored : PromptEntry;       (** [newPrompt] when the file is written *)
  add_state : Library }.

(** [PromptLibrary.addPrompt] *)
Definition addPrompt (st : Library) (label prompt : string) (tags : list string)
    (parentId : option string) (ev : EvalOutcome) (ts : string) : AddResult :=
  let prompt := stripPlaceholders prompt in
  let newPromptId := JS.numberToString (nextId st) in
  let evaluation := addEvaluation ev ts in
  let newPrompt := mkEntry newPromptId label TPrompt None (Some prompt) (Some tags) None
                     parentId parentId (Some evaluation) in
  let '(es, nid, stored) := attachPrompt (prompts st) (JS.succ (nextId st)) parentId newPrompt in
  let promptWithEvaluation :=
    {| p_id := newPromptId; p_label := label; p_prompt := Some prompt;
       p_tags := tags; p_evaluation := Some evaluation |} in
  let st1 := with_tree st es (allPrompts st ++ [promptWithEvaluation]) nid in
  let st2 := loadPrompts (saveUserPromptsToJson st1) in
  {| add_returned := Some newPromptId;
     add_stored := stored;
     add_state := loadPrompts st2 |}.

(** [Partial<PromptEntry>]: [Some v] for a property the object has. *)
Record PromptEntryPatch := {
  u_label : option string;
  u_type : option PromptNodeType;
  u_categoryType : option (option CategoryType);
  u_prompt : option (option string);
  u_tags : option (option (list string));
  u_children : option (option (list PromptEntry));
  u_parentId : option (option string);
  u_categoryId : option (option string);
  u_evaluation : option (option PromptEvaluationScore) }.

Definition pick {A : Type} (u : option A) (old : A) : A :=
  match u with Some v => v | None => old end.

(** [Object.assign(entry, updates)] *)
Definition assignPatch (e : PromptEntry) (u : PromptEntryPatch) : PromptEntry :=
  mkEntry (e_id e) (pick (u_label u) (e_label e)) (pick (u_type u) (e_type e))
    (pick (u_categoryType u) (e_categoryType e)) (pick (u_prompt u) (e_prompt e))
    (pick (u_tags u) (e_tags e)) (pick (u_children u) (e_children e))
    (pick (u_parentId u) (e_parentId e)) (pick (u_categoryId u) (e_categoryId e))
    (pick (u_evaluation u) (e_evaluation e)).

Definition patch_with_prompt (u : PromptEntryPatch) (p : option (option string))
    (ev : option (option PromptEvaluationScore)) : PromptEntryPatch :=
  {| u_label := u_label u; u_type := u_type u; u_categoryType := u_categoryType u;
     u_prompt := p; u_tags := u_tags u; u_children := u_children u;
     u_parentId := u_parentId u; u_categoryId := u_categoryId u;
     u_evaluation := ev |}.

(** The fallbacks of [updatePrompt]. *)
Definition updateFallbackEvaluation (ts : string) : PromptEvaluationScore :=
  {| overallScore := 65; clarity := 6; specificity := 7; context := 6;
     efficiency := 7; relevance := 7;
     suggestions := ["Updated prompt needs refinement.";
                     "Consider adding more specificity."];
     timestamp := ts |}.

Definition updateErrorEvaluation (ts : string) : PromptEvaluationScore :=
  {| overallScore := 60; clarity := 6; specificity := 6; context := 6;
     efficiency := 6; relevance := 6;
     suggestions := ["Evaluation error occurred. Please check prompt format."];
     timestamp := ts |}.

(** The observable effects of a store operation besides its new state. *)
Inductive Effect :=
| WriteUserFile (cats : list PromptCategory)
| ShowEvaluation (score : PromptEvaluationScore).

(** [allPrompts.find(p => p.id === id)] updated field by field. *)
Definition updateInAll (ps : list Prompt) (id : string) (u : PromptEntryPatch) : list Prompt :=
  match modify_first_list
          (fun p => if String.eqb (p_id p) id then
                      Some {| p_id := p_id p;
                              p_label := match u_label u with
                                         | Some l => if String.eqb l EmptyString then p_label p else l
                                         | None => p_label p end;
                              p_prompt := match u_prompt u with
                                          | Some x => if truthy x then x else p_prompt p
                                          | None => p_prompt p end;
                              p_tags := match u_tags u with
                                        | Some (Some t) => t
                                        | _ => p_tags p end;
                              p_evaluation := match u_evaluation u with
                                              | Some (Some e) => Some e
                                              | _ => p_evaluation p end |}
                    else None) ps with
  | Some ps' => ps'
  | None => ps
  end.

(** [PromptLibrary.updatePrompt] *)
Definition updatePrompt (st : Library) (id : string) (updates : PromptEntryPatch)
    (ev : EvalOutcome) (ts : string) : Library * list Effect :=
  let entry := findById (prompts st) id in
  let updates :=
    match u_prompt updates with
    | Some p => if truthy p
                then patch_with_prompt updates
                       (Some (option_map stripPlaceholders p)) (u_evaluation updates)
                else updates
    | None => updates
    end in
  match entry with
  | None => (st, [])
  | Some e =>
      let promptChanged := match u_prompt updates with Some p => truthy p | None => false end in
      let updates :=
        if promptChanged then
          let evaluation :=
            match ev with
            | EvalReturns s => Some (Some s)
            | EvalUndefined => Some (Some (updateFallbackEvaluation ts))
            | EvalThrows => Some (Some (updateErrorEvaluation ts))
            end in
          patch_with_prompt updates (u_prompt updates) evaluation
        else updates in
      let es := replace_first id (assignPatch e updates) (prompts st) in
      let ps := updateInAll (allPrompts st) id updates in
      let st1 := saveUserPromptsToJson (with_tree st es ps (nextId st)) in
      let msg := match promptChanged, u_evaluation updates with
                 | true, Some (Some s) => [ShowEvaluation s]
                 | _, _ => []
                 end in
      (loadPrompts st1, [WriteUserFile (saveUserCategories es)] ++ msg)
  end.

(** [PromptLibrary.deletePrompt] *)
Definition deletePrompt (st : Library) (id : string) : Library * list Effect :=
  let es := removeById (prompts st) id in
  let ps := filter (fun p => negb (String.eqb (p_id p) id)) (allPrompts st) in
  let st1 := saveUserPromptsToJson (with_tree st es ps (nextId st)) in
  (loadPrompts st1, [WriteUserFile (saveUserCategories es)]).

Definition with_prefs (st : Library) (pr : UserPreferences) : Library :=
  {| systemFile := systemFile st; userFile := userFile st; prompts := prompts st;
     allPrompts := allPrompts st; nextId := nextId st; userPreferences := pr |}.

(** [PromptLibrary.toggleFavorite] *)
Definition toggleFavorite (st : Library) (promptId : string) : Library :=
  let pr := userPreferences st in
  let favs := if existsb (String.eqb promptId) (favorites pr)
              then (fix rm_first (l : list string) :=
                      match l with
                      | [] => []
                      | x :: r => if String.eqb x promptId then r else x :: rm_first r
                      end) (favorites pr)
              else favorites pr ++ [promptId] in
  with_prefs st {| favorites := favs; recentPrompts := recentPrompts pr;
                   searchHistory := searchHistory pr |}.

(** [PromptLibrary.addToRecent] *)
Definition addToRecent (st : Library) (promptId : string) : Library :=
  let pr := userPreferences st in
  let rest := (fix rm_first (l : list string) :=
                 match l with
                 | [] => []
                 | x :: r => if String.eqb x promptId then r else x :: rm_first r
                 end) (recentPrompts pr) in
  let rec := promptId :: rest in
  let rec := if Nat.ltb 10 (length rec) then firstn 10 rec else rec in
  with_prefs st {| favorites := favorites pr; recentPrompts := rec;
                   searchHistory := searchHistory pr |}.

(** [PromptLibrary.createPromptEntry] *)
Definition createPromptEntry (p : Prompt) : PromptEntry :=
  mkEntry (p_id p) (p_label p) TPrompt (Some CSystem) (p_prompt p) (Some (p_tags p))
    None None None None.

(** [ids.map(id => this.allPrompts.find(p => p.id === id))
       .filter(p => p !== undefined).map(p => this.createPromptEntry(p!))] *)
Definition resolveStoredIds (ids : list string) (all : list Prompt) : list PromptEntry :=
  map createPromptEntry
    (keep_some (fun p => p) (map (fun id => find (fun p => String.eqb (p_id p) id) all) ids)).

(** [PromptLibrary.getFavoritePrompts] *)
Definition getFavoritePrompts (st : Library) : list PromptEntry :=
  resolveStoredIds (favorites (userPreferences st)) (allPrompts st).

(** [PromptLibrary.getRecentPrompts] *)
Definition getRecentPrompts (st : Library) : list PromptEntry :=
  resolveStoredIds (recentPrompts (userPreferences st)) (allPrompts st).

(** The states the library goes through in a session: construction, then
    any sequence of store operations. *)
Inductive reachable : Library -> Prop :=
| reach_init sf uf prefs : reachable (initLibrary sf uf prefs)
| reach_add st label body tags parentId ev ts :
    reachable st -> reachable (add_state (addPrompt st label body tags parentId ev ts))
| reach_update st id u ev ts :
    reachable st -> reachable (fst (updatePrompt st id u ev ts))
| reach_delete st id :
    reachable st -> reachable (fst (deletePrompt st id))
| reach_favorite st id : reachable st -> reachable (toggleFavorite st id)
| reach_recent st id : reachable st -> reachable (addToRecent st id).

Section EntryInduction.
Variable P : PromptEntry -> Prop.
Hypothesis IH : forall e, Forall P (opt_list (e_children e)) -> P e.

Fixpoint entry_rect' (e : PromptEntry) : P e :=
  match e with
  | mkEntry a b c d f g ch h i j =>
      IH (mkEntry a b c d f g ch h i j)
        (match ch as o return Forall P (opt_list o) with
         | Some l =>
             (fix go (l : list PromptEntry) : Forall P l :=
                match l with
                | [] => Forall_nil _
                | x :: r => Forall_cons _ (entry_rect' x) (go r)
                end) l
         | None => Forall_nil _
         end)
  end.
End EntryInduction.

Definition has_id (id : string) (e : PromptEntry) : bool := String.eqb (e_id e) id.

Definition groupNodes (cat : PromptCategory) (g : PromptGroup) : list PromptEntry :=
  convertGroup cat g :: map (convertPrompt cat g) (g_prompts g).

Definition categoryNodes (cat : PromptCategory) : list PromptEntry :=
  convertCategory cat :: flat_map (groupNodes cat) (c_groups cat).

(** The states reached from the constructor are always the result of a
    [loadPrompts] (up to the preference record). *)
Definition loaded (st : Library) : Prop :=
  exists usr,
    prompts st = convertJsonToEntries (loadSystemCategories (systemFile st) ++ usr) /\
    allPrompts st = extractAllPrompts (loadSystemCategories (systemFile st) ++ usr) /\
    nextId st = JS.succ (getMaxId (prompts st)).

(** Every top-level node is a category of kind ['system'] or ['user'] and
    every prompt below a category carries that category's kind. *)
Definition prompt_kinds_follow_categories (es : list PromptEntry) : Prop :=
  Forall (fun c => e_type c = TCategory /\ exists k, e_categoryType c = Some k) es /\
  forall c, In c es -> e_type c = TCategory ->
  forall p, In p (flatten (opt_list (e_children c))) -> e_type p = TPrompt ->
  e_categoryType p = e_categoryType c.

(** The entry shown for a prompt node of the tree in the Favorites and
    Recent sections. *)
Definition displayEntry (e : PromptEntry) : PromptEntry :=
  mkEntry (e_id e) (e_label e) TPrompt (Some CSystem) (e_prompt e) (e_tags e)
    None None None None.

Definition is_prompt_with_id (id : string) (e : PromptEntry) : bool :=
  isType TPrompt e && has_id id e.

(** The entries of the stored ids that name a prompt node of the tree, in
    the stored order. *)
Definition resolveInTree (ids : list string) (es : list PromptEntry) : list PromptEntry :=
  flat_map (fun id => match find (is_prompt_with_id id) (flatten es) with
                      | Some e => [displayEntry e]
                      | None => []
                      end) ids.

Definition promptPairs (cats : list PromptCategory) : list (PromptEntry * Prompt) :=
  flat_map (fun cat => flat_map (fun g => map (fun p => (convertPrompt cat g p, p))
                                            (g_prompts g)) (c_groups cat)) cats.

Definition contains_try_again (s : string) : bool :=
  JS.includes (JS.toLowerCase s) "try again".

(** The same deletion on the JSON categories. *)
Definition removeInGroup (id : string) (g : PromptGroup) : PromptGroup :=
  {| g_id := g_id g; g_label := g_label g;
     g_prompts := filter (fun p => negb (String.eqb (p_id p) id)) (g_prompts g) |}.

Definition removeInCategory (id : string) (c : PromptCategory) : PromptCategory :=
  {| c_id := c_id c; c_label := c_label c; c_type := c_type c;
     c_groups := map (removeInGroup id)
                   (filter (fun g => negb (String.eqb (g_id g) id)) (c_groups c)) |}.

Definition removeInCategories (id : string) (cats : list PromptCategory) :=
  map (removeInCategory id) (filter (fun c => negb (String.eqb (c_id c) id)) cats).

(** What a JSON round trip of the user categories keeps. *)
Definition normPrompt (p : Prompt) : Prompt :=
  {| p_id := p_id p; p_label := p_label p; p_prompt := p_prompt p;
     p_tags := p_tags p; p_evaluation := None |}.

Definition normGroup (g : PromptGroup) : PromptGroup :=
  {| g_id := g_id g; g_label := g_label g; g_prompts := map normPrompt (g_prompts g) |}.

Definition normCategory (c : PromptCategory) : PromptCategory :=
  {| c_id := c_id c; c_label := c_label c; c_type := CUser;
     c_groups := map normGroup (c_groups c) |}.

Definition isUserCategory (c : PromptCategory) : bool := CategoryType_eqb (c_type c) CUser.

(** [y] is a node of the forest [es] reached through nodes none of which
    has the id [id], i.e. it lies outside every subtree rooted at [id]. *)
Inductive outside (id : string) : list PromptEntry -> PromptEntry -> Prop :=
| outside_here es y : In y es -> e_id y <> id -> outside id es y
| outside_below es x y :
    In x es -> e_id x <> id -> outside id (opt_list (e_children x)) y -> outside id es y.

(** A node of the same id, kind and label. *)
Definition same_node (y y' : PromptEntry) : Prop :=
  e_id y' = e_id y /\ e_type y' = e_type y /\ e_label y' = e_label y.

Definition max_bounds (m : JS.number) (l : list PromptEntry) : Prop :=
  forall y k, In y l -> JS.parseInt (e_id y) = Some k -> JS.leb k m = true.

(** The JSON group the prompt was appended to, as [saveUserPromptsToJson]
    writes it. *)
Definition addedGroup (g0 : PromptGroup) (np : PromptEntry) : PromptGroup :=
  {| g_id := g_id g0; g_label := g_label g0;
     g_prompts := map normPrompt (g_prompts g0) ++ [entryToPrompt np] |}.

Definition addedCategory (a : PromptCategory) (gpre : list PromptGroup) (g0 : PromptGroup)
    (np : PromptEntry) (gpost : list PromptGroup) : PromptCategory :=
  {| c_id := c_id a; c_label := c_label a; c_type := CUser;
     c_groups := map normGroup gpre ++ addedGroup g0 np :: map normGroup gpost |}.

Definition fresh_in (s : string) (l : list PromptEntry) : Prop :=
  forall x, In x l -> e_id x <> s.

Definition examplePrefs : UserPreferences :=
  {| favorites := []; recentPrompts := []; searchHistory := [] |}.

Definition examplePrompt : Prompt :=
  {| p_id := "5"; p_label := "Fix bug"; p_prompt := Some "Fix the bug in this code";
     p_tags := ["debug"; "legacy"]; p_evaluation := None |}.

Definition exampleGroup : PromptGroup :=
  {| g_id := "g1"; g_label := "Debugging"; g_prompts := [examplePrompt] |}.

Definition exampleSystemCategory : PromptCategory :=
  {| c_id := "sys"; c_label := "System"; c_type := CSystem; c_groups := [exampleGroup] |}.

Definition exampleLibrary : Library :=
  initLibrary (Parsed [exampleSystemCategory]) Missing examplePrefs.

Definition emptyPatch : PromptEntryPatch :=
  {| u_label := None; u_type := None; u_categoryType := None; u_prompt := None;
     u_tags := None; u_children := None; u_parentId := None; u_categoryId := None;
     u_evaluation := None |}.

(* ------------------------------------------------------------------ *)
(** ** The search filter of the tree view *)

(** The [matches] test of [PromptTreeDataProvider.filterBySearch]. *)
Definition matchesQuery (lowerQuery : string) (item : PromptEntry) : bool :=
  JS.includes (JS.toLowerCase (e_label item)) lowerQuery ||
  match e_prompt item with
  | Some p => JS.includes (JS.toLowerCase p) lowerQuery
  | None => false
  end ||
  match e_tags item with
  | Some ts => existsb (fun tag => JS.includes (JS.toLowerCase tag) lowerQuery) ts
  | None => false
  end.

(** One iteration of the loop of [filterBySearch]: the item itself when it
    matches, a copy holding the filtered children when some child matches. *)
Fixpoint filterBySearch_item (query : string) (item : PromptEntry) : option PromptEntry :=
  match item with
  | mkEntry _ _ _ _ _ _ ch _ _ _ =>
      if matchesQuery (JS.toLowerCase query) item then Some item
      else match ch with
           | Some ch =>
               match keep_some (filterBySearch_item query) ch with
               | [] => None
               | childMatches => Some (set_children item (Some childMatches))
               end
           | None => None
           end
  end.

(** [PromptTreeDataProvider.filterBySearch] *)
Definition filterBySearch (items : list PromptEntry) (query : string) : list PromptEntry :=
  keep_some (filterBySearch_item query) items.

(** [a] is a proper ancestor of [m]. *)
Definition ancestor_of (m a : PromptEntry) : Prop :=
  In m (flatten (opt_list (e_children a))).

(** The result [r] of filtering [l] when [m] is the only node that
    matches: it holds [m], a copy of every ancestor of [m] with other
    children, and nothing else but the subtree of [m]. *)
Definition pruned_to (m : PromptEntry) (l r : list PromptEntry) : Prop :=
  (r = [] \/ In m (flatten l)) /\
  (In m (flatten l) -> In m (flatten r)) /\
  (forall a, In a (flatten l) -> ancestor_of m a ->
     exists ch, In (set_children a (Some ch)) (flatten r)) /\
  (forall y, In y (flatten r) ->
     In y (flatten_entry m) \/
     exists a ch, In a (flatten l) /\ ancestor_of m a /\ y = set_children a (Some ch)).

(** Only [m] matches among the nodes [l]. *)
Definition only_m (query : string) (m : PromptEntry) (l : list PromptEntry) : Prop :=
  forall y, In y l -> matchesQuery (JS.toLowerCase query) y = true -> y = m.

(* ------------------------------------------------------------------ *)
(** ** Context-aware suggestions: [calculateRelevanceScore] and
    [getRelevantPrompts] *)

(** [enum ContextType] (constructors prefixed with [Ctx]). *)
Inductive ContextType :=
  | CtxSelection | CtxError | CtxFunction | CtxClass | CtxFile | CtxVariable | CtxComment
  | CtxImport | CtxTest | CtxAPI | CtxDebug | CtxRefactor | CtxDocumentation | CtxAll.

(** The fields of [context.data] the scorer reads. A field that is absent
    or falsy is [None] (or [false]); [errorCode] is kept as the text of
    [errorCode.toString()]; [testFramework] is the text [includes] sees
    ([undefined] becomes "undefined"). *)
Record ContextData := {
  d_isCode : bool;
  d_errorCode : option string;
  d_functionType : option string;
  d_testFramework : option string;
  d_language : option string;
  d_projectType : option string;
  d_fileName : option string }.

Record RelevanceContext := { c_ctype : ContextType; c_data : ContextData }.

(** A value [promptUsage[id] || 0] can read: a count, or a value whose
    product with [0.15] is [NaN] (a function or object inherited from
    [Object.prototype], or the string [trackUsage] stores after adding 1
    to one of them). *)
Inductive UsageValue :=
| UCount (n : N)
| UNotANumber.

(** The members a plain object such as [analytics.promptUsage] inherits
    from [Object.prototype]: reading one of them by name gives a function
    or an object, never [undefined]. *)
Definition objectPrototypeMembers : list string :=
  ["constructor"; "__defineGetter__"; "__defineSetter__"; "hasOwnProperty";
   "__lookupGetter__"; "__lookupSetter__"; "isPrototypeOf";
   "propertyIsEnumerable"; "toString"; "valueOf"; "__proto__";
   "toLocaleString"].

(** The parts of [UsageAnalytics] the scorer reads: the own entries of
    [promptUsage] (counts, only ever incremented from 0, or the string
    [trackUsage] stores for an inherited member), and the days elapsed
    since [lastUsed[id]] ([None] when there is no entry, or its date does
    not parse, as for an inherited member). *)
Record UsageAnalytics := {
  ownPromptUsage : string -> option UsageValue;
  lastUsedDays : string -> option Q }.

(** [this.analytics.promptUsage[prompt.id] || 0]: an own entry, else the
    inherited member of that name, else [0]. *)
Definition usageCount (an : UsageAnalytics) (id : string) : UsageValue :=
  match ownPromptUsage an id with
  | Some v => v
  | None => if existsb (String.eqb id) objectPrototypeMembers
            then UNotANumber else UCount 0
  end.

Definition usageIsNumber (an : UsageAnalytics) (id : string) : bool :=
  match usageCount an id with UCount _ => true | UNotANumber => false end.

Definition bonus (b : bool) (n : Q) : Q := if b then n else 0.

Definition hasTag (tags : list string) (t : string) : bool :=
  existsb (String.eqb t) tags.

(** The [switch (context.type)] block. *)
Definition contextBonus (ctx : RelevanceContext) (promptText : string)
    (tags : list string) : Q :=
  let has := JS.includes promptText in
  let tag := hasTag tags in
  let d := c_data ctx in
  match c_ctype ctx with
  | CtxSelection =>
      (if d_isCode d then
         bonus (has "explain" || has "review" || has "analyze") 8
         + bonus (has "refactor" || has "optimize") 6
       else bonus (has "summarize" || has "translate") 5)
      + bonus (tag "explain" || tag "review" || tag "analysis") 4
  | CtxError =>
      bonus (has "debug" || has "error" || has "fix") 10
      + bonus (has "troubleshoot" || has "solve") 8
      + bonus (tag "debug" || tag "error" || tag "troubleshoot") 6
      + bonus (match d_errorCode d with
               | Some c => truthy (Some c) && has c
               | None => false end) 5
  | CtxFunction =>
      bonus (has "function" || has "method") 7
      + bonus (has "explain" || has "document") 6
      + bonus (has "test" && match d_functionType d with
                             | Some f => String.eqb f "async"
                             | None => false end) 4
      + bonus (tag "explain" || tag "documentation" || tag "function") 4
  | CtxClass =>
      bonus (has "class" || has "object") 7
      + bonus (has "design" || has "architecture") 6
      + bonus (tag "class" || tag "oop" || tag "design") 4
  | CtxTest =>
      bonus (has "test" || has "testing") 10
      + bonus (has "unit" || has "integration") 8
      + bonus (has (match d_testFramework d with
                    | Some f => f | None => "undefined" end)) 6
      + bonus (tag "testing" || tag "unit-tests" || tag "tdd") 5
  | CtxImport =>
      bonus (has "import" || has "dependency") 7
      + bonus (has "package" || has "library") 5
      + bonus (tag "dependencies" || tag "imports") 4
  | CtxComment =>
      bonus (has "comment" || has "document") 8
      + bonus (has "explain" || has "clarify") 6
      + bonus (tag "documentation" || tag "comments") 4
  | CtxVariable =>
      bonus (has "variable" || has "naming") 7
      + bonus (has "refactor" || has "clean") 5
  | CtxAPI =>
      bonus (has "api" || has "endpoint") 8
      + bonus (has "rest" || has "graphql") 6
      + bonus (tag "api" || tag "web" || tag "rest") 5
  | CtxFile | CtxDebug | CtxRefactor | CtxDocumentation | CtxAll => 0
  end.

(** The language and project-type blocks: [textBonus] when the prompt's
    text or label contains the value, [tagBonus] when a lower-cased tag
    does. *)
Definition matchBonus (v : option string) (promptText promptLabel : string)
    (tags : list string) (textBonus tagBonus : Q) : Q :=
  match v with
  | Some s =>
      if truthy (Some s) then
        let w := JS.toLowerCase s in
        bonus (JS.includes promptText w || JS.includes promptLabel w) textBonus
        + bonus (existsb (fun t => JS.includes (JS.toLowerCase t) w) tags) tagBonus
      else 0
  | None => 0
  end.

(** The file-type block. *)
Definition fileBonus (fileName : option string) (promptText : string)
    (tags : list string) : Q :=
  match fileName with
  | Some s =>
      if truthy (Some s) then
        let f := JS.toLowerCase s in
        bonus (JS.includes f "test" &&
               (JS.includes promptText "test" || hasTag tags "testing")) 3
        + bonus (JS.includes f "config" &&
                 (JS.includes promptText "config" || hasTag tags "configuration")) 3
      else 0
  | None => 0
  end.

(** The usage-history and recent-usage blocks; [None] is [NaN]. *)
Definition usageBonus (an : UsageAnalytics) (id : string) : option Q :=
  match usageCount an id with
  | UCount n =>
      Some (Qmin (inject_Z (Z.of_N n) * (15 # 100)) 3
            + match lastUsedDays an id with
              | Some days => if Qlt_le_dec days 1 then 2
                             else if Qlt_le_dec days 7 then 1 else 0
              | None => 0
              end)
  | UNotANumber => None
  end.

(** [SearchManager.calculateRelevanceScore] (scores as rationals; [None]
    is [NaN], which [Math.max(0, score)] keeps). *)
Definition calculateRelevanceScore (an : UsageAnalytics) (prompt : PromptEntry)
    (ctx : RelevanceContext) : option Q :=
  let promptText := match e_prompt prompt with
                    | Some t => JS.toLowerCase t | None => EmptyString end in
  let promptLabel := JS.toLowerCase (e_label prompt) in
  let tags := opt_list (e_tags prompt) in
  match usageBonus an (e_id prompt) with
  | Some u =>
      Some (Qmax 0
              (1 + contextBonus ctx promptText tags
               + matchBonus (d_language (c_data ctx)) promptText promptLabel tags 4 3
               + matchBonus (d_projectType (c_data ctx)) promptText promptLabel tags 5 4
               + fileBonus (d_fileName (c_data ctx)) promptText tags
               + u))
  | None => None
  end.

(** [extractAllPromptEntries]: the prompts with a non-empty text, in
    pre-order. *)
Definition extractAllPromptEntries (entries : list PromptEntry) : list PromptEntry :=
  filter (fun e => isType TPrompt e && truthy (e_prompt e)) (flatten entries).

(** [Array.prototype.sort] with [(a, b) => b.score - a.score]: the sort is
    stable and the comparator a total preorder, so the result is the one
    of a stable insertion sort, highest score first. *)
Fixpoint insertByScore (x : PromptEntry * Q) (l : list (PromptEntry * Q))
    : list (PromptEntry * Q) :=
  match l with
  | [] => [x]
  | y :: ys => if Qle_bool (snd x) (snd y) then y :: insertByScore x ys
               else x :: y :: ys
  end.

Definition sortByScoreDesc (l : list (PromptEntry * Q)) : list (PromptEntry * Q) :=
  fold_left (fun acc x => insertByScore x acc) l [].

(** [.filter(item => item.score > 0)], which is false for [NaN]: the
    items it keeps, with their (finite) scores. *)
Definition positiveScore (x : PromptEntry * option Q) : option (PromptEntry * Q) :=
  match snd x with
  | Some s => if Qle_bool s 0 then None else Some (fst x, s)
  | None => None
  end.

(** [SearchManager.getRelevantPrompts] over the library's root entries. *)
Definition getRelevantPrompts (an : UsageAnalytics) (roots : list PromptEntry)
    (ctx : RelevanceContext) : list PromptEntry :=
  let scored := map (fun p => (p, calculateRelevanceScore an p ctx))
                    (extractAllPromptEntries roots) in
  map fst (firstn 10 (sortByScoreDesc (keep_some positiveScore scored))).

Definition set_prompt (e : PromptEntry) (t : option string) : PromptEntry :=
  mkEntry (e_id e) (e_label e) (e_type e) (e_categoryType e) t
    (e_tags e) (e_children e) (e_parentId e) (e_categoryId e) (e_evaluation e).

Definition noAnalytics : UsageAnalytics :=
  {| ownPromptUsage := fun _ => None; lastUsedDays := fun _ => None |}.

Definition errorContext : RelevanceContext :=
  {| c_ctype := CtxError;
     c_data := {| d_isCode := true; d_errorCode := None; d_functionType := None;
                  d_testFramework := None; d_language := None;
                  d_projectType := None; d_fileName := None |} |}.

(** A prompt identical to [examplePrompt] but for the word "debug" in its
    text, and the two side by side in one group. *)
Definition debugVariantPrompt : Prompt :=
  {| p_id := "5"; p_label := "Fix bug";
     p_prompt := Some "Debug and fix the bug in this code";
     p_tags := ["debug"; "legacy"]; p_evaluation := None |}.

Definition tieGroup : PromptGroup :=
  {| g_id := "g1"; g_label := "Debugging";
     g_prompts := [examplePrompt; debugVariantPrompt] |}.

Definition tieCategory : PromptCategory :=
  {| c_id := "sys"; c_label := "System"; c_type := CSystem; c_groups := [tieGroup] |}.

(** [getRelevantPrompts] before the [slice(0, 10)]: the scored prompts
    with a positive score, highest first. *)
Definition rankedScores (an : UsageAnalytics) (roots : list PromptEntry)
    (ctx : RelevanceContext) : list (PromptEntry * Q) :=
  sortByScoreDesc
    (keep_some positiveScore
       (map (fun p => (p, calculateRelevanceScore an p ctx))
          (extractAllPromptEntries roots))).

Definition scoreGe (a b : PromptEntry * Q) : Prop := snd b <= snd a.

(** A prompt with none of "debug", "error", "fix" in its text, and the
    same prompt with "Debug: " in front of its text. *)
Definition plainPrompt : Prompt :=
  {| p_id := "8"; p_label := "Look at bug";
     p_prompt := Some "Look at the bug in this code";
     p_tags := ["legacy"]; p_evaluation := None |}.

Definition plainDebugPrompt : Prompt :=
  {| p_id := "8"; p_label := "Look at bug";
     p_prompt := Some "Debug: Look at the bug in this code";
     p_tags := ["legacy"]; p_evaluation := None |}.

Definition rankGroup : PromptGroup :=
  {| g_id := "g2"; g_label := "Review";
     g_prompts := [plainPrompt; plainDebugPrompt] |}.

Definition rankCategory : PromptCategory :=
  {| c_id := "sys"; c_label := "System"; c_type := CSystem; c_groups := [rankGroup] |}.

(** A prompt whose id names a member of [Object.prototype]. *)
Definition constructorPrompt : Prompt :=
  {| p_id := "constructor"; p_label := "Look at bug";
     p_prompt := Some "Debug: Look at the bug in this code";
     p_tags := ["legacy"]; p_evaluation := None |}.

Definition constructorGroup : PromptGroup :=
  {| g_id := "g3"; g_label := "Review"; g_prompts := [constructorPrompt] |}.

Definition constructorCategory : PromptCategory :=
  {| c_id := "sys"; c_label := "System"; c_type := CSystem;
     c_groups := [constructorGroup] |}.

(* ------------------------------------------------------------------ *)
(** ** Variable substitution *)

(** The replacement text of [String.prototype.replace] for a replacement
    string with no capture groups in the pattern (GetSubstitution): [$$]
    is "$", [$&] the match, [$`] the text before it, [$'] the text after
    it; any other [$] is kept. *)
Fixpoint expandReplacement (repl m before after : string) : string :=
  match repl with
  | String "$"%char (String "$"%char r) =>
      String "$"%char (expandReplacement r m before after)
  | String "$"%char (String "&"%char r) =>
      (m ++ expandReplacement r m before after)%string
  | String "$"%char (String "`"%char r) =>
      (before ++ expandReplacement r m before after)%string
  | String "$"%char (String "'"%char r) =>
      (after ++ expandReplacement r m before after)%string
  | String c r => String c (expandReplacement r m before after)
  | EmptyString => EmptyString
  end.

(** [new RegExp(`\\{\\{${variable}\\}\\}`, 'gi')] for a name of word
    characters (the names [extractVariables] yields), which the pattern
    matches literally, ignoring case. *)
Definition placeholderRegex (variable : string) : string -> option nat :=
  Regex.first_alt [JS.toLowerCase ("{{" ++ variable ++ "}}")%string].

(** [substituteVariables]: [values] lists [Object.entries(values)] in
    order; each entry is one [result.replace(regex, value)]. *)
Definition substituteVariables (prompt : string) (values : list (string * string))
    : string :=
  fold_left (fun result '(variable, value) =>
               Regex.replace_all (placeholderRegex variable)
                 (expandReplacement value) result)
    values prompt.

(** The substitution as the specification describes it: each occurrence
    of [{{name}}] becomes the supplied value, character for character. *)
Definition substituteVariables_spec (prompt : string)
    (values : list (string * string)) : string :=
  fold_left (fun result '(variable, value) =>
               Regex.replace_all (placeholderRegex variable)
                 (fun _ _ _ => value) result)
    values prompt.

Fixpoint no_dollar (s : string) : bool :=
  match s with
  | EmptyString => true
  | String c r => negb (Ascii.eqb c "$"%char) && no_dollar r
  end.

(* ------------------------------------------------------------------ *)
(** ** The [usePrompt] command *)

(** [\w] *)
Definition is_word_char (c : ascii) : bool :=
  let n := nat_of_ascii c in
  (Nat.leb 48 n && Nat.leb n 57) || (Nat.leb 65 n && Nat.leb n 90)
  || (Nat.leb 97 n && Nat.leb n 122) || Nat.eqb n 95.


Fixpoint word_prefix (s : string) : string :=
  match s with
  | String c r => if is_word_char c then String c (word_prefix r) else EmptyString
  | EmptyString => EmptyString
  end.

(** The matches of [/\{\{(\w+)\}\}/g], scanning from the left and resuming
    after each match ([fuel] bounds the number of steps). *)
Fixpoint variableMatches (fuel : nat) (s : string) : list string :=
  match fuel with
  | O => []
  | S f =>
      match s with
      | String "{"%char (String "{"%char r as s') =>
          let w := word_prefix r in
          if negb (String.eqb w EmptyString)
             && JS.startsWith (Regex.drop (String.length w) r) "}}"
          then w :: variableMatches f (Regex.drop (String.length w + 2)%nat r)
          else variableMatches f s'
      | String _ r => variableMatches f r
      | EmptyString => []
      end
  end.

(** [extractVariables]: the captured names, each once, in order of first
    occurrence. *)
Definition extractVariables (prompt : string) : list string :=
  fold_left (fun vars v => if existsb (String.eqb v) vars then vars else vars ++ [v])
    (variableMatches (S (String.length prompt)) prompt) [].

(** [interface VariableContext]; an optional field is an option. *)
Record VariableContext := {
  vc_selectedText : string;
  vc_fileName : string;
  vc_language : string;
  vc_fileExtension : string;
  vc_workspaceName : string;
  vc_currentLine : string;
  vc_lineNumber : Z;
  vc_errorAtCursor : option string;
  vc_functionName : option string;
  vc_className : option string;
  vc_importStatements : option (list string);
  vc_nearbyComments : option string;
  vc_fileSize : Z;
  vc_projectType : option string }.

(** [x || null] for an optional string. *)
Definition orNull (o : option string) : option string :=
  if truthy o then o else None.

Fixpoint join (sep : string) (l : list string) : string :=
  match l with
  | [] => EmptyString
  | [x] => x
  | x :: r => (x ++ sep ++ join sep r)%string
  end.

(** [getPredefinedVariable]; [null] is [None]. *)
Definition getPredefinedVariable (variable : string) (c : VariableContext)
    : option string :=
  let v := JS.toLowerCase variable in
  let is s := String.eqb v s in
  if is "selectedtext" || is "selection" then
    Some (if truthy (Some (vc_selectedText c)) then vc_selectedText c
          else vc_currentLine c)
  else if is "filename" || is "file" then Some (vc_fileName c)
  else if is "language" || is "lang" then Some (vc_language c)
  else if is "extension" || is "ext" then Some (vc_fileExtension c)
  else if is "workspace" || is "workspacename" then Some (vc_workspaceName c)
  else if is "currentline" || is "line" then Some (vc_currentLine c)
  else if is "linenumber" || is "lineno" then Some (JS.numberToString (JS.ofZ (vc_lineNumber c)))
  else if is "erroratcursor" || is "error" then orNull (vc_errorAtCursor c)
  else if is "functionname" || is "function" then orNull (vc_functionName c)
  else if is "classname" || is "class" then orNull (vc_className c)
  else if is "imports" || is "importstatements" then
    match vc_importStatements c with
    | Some l => orNull (Some (join ", " l))
    | None => None
    end
  else if is "comments" || is "nearbycomments" then orNull (vc_nearbyComments c)
  else if is "filesize" then Some (JS.numberToString (JS.ofZ (vc_fileSize c)))
  else if is "projecttype" || is "project" then orNull (vc_projectType c)
  else None.

(** [getDefaultValueForVariable] *)
Definition getDefaultValueForVariable (variable : string) : string :=
  let v := JS.toLowerCase variable in
  if String.eqb v "level" || String.eqb v "experience" then "intermediate"
  else if String.eqb v "style" then "concise"
  else if String.eqb v "format" then "markdown"
  else if String.eqb v "audience" then "developer"
  else EmptyString.

(** A computation that returns a value or throws an [Error] with a
    message. *)
Inductive Outcome (A : Type) :=
| Returns (a : A)
| Throws (msg : string).
Arguments Returns {A} a.
Arguments Throws {A} msg.

(** [showInputBox]: the user's answer to the box for a variable, shown
    with its default value; [None] when the box is dismissed
    ([undefined]). *)
Definition InputBox := string -> string -> option string.

(** A plain object with string values ([{ [key: string]: string }]
    created by [{}]): its own properties in creation order. *)
Definition StringRecord := list (string * string).

Fixpoint setOwn (obj : StringRecord) (key value : string) : StringRecord :=
  match obj with
  | [] => [(key, value)]
  | (k, v) :: rest =>
      if String.eqb k key then (k, value) :: rest else (k, v) :: setOwn rest key value
  end.

(** [obj[key] = value]: the key "__proto__" names the accessor inherited
    from [Object.prototype], whose setter ignores a string value; any
    other key updates its own property in place, or adds one at the
    end. *)
Definition setProperty (obj : StringRecord) (key value : string) : StringRecord :=
  if String.eqb key "__proto__" then obj else setOwn obj key value.

(** The value of a key that is an array index: the canonical decimal
    form of an integer below [2^32 - 1]. *)
Definition arrayIndex (key : string) : option Z :=
  let ds := JS.digit_prefix key in
  match ds with
  | [] => None
  | _ =>
      let n := JS.digits_value ds in
      if Nat.eqb (length ds) (String.length key) && (n <? 4294967295)%Z
         && String.eqb (JS.decimalString n) key
      then Some n else None
  end.

Fixpoint insertByIndex (x : Z * (string * string)) (l : list (Z * (string * string)))
    : list (Z * (string * string)) :=
  match l with
  | [] => [x]
  | y :: ys => if (fst x <? fst y)%Z then x :: y :: ys else y :: insertByIndex x ys
  end.

(** [Object.entries(obj)]: the array-index keys in ascending order, then
    the other keys in creation order. *)
Definition objectEntries (obj : StringRecord) : list (string * string) :=
  map snd (fold_right insertByIndex []
             (keep_some (fun kv => option_map (fun n => (n, kv)) (arrayIndex (fst kv))) obj))
  ++ filter (fun kv => match arrayIndex (fst kv) with Some _ => false | None => true end) obj.

(** The loop of [promptForCustomVariables], from the object built so
    far. *)
Fixpoint promptForCustomVariables_loop (variables : list string) (c : VariableContext)
    (ask : InputBox) (values : StringRecord) : Outcome StringRecord :=
  match variables with
  | [] => Returns values
  | v :: vs =>
      match getPredefinedVariable v c with
      | Some pv => promptForCustomVariables_loop vs c ask (setProperty values v pv)
      | None =>
          match ask v (getDefaultValueForVariable v) with
          | None => Throws "Variable substitution cancelled by user"
          | Some value => promptForCustomVariables_loop vs c ask (setProperty values v value)
          end
      end
  end.

(** [promptForCustomVariables]: the returned object. *)
Definition promptForCustomVariables (variables : list string) (c : VariableContext)
    (ask : InputBox) : Outcome StringRecord :=
  promptForCustomVariables_loop variables c ask [].

(** The messages shown ([showInformationMessage] with the prompt's label,
    [showWarningMessage], [showErrorMessage]). *)
Inductive Message :=
| ShowInfo (label : string)
| ShowWarning (msg : string)
| ShowError (msg : string).

(** [copyPromptToClipboard]: whether it succeeded, the clipboard after it,
    and the messages shown. [c] is what [getVariableContext] returns. *)
Definition copyPromptToClipboard (prompt promptLabel : string) (c : VariableContext)
    (ask : InputBox) (clipboard : string) : bool * string * list Message :=
  let variables := extractVariables prompt in
  let processed :=
    match variables with
    | [] => Returns prompt
    | _ => match promptForCustomVariables variables c ask with
           | Returns values => Returns (substituteVariables prompt (objectEntries values))
           | Throws m => Throws m
           end
    end in
  match processed with
  | Returns p => (true, p, [])
  | Throws m =>
      (false, clipboard,
       [if JS.includes m "cancelled"
        then ShowWarning "Variable substitution cancelled. Prompt not copied."
        else ShowError ("Failed to process prompt: " ++ m)%string])
  end.

(** The [prompt-library.usePrompt] command on an entry. *)
Definition usePrompt (st : Library) (entry : PromptEntry) (c : VariableContext)
    (ask : InputBox) (clipboard : string) : Library * string * list Message :=
  if truthy (e_prompt entry) then
    let p := match e_prompt entry with Some p => p | None => EmptyString end in
    match copyPromptToClipboard p (e_label entry) c ask clipboard with
    | (true, clip, msgs) =>
        (addToRecent st (e_id entry), clip, msgs ++ [ShowInfo (e_label entry)])
    | (false, clip, msgs) =>
        (st, clip,
         msgs ++ [ShowError "Failed to copy prompt to clipboard. Please try again."])
    end
  else (st, clipboard, [ShowError "No prompt available for the selected item."]).

Definition exampleVariableContext : VariableContext :=
  {| vc_selectedText := EmptyString; vc_fileName := "main.ts"; vc_language := "typescript";
     vc_fileExtension := "ts"; vc_workspaceName := "demo"; vc_currentLine := EmptyString;
     vc_lineNumber := 1%Z; vc_errorAtCursor := None; vc_functionName := None;
     vc_className := None; vc_importStatements := None; vc_nearbyComments := None;
     vc_fileSize := 0%Z; vc_projectType := None |}.

Definition levelPrompt : Prompt :=
  {| p_id := "5"; p_label := "Explain";
     p_prompt := Some "Explain {{selection}} at {{level}} level";
     p_tags := []; p_evaluation := None |}.

(* ------------------------------------------------------------------ *)
(** ** Favorites, recent prompts and tags *)

(** [Array.prototype.splice(indexOf(x), 1)] when [x] is present, and
    nothing otherwise: the first occurrence of [x] is removed. *)
Fixpoint removeFirst (x : string) (l : list string) : list string :=
  match l with
  | [] => []
  | y :: r => if String.eqb y x then r else y :: removeFirst x r
  end.

(** [PromptLibrary.isFavorite] *)
Definition isFavorite (st : Library) (promptId : string) : bool :=
  existsb (String.eqb promptId) (favorites (userPreferences st)).

(** [new Set(...)]: the values in order of first insertion. *)
Definition setFromList (l : list string) : list string :=
  fold_left (fun acc x => if existsb (String.eqb x) acc then acc else acc ++ [x]) l [].

(** [Array.prototype.sort()] without a comparator on strings: code-unit
    order, here the order of [String.compare]; an insertion sort gives its
    (stable) result. *)
Fixpoint insertString (x : string) (l : list string) : list string :=
  match l with
  | [] => [x]
  | y :: r => if String.leb x y then x :: y :: r else y :: insertString x r
  end.

Definition sortStrings (l : list string) : list string :=
  fold_right insertString [] l.

(** [PromptLibrary.getAllTags] *)
Definition getAllTags (st : Library) : list string :=
  sortStrings (setFromList (flat_map p_tags (allPrompts st))).

(* ------------------------------------------------------------------ *)
(** ** Counting and flattening for [getRootEntries] *)

(** [PromptLibrary.getChildPromptCount] *)
Fixpoint getChildPromptCount (entry : PromptEntry) : nat :=
  match entry with
  | mkEntry _ _ ty _ _ _ ch _ _ _ =>
      if PromptNodeType_eqb ty TPrompt then 1
      else match ch with
           | Some ch => fold_left (fun sum child => (sum + getChildPromptCount child)%nat) ch 0%nat
           | None => 0%nat
           end
  end.

(** [s.replace(/\s+/g, '-')] ([\s] on the ASCII range, as for [trim]):
    every maximal run of white space becomes one ['-']; [in_run] says the
    previous character was white space. *)
Fixpoint replace_spaces (in_run : bool) (s : string) : string :=
  match s with
  | EmptyString => EmptyString
  | String c r =>
      if JS.is_ws c then
        if in_run then replace_spaces true r else String "-" (replace_spaces true r)
      else String c (replace_spaces false r)
  end.

Definition categoryTag (label : string) : string :=
  replace_spaces false (JS.toLowerCase label).

(** The [contextualPrompt] of [extractAllUserPrompts]: [{...child, tags}]. *)
Definition contextualPrompt (category child : PromptEntry) : PromptEntry :=
  mkEntry (e_id child) (e_label child) (e_type child) (e_categoryType child)
    (e_prompt child) (Some (opt_list (e_tags child) ++ [categoryTag (e_label category)]))
    (e_children child) (e_parentId child) (e_categoryId child) (e_evaluation child).

(** [PromptLibrary.extractAllUserPrompts]: one iteration of the outer loop
    is [extractAllUserPrompts_entry]; the recursive call on [[child]] runs
    the outer loop once, on [child]. *)
Fixpoint extractAllUserPrompts_entry (category : PromptEntry) : list PromptEntry :=
  match category with
  | mkEntry _ _ _ _ _ _ ch _ _ _ =>
      match ch with
      | Some ch =>
          flat_map (fun child =>
                      if isType TPrompt child then [contextualPrompt category child]
                      else match e_children child with
                           | Some _ => extractAllUserPrompts_entry child
                           | None => []
                           end) ch
      | None => []
      end
  end.

Definition extractAllUserPrompts (categories : list PromptEntry) : list PromptEntry :=
  flat_map extractAllUserPrompts_entry categories.

(** A category as [convertEntriesToCategories] rebuilds it from the tree:
    everything but the evaluations of its prompts. *)
Definition dropEvaluations (c : PromptCategory) : PromptCategory :=
  {| c_id := c_id c; c_label := c_label c; c_type := c_type c;
     c_groups := map normGroup (c_groups c) |}.

(** The total shown in the ["System Prompts (n)"] label of [getRootEntries]. *)
Definition totalPromptCount (cats : list PromptEntry) : nat :=
  fold_left (fun sum cat => (sum + getChildPromptCount cat)%nat) cats 0%nat.

(* ------------------------------------------------------------------ *)
(** ** [PromptEvaluationService] (prompt-evaluation-service.ts) *)

Inductive ScoreTier := Excellent | Good | Average | Poor.

(** [getScoreTier] *)
Definition getScoreTier (score : Z) : ScoreTier :=
  if (85 <=? score)%Z then Excellent
  else if (70 <=? score)%Z then Good
  else if (50 <=? score)%Z then Average
  else Poor.

(** The order of the tiers, worst first. *)
Definition tierRank (t : ScoreTier) : nat :=
  match t with Poor => 0 | Average => 1 | Good => 2 | Excellent => 3 end.

(** Pieces of the prefix regular expression of [processSuggestions], on
    the rest of the input: a lower-case literal matched case-insensitively,
    and [\s+] (greedy). *)
Definition lit (p : string) (s : string) : option string :=
  if Regex.imatch p s then Some (Regex.drop (String.length p) s) else None.

Definition ws1 (s : string) : option string :=
  match s with
  | String c r => if JS.is_ws c then Some (JS.trimStart r) else None
  | EmptyString => None
  end.

Definition obind {A B : Type} (o : option A) (f : A -> option B) : option B :=
  match o with Some a => f a | None => None end.

(** Alternation: the first alternative that matches. *)
Fixpoint first_of (fs : list (string -> option string)) (s : string) : option string :=
  match fs with
  | [] => None
  | f :: r => match f s with Some t => Some t | None => first_of r s end
  end.

(** [(?:you\s+(?:should|could|might)|i\s+(?:recommend|suggest)|consider|try\s+to)\s+],
    each alternative followed by the final [\s+]. The alternatives (and
    the inner ones) begin with different letters, so no backtracking
    other than trying them in turn can find a match. *)
Definition prefixAlternatives : list (string -> option string) :=
  map (fun alt s => obind (alt s) ws1)
    [fun s => obind (lit "you" s)
                (fun t => obind (ws1 t) (first_of [lit "should"; lit "could"; lit "might"]));
     fun s => obind (lit "i" s)
                (fun t => obind (ws1 t) (first_of [lit "recommend"; lit "suggest"]));
     lit "consider";
     fun s => obind (lit "try" s) (fun t => obind (ws1 t) (lit "to"))].

(** [suggestion.replace(/^\s*(?:...)\s+/i, '')] *)
Definition stripSuggestionPrefix (s : string) : string :=
  match first_of prefixAlternatives (JS.trimStart s) with
  | Some rest => rest
  | None => s
  end.

(** [c.toUpperCase()] on the ASCII range. *)
Definition upper_char (c : ascii) : ascii :=
  let n := nat_of_ascii c in
  if ((97 <=? n) && (n <=? 122))%nat then ascii_of_nat (n - 32) else c.

(** [processed.charAt(0).toUpperCase() + processed.slice(1)] *)
Definition capitalizeFirst (s : string) : string :=
  match s with
  | String c r => String (upper_char c) r
  | EmptyString => EmptyString
  end.

(** [s.endsWith(p)] for a one-character [p]. *)
Fixpoint endsWithChar (s : string) (c : ascii) : bool :=
  match s with
  | EmptyString => false
  | String d EmptyString => Ascii.eqb d c
  | String _ r => endsWithChar r c
  end.

(** [s.lastIndexOf(' ')], [None] for [-1]; [i] is the index of [s] in the
    whole string. *)
Fixpoint lastSpaceIndex (s : string) (i : nat) : option nat :=
  match s with
  | EmptyString => None
  | String c r =>
      match lastSpaceIndex r (S i) with
      | Some j => Some j
      | None => if Ascii.eqb c " " then Some i else None
      end
  end.

(** The callback of [limitedSuggestions.map] in [processSuggestions]. *)
Definition processSuggestion (suggestion : string) : string :=
  let processed := capitalizeFirst (stripSuggestionPrefix suggestion) in
  let processed :=
    if negb (endsWithChar processed ".") && negb (endsWithChar processed "!")
       && negb (endsWithChar processed "?")
    then (processed ++ ".")%string else processed in
  if (80 <? String.length processed)%nat then
    let truncated := substring 0 77 processed in
    match lastSpaceIndex truncated 0 with
    | Some lastSpaceIndex =>
        if (60 <? lastSpaceIndex)%nat
        then (substring 0 lastSpaceIndex truncated ++ "...")%string
        else (truncated ++ "...")%string
    | None => (truncated ++ "...")%string
    end
  else processed.

(** The first character of [s], if any, is not a lower-case letter. *)
Definition first_capital (s : string) : Prop :=
  forall c, String.get 0 s = Some c -> upper_char c = c.

(** [PromptEvaluationService.processSuggestions] *)
Definition processSuggestions (suggestions : list string) : list string :=
  map processSuggestion (firstn 2 suggestions).

(* ------------------------------------------------------------------ *)
(** ** The root view, export, and the context helpers *)

(** The view filters of [PromptLibrary] ([showFavoritesOnly],
    [showRecentOnly]). *)
Record ViewState := { showFavoritesOnly : bool; showRecentOnly : bool }.

(** [setShowFavoritesOnly] (the analytics call is left out). *)
Definition setShowFavoritesOnly (vw : ViewState) (show : bool) : ViewState :=
  if show then {| showFavoritesOnly := true; showRecentOnly := false |}
  else {| showFavoritesOnly := false; showRecentOnly := showRecentOnly vw |}.

(** [setShowRecentOnly] (the analytics call is left out). *)
Definition setShowRecentOnly (vw : ViewState) (show : bool) : ViewState :=
  if show then {| showFavoritesOnly := false; showRecentOnly := true |}
  else {| showFavoritesOnly := showFavoritesOnly vw; showRecentOnly := false |}.

(** [private showFavoritesOnly: boolean = false; private showRecentOnly: boolean = false;] *)
Definition initialView : ViewState :=
  {| showFavoritesOnly := false; showRecentOnly := false |}.

Inductive ViewCommand := SetFavoritesOnly (b : bool) | SetRecentOnly (b : bool).

Definition runViewCommand (vw : ViewState) (c : ViewCommand) : ViewState :=
  match c with
  | SetFavoritesOnly b => setShowFavoritesOnly vw b
  | SetRecentOnly b => setShowRecentOnly vw b
  end.

(** [interface PromptData] *)
Record PromptData := {
  pd_id : string; pd_label : string; pd_prompt : string; pd_tags : list string;
  pd_categoryId : option string }.

(** [extractAllPromptData]: one call of the inner [traverse] on a single
    item is [promptData_item]. *)
Fixpoint promptData_item (item : PromptEntry) : list PromptData :=
  match item with
  | mkEntry id label ty _ pr tags ch _ cid _ =>
      (if PromptNodeType_eqb ty TPrompt && truthy pr
       then [{| pd_id := id; pd_label := label;
                pd_prompt := match pr with Some p => p | None => EmptyString end;
                pd_tags := opt_list tags; pd_categoryId := cid |}]
       else [])
      ++ match ch with Some ch => flat_map promptData_item ch | None => [] end
  end.

Definition extractAllPromptData (entries : list PromptEntry) : list PromptData :=
  flat_map promptData_item entries.

(** The object pushed for one prompt entry. *)
Definition toPromptData (e : PromptEntry) : PromptData :=
  {| pd_id := e_id e; pd_label := e_label e;
     pd_prompt := match e_prompt e with Some p => p | None => EmptyString end;
     pd_tags := opt_list (e_tags e); pd_categoryId := e_categoryId e |}.

(** [findParentCategory]: one iteration of the inner [traverse] loop.
    [Some r] is a [return r] ([r] may be [null]); [None] lets the loop go
    on. A nested call's [null] result does not stop the outer loop. *)
Fixpoint findParentCategory_item (itemId : string) (parent : option PromptEntry)
    (item : PromptEntry) : option (option PromptEntry) :=
  match item with
  | mkEntry id _ ty _ _ _ ch _ _ _ =>
      if String.eqb id itemId then Some parent
      else match ch with
           | Some ch =>
               let parent' := if PromptNodeType_eqb ty TCategory then Some item else parent in
               match first_some (findParentCategory_item itemId parent') ch with
               | Some (Some result) => Some (Some result)
               | _ => None
               end
           | None => None
           end
  end.

Definition findParentCategory (entries : list PromptEntry) (itemId : string)
    : option PromptEntry :=
  match first_some (findParentCategory_item itemId None) entries with
  | Some r => r
  | None => None
  end.

(** A category with one prompt. *)
Definition exampleCodeCategory : PromptEntry :=
  mkEntry "c" "Code" TCategory (Some CSystem) None None
    (Some [mkEntry "p1" "Review" TPrompt (Some CSystem) (Some "Review this.") None None None None None])
    None None None.

(** The filter of [exportPrompts]: the prompt data of the root entries
    whose [findParentCategory] has [categoryType === 'system']. *)
Definition exportedSystemPrompts (rootEntries : list PromptEntry) : list PromptData :=
  filter (fun p => match findParentCategory rootEntries (pd_id p) with
                   | Some parentEntry => hasCategoryType CSystem parentEntry
                   | None => false
                   end)
    (extractAllPromptData rootEntries).

(** [Array.prototype.sort] with a comparator: a stable sort; for a
    consistent comparator its result is that of this stable insertion
    sort. *)
Fixpoint insertBy {A : Type} (cmp : A -> A -> Z) (x : A) (l : list A) : list A :=
  match l with
  | [] => [x]
  | y :: ys => if (cmp x y <? 0)%Z then x :: y :: ys else y :: insertBy cmp x ys
  end.

Definition sortBy {A : Type} (cmp : A -> A -> Z) (l : list A) : list A :=
  fold_left (fun acc x => insertBy cmp x acc) l [].

(** The entry shown when there are no user prompts. *)
Definition emptyUserSection : PromptEntry :=
  mkEntry "user-section" "Your Prompts (Empty)" TCategory (Some CUser) None None
    (Some [mkEntry "no-user-prompts" "Click to create your first prompt" TPrompt
             (Some CUser) (Some "") (Some ["getting-started"]) None None None None])
    None None None.

Section RootEntries.
(** [String.prototype.localeCompare]: its result depends on the locale. *)
Variable localeCompare : string -> string -> Z.

Definition favoritesSection (st : Library) : PromptEntry :=
  let favoritePrompts := getFavoritePrompts st in
  mkEntry "favorites"
    (if (0 <? length favoritePrompts)%nat
     then ("Favorites (" ++ JS.numberToString (JS.ofZ (Z.of_nat (length favoritePrompts))) ++ ")")%string
     else "Favorites (Empty)")
    TCategory (Some CSystem) None None (Some favoritePrompts) None None None.

Definition recentSection (st : Library) : PromptEntry :=
  let recentPrompts := getRecentPrompts st in
  mkEntry "recent"
    (if (0 <? length recentPrompts)%nat
     then ("Recent (" ++ JS.numberToString (JS.ofZ (Z.of_nat (length recentPrompts))) ++ ")")%string
     else "Recent (Empty)")
    TCategory (Some CSystem) None None (Some recentPrompts) None None None.

Definition systemCategoryOrder (a b : PromptEntry) : Z :=
  if hasCategoryType CSystem a && hasCategoryType CUser b then (-1)%Z
  else if hasCategoryType CUser a && hasCategoryType CSystem b then 1%Z
  else localeCompare (e_label a) (e_label b).

(** [PromptLibrary.getRootEntries] *)
Definition getRootEntries (st : Library) (vw : ViewState) : list PromptEntry :=
  (if (0 <? length (favorites (userPreferences st)))%nat || showFavoritesOnly vw
   then [favoritesSection st] else [])
  ++ (if (0 <? length (recentPrompts (userPreferences st)))%nat || showRecentOnly vw
      then [recentSection st] else [])
  ++ (if negb (showFavoritesOnly vw) && negb (showRecentOnly vw) then
        let systemCategories := filter (hasCategoryType CSystem) (prompts st) in
        let userCategories := filter (hasCategoryType CUser) (prompts st) in
        (if (0 <? length systemCategories)%nat then
           [mkEntry "system-section"
              ("System Prompts (" ++ JS.numberToString (JS.ofZ (Z.of_nat (totalPromptCount systemCategories)))
               ++ ")")%string
              TCategory (Some CSystem) None None
              (Some (sortBy systemCategoryOrder systemCategories)) None None None]
         else [])
        ++ (if (0 <? length userCategories)%nat then
              let flattenedUserPrompts := extractAllUserPrompts userCategories in
              if (0 <? length flattenedUserPrompts)%nat then
                [mkEntry "user-section"
                   ("Your Prompts (" ++ JS.numberToString (JS.ofZ (Z.of_nat (length flattenedUserPrompts)))
                    ++ ")")%string
                   TCategory (Some CUser) None None
                   (Some (sortBy (fun a b => localeCompare (e_label a) (e_label b))
                            flattenedUserPrompts)) None None None]
              else [emptyUserSection]
            else [emptyUserSection])
      else []).
End RootEntries.




(** A library whose user file holds one prompt, marked as a favorite. *)
Definition exampleUserPromptData : Prompt :=
  {| p_id := "u1"; p_label := "My checklist"; p_prompt := Some "Check the release notes";
     p_tags := []; p_evaluation := None |}.

Definition exampleUserCategory : PromptCategory :=
  {| c_id := "mine"; c_label := "Mine"; c_type := CUser;
     c_groups := [{| g_id := "g2"; g_label := "Notes"; g_prompts := [exampleUserPromptData] |}] |}.

Definition exampleFavoriteLibrary : Library :=
  initLibrary (Parsed [exampleSystemCategory]) (Parsed [exampleUserCategory])
    {| favorites := ["u1"]; recentPrompts := []; searchHistory := [] |}.

(** A library whose user file holds a prompt with the id [2^53]. *)
Definition bigIdCategory : PromptCategory :=
  {| c_id := "big"; c_label := "Big"; c_type := CUser;
     c_groups := [{| g_id := "g9"; g_label := "Large ids";
                     g_prompts := [{| p_id := "9007199254740992"; p_label := "Large";
                                      p_prompt := Some "Large id"; p_tags := [];
                                      p_evaluation := None |}] |}] |}.

Definition bigIdLibrary : Library :=
  initLibrary (Parsed [exampleSystemCategory]) (Parsed [bigIdCategory]) examplePrefs.

Definition exampleUserPrompt : PromptEntry := createPromptEntry exampleUserPromptData.

(** The third root entry of [exampleFavoriteLibrary] with no filter on. *)
Definition exampleUserSection : PromptEntry :=
  nth 2 (getRootEntries (fun _ _ => 0%Z) exampleFavoriteLibrary initialView) emptyUserSection.

(* ================================================================== *)
(** * Proofs *)

(** ** Induction over the tree and the depth-first order *)

Lemma flatten_entry_eq (e : PromptEntry) :
  flatten_entry e = e :: flatten (opt_list (e_children e)).
Proof. destruct e as [? ? ? ? ? ? [ch|] ? ? ?]; reflexivity. Qed.

Lemma flatten_cons (e : PromptEntry) (r : list PromptEntry) :
  flatten (e :: r) = e :: flatten (opt_list (e_children e)) ++ flatten r.
Proof. unfold flatten at 1; simpl. rewrite flatten_entry_eq. reflexivity. Qed.

Lemma flatten_app (l1 l2 : list PromptEntry) :
  flatten (l1 ++ l2) = flatten l1 ++ flatten l2.
Proof. unfold flatten. apply flat_map_app. Qed.

Lemma find_app {A : Type} (f : A -> bool) (l1 l2 : list A) :
  find f (l1 ++ l2) = match find f l1 with Some x => Some x | None => find f l2 end.
Proof. induction l1 as [|x r IH]; simpl; [reflexivity|]. destruct (f x); auto. Qed.

Lemma first_some_flat_map {A B : Type} (f : A -> option B) (g : A -> list B)
    (P : B -> bool) (l : list A) :
  Forall (fun x => f x = find P (g x)) l ->
  first_some f l = find P (flat_map g l).
Proof.
  induction 1 as [|x r Hx _ IH]; simpl; [reflexivity|].
  rewrite find_app, <- Hx, IH. reflexivity.
Qed.

Lemma findById_entry_find (id : string) (e : PromptEntry) :
  findById_entry id e = find (has_id id) (flatten_entry e).
Proof.
  induction e as [e IH] using entry_rect'.
  destruct e as [eid ? ? ? ? ? [ch|] ? ? ?]; simpl in *; unfold has_id; simpl;
    destruct (String.eqb eid id); try reflexivity.
  apply first_some_flat_map. exact IH.
Qed.

(** [findById] returns the first node, in depth-first pre-order, with the
    given id. *)
Lemma findById_find (es : list PromptEntry) (id : string) :
  findById es id = find (has_id id) (flatten es).
Proof.
  unfold findById, flatten. apply first_some_flat_map.
  apply Forall_forall. intros x _. apply findById_entry_find.
Qed.

Lemma find_some_in {A : Type} (f : A -> bool) (l : list A) (x : A) :
  find f l = Some x -> In x l /\ f x = true.
Proof. apply find_some. Qed.

Lemma find_none_in {A : Type} (f : A -> bool) (l : list A) (x : A) :
  find f l = None -> In x l -> f x = false.
Proof. intros H Hin. exact (find_none f l H x Hin). Qed.

Lemma find_in_some {A : Type} (f : A -> bool) (l : list A) (x : A) :
  In x l -> f x = true -> exists y, find f l = Some y.
Proof.
  intros Hin Hf. destruct (find f l) eqn:E; [eauto|].
  rewrite (find_none_in f l x E Hin) in Hf. discriminate.
Qed.

(** ** The shape of a tree read from the JSON files *)

Lemma flatten_convertPrompts (cat : PromptCategory) (g : PromptGroup) (ps : list Prompt) :
  flatten (map (convertPrompt cat g) ps) = map (convertPrompt cat g) ps.
Proof.
  induction ps as [|p ps IH]; [reflexivity|].
  simpl map. rewrite flatten_cons, IH. reflexivity.
Qed.

Lemma flatten_convertGroups (cat : PromptCategory) (gs : list PromptGroup) :
  flatten (map (convertGroup cat) gs) = flat_map (groupNodes cat) gs.
Proof.
  induction gs as [|g gs IH]; [reflexivity|].
  simpl map. rewrite flatten_cons, IH. simpl.
  rewrite flatten_convertPrompts. reflexivity.
Qed.

Lemma flatten_convert (cats : list PromptCategory) :
  flatten (convertJsonToEntries cats) = flat_map categoryNodes cats.
Proof.
  induction cats as [|c cats IH]; [reflexivity|].
  unfold convertJsonToEntries in *. simpl map. rewrite flatten_cons, IH. simpl.
  rewrite flatten_convertGroups. reflexivity.
Qed.

Lemma loadPrompts_loaded (st : Library) : loaded (loadPrompts st).
Proof.
  unfold loadPrompts. destruct (loadUserCategories (userFile st)) as [uf usr].
  exists usr. simpl. auto.
Qed.

Lemma updatePrompt_cases (st : Library) (id : string) (u : PromptEntryPatch)
    (ev : EvalOutcome) (ts : string) :
  fst (updatePrompt st id u ev ts) = st \/
  exists st', fst (updatePrompt st id u ev ts) = loadPrompts st'.
Proof.
  unfold updatePrompt. destruct (findById (prompts st) id); simpl; eauto.
Qed.

Lemma addPrompt_reloads (st : Library) label body tags parentId ev ts :
  exists st', add_state (addPrompt st label body tags parentId ev ts) = loadPrompts st'.
Proof.
  unfold addPrompt.
  destruct (attachPrompt _ _ _ _) as [[es nid] stored]. eexists; reflexivity.
Qed.

Lemma reachable_loaded (st : Library) : reachable st -> loaded st.
Proof.
  induction 1.
  - apply loadPrompts_loaded.
  - destruct (addPrompt_reloads st label body tags parentId ev ts) as [st' ->].
    apply loadPrompts_loaded.
  - destruct (updatePrompt_cases st id u ev ts) as [E|[st' E]]; rewrite E;
      [assumption | apply loadPrompts_loaded].
  - apply loadPrompts_loaded.
  - exact IHreachable.
  - exact IHreachable.
Qed.

Lemma in_categoryNodes_kind (cat : PromptCategory) (x : PromptEntry) :
  In x (categoryNodes cat) -> e_categoryType x = Some (c_type cat).
Proof.
  unfold categoryNodes, groupNodes. simpl. intros [<-|H]; [reflexivity|].
  apply in_flat_map in H as [g [_ [<-|H]]]; [reflexivity|].
  apply in_map_iff in H as [p [<- _]]. reflexivity.
Qed.

Lemma convert_kinds_follow_categories (cats : list PromptCategory) :
  prompt_kinds_follow_categories (convertJsonToEntries cats).
Proof.
  split.
  - apply Forall_forall. intros c Hc. apply in_map_iff in Hc as [cat [<- _]].
    split; [reflexivity | eexists; reflexivity].
  - intros c Hc _ p Hp _. apply in_map_iff in Hc as [cat [<- _]].
    simpl in Hp. rewrite flatten_convertGroups in Hp.
    apply in_categoryNodes_kind. right. exact Hp.
Qed.

(** C1: after loading and after any sequence of [addPrompt],
    [updatePrompt] and [deletePrompt] (and preference changes), every
    prompt node below a category carries that category's kind, so no
    prompt under a ['system'] category is marked ['user'] and vice versa. *)
Theorem prompt_kind_invariant (st : Library) :
  reachable st -> prompt_kinds_follow_categories (prompts st).
Proof.
  intros Hr. destruct (reachable_loaded st Hr) as [usr [Hp _]].
  rewrite Hp. apply convert_kinds_follow_categories.
Qed.

(** ** Favorites and recent prompts *)

Lemma find_map {A B : Type} (f : B -> bool) (h : A -> B) (l : list A) :
  find f (map h l) = option_map h (find (fun x => f (h x)) l).
Proof. induction l as [|x r IH]; simpl; [reflexivity|]. destruct (f (h x)); auto. Qed.

Lemma find_flat_map {A B : Type} (f : B -> bool) (h : A -> list B) (l : list A) :
  find f (flat_map h l) =
  first_some (fun x => find f (h x)) l.
Proof.
  induction l as [|x r IH]; simpl; [reflexivity|]. rewrite find_app, IH. reflexivity.
Qed.

Lemma prompt_nodes_pairs (cats : list PromptCategory) :
  filter (isType TPrompt) (flatten (convertJsonToEntries cats)) = map fst (promptPairs cats).
Proof.
  rewrite flatten_convert. unfold promptPairs.
  induction cats as [|cat cats IH]; [reflexivity|].
  simpl. rewrite filter_app, map_app, IH. f_equal.
  induction (c_groups cat) as [|g gs IHg]; [reflexivity|].
  simpl. rewrite filter_app, map_app, IHg. f_equal.
  unfold groupNodes. simpl. rewrite map_map.
  induction (g_prompts g) as [|q qs IHq]; [reflexivity|]. simpl. f_equal. exact IHq.
Qed.

Lemma extractAllPrompts_pairs (cats : list PromptCategory) :
  extractAllPrompts cats = map snd (promptPairs cats).
Proof.
  unfold extractAllPrompts, promptPairs.
  induction cats as [|cat cats IH]; [reflexivity|].
  simpl. rewrite map_app, IH. f_equal.
  induction (c_groups cat) as [|g gs IHg]; [reflexivity|].
  simpl. rewrite map_app, IHg. f_equal. rewrite map_map. symmetry. apply map_id.
Qed.

Lemma find_pairs {A B C : Type} (P : A -> bool) (Q : B -> bool) (D : A -> C) (E : B -> C)
    (l : list (A * B)) :
  Forall (fun x => P (fst x) = Q (snd x) /\ D (fst x) = E (snd x)) l ->
  option_map D (find P (map fst l)) = option_map E (find Q (map snd l)).
Proof.
  induction 1 as [|x r [H1 H2] _ IH]; simpl; [reflexivity|].
  rewrite H1. destruct (Q (snd x)); simpl; [congruence | exact IH].
Qed.

Lemma find_filter_weaken {A : Type} (P R : A -> bool) (l : list A) :
  (forall x, P x = true -> R x = true) -> find P (filter R l) = find P l.
Proof.
  intros H. induction l as [|x r IH]; simpl; [reflexivity|].
  destruct (R x) eqn:ER; simpl.
  - destruct (P x); [reflexivity | exact IH].
  - destruct (P x) eqn:EP; [rewrite (H x EP) in ER; discriminate | exact IH].
Qed.

Lemma resolve_prompt_in_tree (cats : list PromptCategory) (id : string) :
  option_map displayEntry
    (find (is_prompt_with_id id) (flatten (convertJsonToEntries cats))) =
  option_map createPromptEntry
    (find (fun p => String.eqb (p_id p) id) (extractAllPrompts cats)).
Proof.
  rewrite <- (find_filter_weaken _ (isType TPrompt)).
  2:{ intros x Hx. unfold is_prompt_with_id in Hx. apply andb_prop in Hx. tauto. }
  rewrite prompt_nodes_pairs, extractAllPrompts_pairs.
  apply find_pairs. unfold promptPairs.
  apply Forall_forall. intros x Hx.
  apply in_flat_map in Hx as [cat [_ Hx]]. apply in_flat_map in Hx as [g [_ Hx]].
  apply in_map_iff in Hx as [p [<- _]]. split; reflexivity.
Qed.

Lemma resolveStoredIds_tree (cats : list PromptCategory) (ids : list string) :
  resolveStoredIds ids (extractAllPrompts cats) =
  resolveInTree ids (convertJsonToEntries cats).
Proof.
  unfold resolveStoredIds, resolveInTree.
  induction ids as [|id ids IH]; [reflexivity|]. simpl.
  pose proof (resolve_prompt_in_tree cats id) as E.
  destruct (find (is_prompt_with_id id) (flatten (convertJsonToEntries cats))),
    (find (fun q : Prompt => String.eqb (p_id q) id) (extractAllPrompts cats));
    cbn [option_map keep_some map app] in *; try discriminate.
  - assert (E' : displayEntry p = createPromptEntry p0) by congruence.
    rewrite E'. f_equal. exact IH.
  - exact IH.
Qed.

(** C10: [getFavoritePrompts] and [getRecentPrompts] return, for the stored
    ids in their stored order, the entry of the first prompt of the tree
    with that id, and skip the ids no prompt of the tree has. *)
Theorem favorites_recent_skip_stale (st : Library) :
  reachable st ->
  getFavoritePrompts st = resolveInTree (favorites (userPreferences st)) (prompts st) /\
  getRecentPrompts st = resolveInTree (recentPrompts (userPreferences st)) (prompts st).
Proof.
  intros Hr. destruct (reachable_loaded st Hr) as [usr [Hp [Ha _]]].
  unfold getFavoritePrompts, getRecentPrompts. rewrite Ha, Hp.
  split; apply resolveStoredIds_tree.
Qed.

(** ** [updatePrompt] on an unknown id *)

(** C5: when no node of the tree has the id, [updatePrompt] returns the
    library unchanged, writes no file and shows nothing. *)
Theorem updatePrompt_unknown_id_noop (st : Library) (id : string)
    (updates : PromptEntryPatch) (ev : EvalOutcome) (ts : string) :
  (forall e, In e (flatten (prompts st)) -> e_id e <> id) ->
  updatePrompt st id updates ev ts = (st, []).
Proof.
  intros Hno. unfold updatePrompt.
  replace (findById (prompts st) id) with (@None PromptEntry); [reflexivity|].
  rewrite findById_find. symmetry.
  destruct (find (has_id id) (flatten (prompts st))) as [e|] eqn:E; [|reflexivity].
  apply find_some_in in E as [Hin Hid]. unfold has_id in Hid.
  apply String.eqb_eq in Hid. exfalso. exact (Hno e Hin Hid).
Qed.

(** ** The evaluator's failures in [addPrompt] *)

(** C4 (as the code has it): whatever the evaluator does, [addPrompt]
    resolves to the new id, and a fallback evaluation is attached to the
    new prompt object [newPrompt] before the user file is saved: when the
    evaluator throws, the fixed score 60 with the single suggestion
    'Error evaluating prompt. Please try again later.'; when it returns
    [undefined], the fixed score 65 with the two suggestions 'Make the
    prompt more specific.' and 'Add more context to improve results.'. *)
Theorem addPrompt_evaluator_failure_fallbacks (st : Library) (label body : string)
    (tags : list string) (parentId : option string) (ts : string) :
  (forall ev, add_returned (addPrompt st label body tags parentId ev ts)
              = Some (JS.numberToString (nextId st))) /\
  e_evaluation (add_stored (addPrompt st label body tags parentId EvalThrows ts))
    = Some (addErrorEvaluation ts) /\
  overallScore (addErrorEvaluation ts) = 60%Z /\
  suggestions (addErrorEvaluation ts) = ["Error evaluating prompt. Please try again later."] /\
  e_evaluation (add_stored (addPrompt st label body tags parentId EvalUndefined ts))
    = Some (addFallbackEvaluation ts) /\
  overallScore (addFallbackEvaluation ts) = 65%Z /\
  suggestions (addFallbackEvaluation ts) =
    ["Make the prompt more specific."; "Add more context to improve results."].
Proof.
  assert (Hst : forall ev, e_evaluation (add_stored (addPrompt st label body tags parentId ev ts))
                           = Some (addEvaluation ev ts)).
  { intros ev. unfold addPrompt.
    destruct (attachPrompt (prompts st) (JS.succ (nextId st)) parentId _) as [[es nid] stored] eqn:E.
    simpl. unfold attachPrompt in E.
    destruct parentId as [pid|]; [|injection E as _ _ <-; reflexivity].
    destruct (truthy (Some pid)); [|injection E as _ _ <-; reflexivity].
    destruct (findById (prompts st) pid) as [parent|]; [|injection E as _ _ <-; reflexivity].
    destruct (e_type parent); [destruct (modify_first_list _ _)| |];
      injection E as _ _ <-; reflexivity. }
  repeat split; try apply Hst; try reflexivity.
  intros ev. unfold addPrompt.
  destruct (attachPrompt _ _ _ _) as [[es nid] stored]. reflexivity.
Qed.

(** ** [deletePrompt] *)

Lemma keep_some_map_groups (id : string) (cat : PromptCategory) (gs : list PromptGroup) :
  keep_some (removeById_entry id) (map (convertGroup cat) gs) =
  map (convertGroup cat) (map (removeInGroup id) (filter (fun g => negb (String.eqb (g_id g) id)) gs)).
Proof.
  induction gs as [|g gs IH]; [reflexivity|]. simpl.
  destruct (String.eqb (g_id g) id); simpl; [exact IH|].
  rewrite IH. f_equal. unfold set_children, convertGroup, removeInGroup. simpl. f_equal. f_equal.
  induction (g_prompts g) as [|p ps IHp]; [reflexivity|]. simpl.
  destruct (String.eqb (p_id p) id); simpl; [exact IHp|]. rewrite IHp. reflexivity.
Qed.

Lemma removeById_convert (cats : list PromptCategory) (id : string) :
  removeById (convertJsonToEntries cats) id = convertJsonToEntries (removeInCategories id cats).
Proof.
  unfold removeById, removeInCategories, convertJsonToEntries.
  induction cats as [|cat cats IH]; [reflexivity|]. simpl.
  destruct (String.eqb (c_id cat) id); simpl; [exact IH|].
  rewrite IH. f_equal. unfold set_children. simpl.
  rewrite keep_some_map_groups. reflexivity.
Qed.

Lemma filter_map_comm {A B : Type} (f : B -> bool) (g : A -> B) (l : list A) :
  filter f (map g l) = map g (filter (fun x => f (g x)) l).
Proof.
  induction l as [|x r IH]; simpl; [reflexivity|]. destruct (f (g x)); simpl; congruence.
Qed.

Lemma filter_all {A : Type} (f : A -> bool) (l : list A) :
  (forall x, In x l -> f x = true) -> filter f l = l.
Proof.
  induction l as [|x r IH]; simpl; intros H; [reflexivity|].
  rewrite (H x (or_introl eq_refl)), IH; auto.
Qed.

Lemma saveUserCategories_convert (cats : list PromptCategory) :
  saveUserCategories (convertJsonToEntries cats) = map normCategory (filter isUserCategory cats).
Proof.
  unfold saveUserCategories, convertJsonToEntries.
  rewrite filter_map_comm, map_map.
  replace (filter (fun x => hasCategoryType CUser (convertCategory x)) cats)
    with (filter isUserCategory cats) by reflexivity.
  apply map_ext. intros c. unfold normCategory. simpl. f_equal.
  rewrite filter_all.
  2:{ intros x Hx. apply in_map_iff in Hx as [g [<- _]]. reflexivity. }
  rewrite map_map. apply map_ext. intros g. unfold entryToGroup, normGroup. simpl. f_equal.
  rewrite filter_all.
  2:{ intros x Hx. apply in_map_iff in Hx as [q [<- _]]. reflexivity. }
  rewrite map_map. reflexivity.
Qed.

Lemma convert_norm_user (cats : list PromptCategory) :
  convertJsonToEntries (map normCategory (filter isUserCategory cats)) =
  convertJsonToEntries (filter isUserCategory cats).
Proof.
  unfold convertJsonToEntries. rewrite map_map. apply map_ext_in. intros c Hc.
  apply filter_In in Hc as [_ Hu]. unfold isUserCategory in Hu.
  destruct c as [cid clab [|] gs]; [discriminate|]. unfold convertCategory, normCategory. simpl.
  f_equal. f_equal. rewrite map_map. apply map_ext. intros g.
  unfold convertGroup, normGroup. simpl. f_equal. f_equal. rewrite map_map. reflexivity.
Qed.

(** After [deletePrompt] the tree is the system part read again followed by
    the user categories with every node of the id removed. *)
Lemma deletePrompt_tree (st : Library) (usr : list PromptCategory) (id : string) :
  prompts st = convertJsonToEntries (loadSystemCategories (systemFile st) ++ usr) ->
  prompts (fst (deletePrompt st id)) =
  convertJsonToEntries (loadSystemCategories (systemFile st) ++
    filter isUserCategory (removeInCategories id (loadSystemCategories (systemFile st) ++ usr))).
Proof.
  intros Hp. unfold deletePrompt, loadPrompts. simpl.
  rewrite Hp, removeById_convert, saveUserCategories_convert.
  unfold convertJsonToEntries at 1 2. rewrite !map_app. f_equal.
  apply convert_norm_user.
Qed.

Lemma convert_app (a b : list PromptCategory) :
  convertJsonToEntries (a ++ b) = convertJsonToEntries a ++ convertJsonToEntries b.
Proof. apply map_app. Qed.

Lemma outside_nil (id : string) (y : PromptEntry) : ~ outside id [] y.
Proof. intros H. inversion H; contradiction. Qed.

Lemma outside_prompts (id : string) (cat : PromptCategory) (g : PromptGroup)
    (ps : list Prompt) (y : PromptEntry) :
  outside id (map (convertPrompt cat g) ps) y ->
  exists p, In p ps /\ p_id p <> id /\ y = convertPrompt cat g p.
Proof.
  intros H. inversion H as [es y' Hin Hid | es x y' Hin Hid Hout]; subst.
  - apply in_map_iff in Hin as [p [<- Hp]]. exists p. auto.
  - apply in_map_iff in Hin as [p [<- _]]. simpl in Hout. exfalso. exact (outside_nil _ _ Hout).
Qed.

Lemma outside_groups (id : string) (cat : PromptCategory) (gs : list PromptGroup)
    (y : PromptEntry) :
  outside id (map (convertGroup cat) gs) y ->
  exists g, In g gs /\ g_id g <> id /\
    (y = convertGroup cat g \/
     exists p, In p (g_prompts g) /\ p_id p <> id /\ y = convertPrompt cat g p).
Proof.
  intros H. inversion H as [es y' Hin Hid | es x y' Hin Hid Hout]; subst.
  - apply in_map_iff in Hin as [g [<- Hg]]. exists g. auto.
  - apply in_map_iff in Hin as [g [<- Hg]]. simpl in Hout.
    apply outside_prompts in Hout. exists g. auto.
Qed.

Lemma outside_convert (id : string) (cats : list PromptCategory) (y : PromptEntry) :
  outside id (convertJsonToEntries cats) y ->
  exists cat, In cat cats /\ c_id cat <> id /\
    (y = convertCategory cat \/
     exists g, In g (c_groups cat) /\ g_id g <> id /\
       (y = convertGroup cat g \/
        exists p, In p (g_prompts g) /\ p_id p <> id /\ y = convertPrompt cat g p)).
Proof.
  intros H. inversion H as [es y' Hin Hid | es x y' Hin Hid Hout]; subst.
  - apply in_map_iff in Hin as [cat [<- Hc]]. exists cat. auto.
  - apply in_map_iff in Hin as [cat [<- Hc]]. simpl in Hout.
    apply outside_groups in Hout. exists cat. auto.
Qed.

Lemma removed_ids_absent (id : string) (cats : list PromptCategory) (y : PromptEntry) :
  In y (flatten (convertJsonToEntries (removeInCategories id cats))) -> e_id y <> id.
Proof.
  rewrite flatten_convert. intros Hy. apply in_flat_map in Hy as [c [Hc Hy]].
  unfold removeInCategories in Hc. apply in_map_iff in Hc as [c0 [<- Hc0]].
  apply filter_In in Hc0 as [_ Hid0]. apply negb_true_iff, String.eqb_neq in Hid0.
  unfold categoryNodes in Hy. destruct Hy as [<-|Hy]; [exact Hid0|].
  apply in_flat_map in Hy as [g [Hg Hy]]. simpl in Hg.
  apply in_map_iff in Hg as [g0 [<- Hg0]].
  apply filter_In in Hg0 as [_ Hgid]. apply negb_true_iff, String.eqb_neq in Hgid.
  unfold groupNodes in Hy. destruct Hy as [<-|Hy]; [exact Hgid|].
  apply in_map_iff in Hy as [p [<- Hp]]. simpl in Hp.
  apply filter_In in Hp as [_ Hpid]. apply negb_true_iff, String.eqb_neq in Hpid. exact Hpid.
Qed.

Lemma in_flatten_convert_filter (f : PromptCategory -> bool) (cats : list PromptCategory)
    (y : PromptEntry) :
  In y (flatten (convertJsonToEntries (filter f cats))) ->
  In y (flatten (convertJsonToEntries cats)).
Proof.
  rewrite !flatten_convert. intros Hy. apply in_flat_map in Hy as [c [Hc Hy]].
  apply filter_In in Hc as [Hc _]. apply in_flat_map. eauto.
Qed.

(** C3 (as the code has it): for a tree read from the system file and from
    user categories of kind ['user'] (the only kind the store writes), and
    an id that occurs nowhere in the system file, after [deletePrompt id]
    [findById id] returns [null], and every node reached through nodes of
    other ids (outside every deleted subtree) is still there with the same
    id, kind and label. *)
Theorem deletePrompt_removes_exactly (st : Library) (usr : list PromptCategory) (id : string) :
  prompts st = convertJsonToEntries (loadSystemCategories (systemFile st) ++ usr) ->
  Forall (fun c => c_type c = CUser) usr ->
  (forall e, In e (flatten (convertJsonToEntries (loadSystemCategories (systemFile st)))) ->
             e_id e <> id) ->
  findById (prompts (fst (deletePrompt st id))) id = None /\
  (forall y, outside id (prompts st) y ->
     exists y', In y' (flatten (prompts (fst (deletePrompt st id)))) /\ same_node y y').
Proof.
  intros Hp Husr Hsys. rewrite (deletePrompt_tree st usr id Hp).
  set (sys := loadSystemCategories (systemFile st)) in *.
  rewrite convert_app.
  split.
  - rewrite findById_find, flatten_app.
    destruct (find (has_id id) _) as [y|] eqn:E; [|reflexivity].
    apply find_some_in in E as [Hin Hid]. unfold has_id in Hid. apply String.eqb_eq in Hid.
    exfalso. apply in_app_or in Hin as [Hin|Hin].
    + exact (Hsys y Hin Hid).
    + apply in_flatten_convert_filter in Hin. exact (removed_ids_absent id _ y Hin Hid).
  - intros y Hy. rewrite Hp in Hy. rewrite flatten_app.
    apply outside_convert in Hy as [cat [Hc [Hcid Hy]]].
    apply in_app_or in Hc as [Hc|Hc].
    + exists y. split; [|repeat split].
      apply in_or_app. left. rewrite flatten_convert. apply in_flat_map.
      exists cat. split; [exact Hc|]. unfold categoryNodes.
      destruct Hy as [->|[g [Hg [Hgid [->|[q [Hq [_ ->]]]]]]]]; [left; reflexivity|right..].
      * apply in_flat_map. exists g. split; [exact Hg | left; reflexivity].
      * apply in_flat_map. exists g. split; [exact Hg | right; apply in_map; exact Hq].
    + assert (Hu : c_type cat = CUser) by (rewrite Forall_forall in Husr; auto).
      set (cat' := removeInCategory id cat).
      assert (Hc' : In cat' (filter isUserCategory (removeInCategories id (sys ++ usr)))).
      { apply filter_In. split.
        - unfold removeInCategories. apply in_map. apply filter_In. split.
          + apply in_or_app. right. exact Hc.
          + apply negb_true_iff, String.eqb_neq. exact Hcid.
        - unfold isUserCategory. simpl. rewrite Hu. reflexivity. }
      destruct Hy as [->|[g [Hg [Hgid Hy]]]].
      * exists (convertCategory cat'). split; [|repeat split].
        apply in_or_app; right; rewrite flatten_convert.
        apply in_flat_map. exists cat'. split; [exact Hc' | left; reflexivity].
      * assert (Hg' : In (removeInGroup id g) (c_groups cat')).
        { simpl. apply in_map. apply filter_In. split; [exact Hg|].
          apply negb_true_iff, String.eqb_neq. exact Hgid. }
        destruct Hy as [->|[q [Hq [Hqid ->]]]].
        -- exists (convertGroup cat' (removeInGroup id g)). split; [|repeat split].
           apply in_or_app; right; rewrite flatten_convert.
           apply in_flat_map. exists cat'. split; [exact Hc'|]. right.
           apply in_flat_map. exists (removeInGroup id g). split; [exact Hg' | left; reflexivity].
        -- exists (convertPrompt cat' (removeInGroup id g) q). split; [|repeat split].
           apply in_or_app; right; rewrite flatten_convert.
           apply in_flat_map. exists cat'. split; [exact Hc'|]. right.
           apply in_flat_map. exists (removeInGroup id g). split; [exact Hg'|]. right.
           apply in_map. simpl. apply filter_In. split; [exact Hq|].
           apply negb_true_iff, String.eqb_neq. exact Hqid.
Qed.

(** ** [addPrompt] *)

(** *** Numbers: the order, rounding below [2^53], and [parseInt] reading
    back what [toString] wrote *)

Ltac zltb_cases :=
  repeat match goal with
         | |- context [Z.ltb ?x ?y] => destruct (Z.ltb_spec x y)
         end.

Lemma num_ltb_irrefl (a : JS.number) : JS.ltb a a = false.
Proof. destruct a as [x| |]; simpl; [apply Z.ltb_irrefl|reflexivity..]. Qed.

Lemma num_leb_refl (a : JS.number) : JS.leb a a = true.
Proof. unfold JS.leb. now rewrite num_ltb_irrefl. Qed.

Lemma num_ltb_leb (a b : JS.number) : JS.ltb a b = true -> JS.leb a b = true.
Proof.
  unfold JS.leb. destruct a as [x| |], b as [y| |]; simpl; zltb_cases;
    simpl; intros; try reflexivity; try discriminate; lia.
Qed.

Lemma num_not_ltb_leb (a b : JS.number) : JS.ltb a b = false -> JS.leb b a = true.
Proof. unfold JS.leb. intros ->. reflexivity. Qed.

Lemma num_leb_trans (a b c : JS.number) :
  JS.leb a b = true -> JS.leb b c = true -> JS.leb a c = true.
Proof.
  unfold JS.leb. destruct a as [x| |], b as [y| |], c as [z| |]; simpl; zltb_cases;
    simpl; intros; try reflexivity; try discriminate; lia.
Qed.

Lemma num_leb_ltb_trans (a b c : JS.number) :
  JS.leb a b = true -> JS.ltb b c = true -> JS.ltb a c = true.
Proof.
  unfold JS.leb. destruct a as [x| |], b as [y| |], c as [z| |]; simpl; zltb_cases;
    simpl; intros; try reflexivity; try discriminate; lia.
Qed.

Lemma num_leb_finite (x y : Z) : JS.leb (JS.Finite x) (JS.Finite y) = true <-> (x <= y)%Z.
Proof.
  unfold JS.leb. simpl. zltb_cases; simpl; split; intros; try reflexivity; try discriminate; lia.
Qed.

Lemma num_ltb_finite (x y : Z) : JS.ltb (JS.Finite x) (JS.Finite y) = true <-> (x < y)%Z.
Proof. simpl. apply Z.ltb_lt. Qed.

(** Between [0] and [2^53] every integer is a [number]. *)
Lemma ofZ_exact (z : Z) : (0 <= z <= 2 ^ 53)%Z -> JS.ofZ z = JS.Finite z.
Proof.
  intros Hz. destruct (Z.eq_dec z (2 ^ 53)) as [->|Hne]; [vm_compute; reflexivity|].
  assert (Hr : JS.roundSignificand z = z).
  { unfold JS.roundSignificand.
    destruct (Z.eq_dec z 0) as [->|Hz0]; [reflexivity|].
    assert (Hl : (Z.log2 z < 53)%Z) by (apply Z.log2_lt_pow2; lia).
    destruct (Z.leb_spec (Z.log2 z - 52) 0); [reflexivity|lia]. }
  unfold JS.ofZ. rewrite Z.abs_eq by lia. rewrite Hr.
  destruct (Z.leb_spec (2 ^ 1024) z) as [H|_].
  { exfalso. assert (2 ^ 53 < 2 ^ 1024)%Z by (apply Z.pow_lt_mono_r; lia). lia. }
  destruct (Z.ltb_spec z 0); [lia|reflexivity].
Qed.

Lemma digit_prefix_String (c : ascii) (r : string) :
  JS.is_digit c = true -> JS.digit_prefix (String c r) = JS.digit_val c :: JS.digit_prefix r.
Proof. intros H. simpl. rewrite H. reflexivity. Qed.

Ltac eval_digit_val :=
  repeat match goal with
         | |- context [JS.digit_val ?c] =>
             let v := eval vm_compute in (JS.digit_val c) in change (JS.digit_val c) with v
         end.

Lemma digits_of_uint_acc (u : Decimal.uint) (acc : positive) :
  Z.pos (Pos.of_uint_acc u acc) =
  fold_left (fun a d => a * 10 + d)%Z (JS.digit_prefix (JS.uint_to_string u)) (Z.pos acc).
Proof.
  revert acc; induction u; intros acc; [reflexivity|..];
    cbn [Pos.of_uint_acc JS.uint_to_string]; rewrite IHu;
    rewrite digit_prefix_String by reflexivity; cbn [fold_left]; eval_digit_val;
    f_equal; lia.
Qed.

Lemma digits_of_uint (u : Decimal.uint) :
  Z.of_N (Pos.of_uint u) =
  fold_left (fun a d => a * 10 + d)%Z (JS.digit_prefix (JS.uint_to_string u)) 0%Z.
Proof.
  induction u; [reflexivity|..];
    cbn [Pos.of_uint JS.uint_to_string]; rewrite digit_prefix_String by reflexivity;
    cbn [fold_left]; eval_digit_val; [exact IHu|..];
    cbn [Z.of_N]; rewrite digits_of_uint_acc; reflexivity.
Qed.

Lemma digit_prefix_uint_app (u : Decimal.uint) (r : string) :
  JS.digit_prefix (JS.uint_to_string u ++ r)
  = JS.digit_prefix (JS.uint_to_string u) ++ JS.digit_prefix r.
Proof.
  induction u; [reflexivity|..]; cbn [JS.uint_to_string append];
    rewrite !digit_prefix_String by reflexivity; rewrite IHu; reflexivity.
Qed.

Lemma digit_prefix_zeros (m : nat) : JS.digit_prefix (JS.zeros m) = repeat 0%Z m.
Proof.
  induction m as [|m IH]; [reflexivity|]. cbn [JS.zeros].
  rewrite digit_prefix_String by reflexivity. rewrite IH. reflexivity.
Qed.

Lemma digits_value_zeros (l : list Z) (m : nat) :
  JS.digits_value (l ++ repeat 0%Z m) = (JS.digits_value l * 10 ^ Z.of_nat m)%Z.
Proof.
  unfold JS.digits_value. rewrite fold_left_app. generalize (fold_left (fun acc d => acc * 10 + d)%Z l 0%Z).
  induction m as [|m IH]; intros a; [simpl; lia|].
  rewrite Nat2Z.inj_succ, Z.pow_succ_r by lia. cbn [repeat fold_left]. rewrite IH. lia.
Qed.

Lemma decimalString_value (s : Z) :
  (0 <= s)%Z -> JS.digits_value (JS.digit_prefix (JS.decimalString s)) = s.
Proof.
  intros Hs. unfold JS.decimalString, JS.digits_value. rewrite <- digits_of_uint.
  change (Pos.of_uint (N.to_uint (Z.to_N s))) with (N.of_uint (N.to_uint (Z.to_N s))).
  rewrite DecimalN.Unsigned.of_to. lia.
Qed.

Lemma decimalString_nonnil (s : Z) : N.to_uint (Z.to_N s) <> Decimal.Nil.
Proof.
  destruct (Z.to_N s) as [|p]; [discriminate|]. apply DecimalPos.Unsigned.to_uint_nonnil.
Qed.

(** [parseInt] of the digits of [s] followed by [m] zeros. *)
Lemma parseInt_digits_zeros (s : Z) (m : nat) :
  (0 <= s)%Z ->
  JS.parseInt (JS.decimalString s ++ JS.zeros m) = Some (JS.ofZ (s * 10 ^ Z.of_nat m)).
Proof.
  intros Hs. pose proof (decimalString_value s Hs) as Hv.
  pose proof (decimalString_nonnil s) as Hnn.
  unfold JS.decimalString in *.
  assert (Hd : JS.digits_value (JS.digit_prefix (JS.uint_to_string (N.to_uint (Z.to_N s))
                                                ++ JS.zeros m))
               = (s * 10 ^ Z.of_nat m)%Z).
  { rewrite digit_prefix_uint_app, digit_prefix_zeros, digits_value_zeros, Hv. reflexivity. }
  revert Hd Hnn. generalize (N.to_uint (Z.to_N s)). intros u Hd Hnn.
  destruct u as [|u|u|u|u|u|u|u|u|u|u]; [congruence|..];
    unfold JS.parseInt; cbn [JS.uint_to_string append JS.trimStart];
    change (JS.is_ws _) with false; cbv iota;
    cbn [JS.uint_to_string append] in Hd; rewrite digit_prefix_String in * by reflexivity;
    rewrite Z.mul_1_l, Hd; reflexivity.
Qed.

Lemma countDigits_nonneg (fuel : nat) (v : Z) : (0 <= JS.countDigits fuel v)%Z.
Proof.
  revert v. induction fuel as [|f IH]; intros v; cbn [JS.countDigits]; [lia|].
  destruct (v <? 10)%Z; [lia|]. specialize (IH (v / 10)%Z). lia.
Qed.

Lemma countDigits_le (fuel : nat) (v m : Z) :
  (0 <= v < 10 ^ m)%Z -> (1 <= m)%Z -> (JS.countDigits fuel v <= m)%Z.
Proof.
  revert v m. induction fuel as [|f IH]; intros v m Hv Hm; cbn [JS.countDigits]; [lia|].
  destruct (Z.ltb_spec v 10); [lia|].
  assert (Hm2 : (2 <= m)%Z).
  { destruct (Z.eq_dec m 1) as [->|]; [simpl in Hv; lia|lia]. }
  assert (Hp : (10 ^ m = 10 * 10 ^ (m - 1))%Z)
    by (rewrite <- Z.pow_succ_r by lia; f_equal; lia).
  assert (H' : (0 <= v / 10 < 10 ^ (m - 1))%Z).
  { split; [apply Z.div_pos; lia|]. apply Z.div_lt_upper_bound; lia. }
  specialize (IH (v / 10)%Z (m - 1)%Z H' ltac:(lia)). lia.
Qed.

(** What [shortestDigits] returns: an [s * 10^(n-k)] that denotes [v],
    with [n - k >= 0] and [n <= D + 1]. *)
Lemma shortestDigits_spec (v D : Z) (fuel : nat) (k : Z) :
  (0 <= v)%Z -> JS.roundsTo v v = true -> (1 <= k)%Z -> (k + Z.of_nat fuel <= D + 1)%Z ->
  let '(s, k', n) := JS.shortestDigits v D fuel k in
  (0 <= s)%Z /\ (k' <= n <= D + 1)%Z /\ JS.roundsTo (s * 10 ^ (n - k')) v = true.
Proof.
  intros Hv Hvv. revert k. induction fuel as [|f IH]; intros k Hk HkD.
  - simpl. rewrite Z.sub_diag, Z.mul_1_r. split; [exact Hv|]. split; [lia|exact Hvv].
  - rewrite Nat2Z.inj_succ in HkD. cbn [JS.shortestDigits].
    set (p := (10 ^ (D - k))%Z).
    assert (Hp : (0 < p)%Z) by (apply Z.pow_pos_nonneg; lia).
    assert (Hlo : (0 <= v / p)%Z) by (apply Z.div_pos; lia).
    assert (HHi : JS.roundsTo ((v / p + 1) * p) v = true ->
               let '(s', k', n') :=
                 if (v / p + 1 =? 10 ^ k)%Z then ((10 ^ (k - 1))%Z, k, (D + 1)%Z)
                 else (v / p + 1, k, D)%Z in
               (0 <= s')%Z /\ (k' <= n' <= D + 1)%Z /\
               JS.roundsTo (s' * 10 ^ (n' - k')) v = true).
    { intros Hr. destruct (Z.eqb_spec (v / p + 1) (10 ^ k)) as [Ek|_].
      - split; [apply Z.pow_nonneg; lia|]. split; [lia|].
        rewrite Ek in Hr. unfold p in Hr. rewrite <- Z.pow_add_r in Hr by lia.
        rewrite <- Z.pow_add_r by lia.
        replace (k + (D - k))%Z with (k - 1 + (D + 1 - k))%Z in Hr by lia. exact Hr.
      - split; [lia|]. split; [lia|]. exact Hr. }
    destruct (JS.roundsTo (v / p * p) v) eqn:Rlo, (JS.roundsTo ((v / p + 1) * p) v) eqn:Rhi.
    + destruct (_ || _).
      * split; [exact Hlo|]. split; [lia|]. exact Rlo.
      * exact (HHi eq_refl).
    + split; [exact Hlo|]. split; [lia|]. exact Rlo.
    + exact (HHi eq_refl).
    + apply IH; lia.
Qed.

(** [parseInt(String(n))] is [n] for an integer [n] from [0] to
    [2^53]. *)
Lemma parseInt_numberToString (z : Z) :
  (0 <= z <= 2 ^ 53)%Z -> JS.parseInt (JS.numberToString (JS.Finite z)) = Some (JS.Finite z).
Proof.
  intros Hz. destruct (Z.eq_dec z 0) as [->|Hz0]; [reflexivity|].
  assert (Hvv : JS.roundsTo z z = true)
    by (unfold JS.roundsTo; rewrite ofZ_exact by lia; apply Z.eqb_refl).
  assert (HD : (1 <= JS.digitCount z <= 16)%Z).
  { unfold JS.digitCount. split.
    - destruct (Z.to_nat (Z.log2 z + 1)) eqn:E.
      + assert (0 <= Z.log2 z)%Z by apply Z.log2_nonneg. lia.
      + cbn [JS.countDigits]. destruct (z <? 10)%Z; [lia|].
        pose proof (countDigits_nonneg n (z / 10)). lia.
    - apply countDigits_le; [|lia]. split; [lia|].
      assert (2 ^ 53 < 10 ^ 16)%Z by reflexivity. lia. }
  unfold JS.numberToString. rewrite (proj2 (Z.eqb_neq z 0) Hz0).
  rewrite Z.abs_eq by lia.
  pose proof (shortestDigits_spec z (JS.digitCount z) (Z.to_nat (JS.digitCount z)) 1
                ltac:(lia) Hvv ltac:(lia) ltac:(lia)) as Hs.
  destruct (JS.shortestDigits _ _ _ _) as [[s k] n]. destruct Hs as (Hs0 & Hkn & Hr).
  destruct (Z.leb_spec n 21); [|lia].
  destruct (Z.ltb_spec z 0); [lia|].
  rewrite parseInt_digits_zeros by exact Hs0. rewrite Z2Nat.id by lia.
  unfold JS.roundsTo in Hr. destruct (JS.ofZ (s * 10 ^ (n - k))) as [w| |]; try discriminate.
  apply Z.eqb_eq in Hr. now subst w.
Qed.

(** *** [getMaxId] bounds every numeric id of the forest *)

Lemma fold_getMaxId_bound (l : list PromptEntry) :
  Forall (fun e => forall m, JS.leb m (getMaxId_step m e) = true /\
                             max_bounds (getMaxId_step m e) (flatten_entry e)) l ->
  forall m, JS.leb m (fold_left getMaxId_step l m) = true /\
            max_bounds (fold_left getMaxId_step l m) (flatten l).
Proof.
  induction 1 as [|e r He _ IH]; intros m; simpl.
  - split; [apply num_leb_refl|]. intros y k [].
  - destruct (He m) as [H1 H2]. destruct (IH (getMaxId_step m e)) as [H3 H4].
    split; [eapply num_leb_trans; eassumption|]. intros y k Hy Hk.
    apply in_app_or in Hy as [Hy|Hy].
    + eapply num_leb_trans; [exact (H2 y k Hy Hk)|exact H3].
    + exact (H4 y k Hy Hk).
Qed.

Lemma getMaxId_step_bound (e : PromptEntry) (m : JS.number) :
  JS.leb m (getMaxId_step m e) = true /\ max_bounds (getMaxId_step m e) (flatten_entry e).
Proof.
  revert m. induction e as [e IH] using entry_rect'. intros m.
  assert (Hl := fold_getMaxId_bound _ IH (JS.Finite 0)). destruct Hl as [_ Hl].
  rewrite flatten_entry_eq.
  destruct e as [eid ? ? ? ? ? ch ? ? ?]; cbn [getMaxId_step e_id e_children] in *.
  set (max1 := match JS.parseInt eid with
               | Some id => if JS.ltb m id then id else m
               | None => m end).
  assert (Hm1 : JS.leb m max1 = true /\
                forall k, JS.parseInt eid = Some k -> JS.leb k max1 = true).
  { subst max1. destruct (JS.parseInt eid) as [id|];
      [|split; [apply num_leb_refl | discriminate]].
    destruct (JS.ltb m id) eqn:E.
    - split; [now apply num_ltb_leb|]. intros k Hk. injection Hk as <-. apply num_leb_refl.
    - split; [apply num_leb_refl|]. intros k Hk. injection Hk as <-.
      now apply num_not_ltb_leb. }
  destruct Hm1 as [Hm1 Hk1].
  destruct ch as [ch|]; cbn [opt_list] in *.
  - destruct (JS.ltb max1 (fold_left getMaxId_step ch (JS.Finite 0))) eqn:E.
    + apply num_ltb_leb in E. split; [eapply num_leb_trans; eassumption|].
      intros y k [<-|Hy] Hk; cbn [e_id] in *.
      * eapply num_leb_trans; [exact (Hk1 k Hk)|exact E].
      * exact (Hl y k Hy Hk).
    + apply num_not_ltb_leb in E. split; [exact Hm1|].
      intros y k [<-|Hy] Hk; cbn [e_id] in *.
      * exact (Hk1 k Hk).
      * eapply num_leb_trans; [exact (Hl y k Hy Hk)|exact E].
  - split; [exact Hm1|]. intros y k [<-|[]] Hk. exact (Hk1 k Hk).
Qed.

Lemma getMaxId_bound (es : list PromptEntry) :
  JS.leb (JS.Finite 0) (getMaxId es) = true /\ max_bounds (getMaxId es) (flatten es).
Proof.
  apply fold_getMaxId_bound. apply Forall_forall. intros e _ m.
  apply getMaxId_step_bound.
Qed.
Lemma fold_getMaxId_attained (l : list PromptEntry) :
  Forall (fun e => forall m, JS.leb (JS.Finite 0) m = true ->
            getMaxId_step m e = m \/
            exists y, In y (flatten_entry e) /\ JS.parseInt (e_id y) = Some (getMaxId_step m e)) l ->
  forall m, JS.leb (JS.Finite 0) m = true ->
  fold_left getMaxId_step l m = m \/
  exists y, In y (flatten l) /\ JS.parseInt (e_id y) = Some (fold_left getMaxId_step l m).
Proof.
  induction 1 as [|e r He _ IH]; intros m Hm; simpl; [now left|].
  destruct (getMaxId_step_bound e m) as [Hle _].
  destruct (IH (getMaxId_step m e) ltac:(eapply num_leb_trans; eassumption))
    as [Hr|(y & Hy & Hk)].
  - rewrite Hr. destruct (He m Hm) as [Hs|(y & Hy & Hk)]; [now left|].
    right. exists y. split; [|exact Hk]. unfold flatten; simpl. apply in_or_app. now left.
  - right. exists y. split; [|exact Hk]. unfold flatten in *; simpl. apply in_or_app. now right.
Qed.

Lemma getMaxId_step_attained (e : PromptEntry) (m : JS.number) :
  JS.leb (JS.Finite 0) m = true ->
  getMaxId_step m e = m \/
  exists y, In y (flatten_entry e) /\ JS.parseInt (e_id y) = Some (getMaxId_step m e).
Proof.
  revert m. induction e as [e IH] using entry_rect'. intros m Hm.
  assert (Hl := fold_getMaxId_attained _ IH (JS.Finite 0) (num_leb_refl _)).
  rewrite flatten_entry_eq.
  destruct e as [eid ? ? ? ? ? ch ? ? ?]; cbn [getMaxId_step e_id e_children opt_list] in *.
  set (max1 := match JS.parseInt eid with
               | Some id => if JS.ltb m id then id else m
               | None => m end).
  assert (Hm1 : JS.leb m max1 = true /\ (max1 = m \/ JS.parseInt eid = Some max1)).
  { subst max1. destruct (JS.parseInt eid) as [id|];
      [|split; [apply num_leb_refl | now left]].
    destruct (JS.ltb m id) eqn:E.
    - split; [now apply num_ltb_leb | now right].
    - split; [apply num_leb_refl | now left]. }
  destruct Hm1 as [Hm1 Hmax1].
  assert (Hself : max1 = m \/ exists y, In y (mkEntry eid e_label0 e_type0 e_categoryType0
            e_prompt0 e_tags0 ch e_parentId0 e_categoryId0 e_evaluation0
            :: flatten (opt_list ch)) /\ JS.parseInt (e_id y) = Some max1).
  { destruct Hmax1 as [H|H]; [now left|right]. eexists. split; [left; reflexivity|exact H]. }
  destruct ch as [ch|]; cbn [opt_list] in *; [|exact Hself].
  destruct (JS.ltb max1 (fold_left getMaxId_step ch (JS.Finite 0))) eqn:E; [|exact Hself].
  destruct Hl as [H0|(y & Hy & Hk)].
  - exfalso. rewrite H0 in E.
    assert (H01 : JS.leb (JS.Finite 0) max1 = true) by (eapply num_leb_trans; eassumption).
    unfold JS.leb in H01. rewrite E in H01. discriminate.
  - right. exists y. split; [right; exact Hy|exact Hk].
Qed.

Lemma getMaxId_attained (es : list PromptEntry) :
  getMaxId es = JS.Finite 0 \/
  exists y, In y (flatten es) /\ JS.parseInt (e_id y) = Some (getMaxId es).
Proof.
  apply fold_getMaxId_attained; [|apply num_leb_refl]. apply Forall_forall.
  intros e _ m Hm. now apply getMaxId_step_attained.
Qed.

(** When every numeric id of the forest is below [2^53 - 1], [getMaxId] is
    an integer of that range. *)
Lemma getMaxId_safe (es : list PromptEntry) :
  (forall y k, In y (flatten es) -> JS.parseInt (e_id y) = Some k ->
               JS.ltb k (JS.Finite (2 ^ 53 - 1)) = true) ->
  exists m, getMaxId es = JS.Finite m /\ (0 <= m < 2 ^ 53 - 1)%Z.
Proof.
  intros Hsafe. destruct (getMaxId_bound es) as [H0 _].
  destruct (getMaxId_attained es) as [->|(y & Hy & Hk)].
  - exists 0%Z. split; [reflexivity|]. lia.
  - specialize (Hsafe y _ Hy Hk).
    destruct (getMaxId es) as [x| |]; [|discriminate|discriminate].
    exists x. split; [reflexivity|]. apply num_leb_finite in H0.
    apply num_ltb_finite in Hsafe. lia.
Qed.

(** From [2^53] on, [+ 1] is lost in the rounding: [nextId] stays where it
    is. *)
Lemma succ_2pow53 : JS.succ (JS.Finite (2 ^ 53)) = JS.Finite (2 ^ 53).
Proof. vm_compute. reflexivity. Qed.


(** *** Where the first node with a given id sits in a loaded tree *)

Lemma find_flat_map_split {A B : Type} (f : B -> bool) (h : A -> list B) (l : list A) (y : B) :
  find f (flat_map h l) = Some y ->
  exists pre a post, l = pre ++ a :: post /\ find f (flat_map h pre) = None /\
                     find f (h a) = Some y.
Proof.
  induction l as [|a r IH]; simpl; [discriminate|]. rewrite find_app.
  destruct (find f (h a)) eqn:E.
  - intros [= <-]. exists [], a, r. auto.
  - intros H. destruct (IH H) as [pre [b [post [-> [H1 H2]]]]].
    exists (a :: pre), b, post. simpl. rewrite find_app, E. auto.
Qed.

Lemma convert_find_split (cats : list PromptCategory) (pid : string) (parent : PromptEntry) :
  find (has_id pid) (flat_map categoryNodes cats) = Some parent ->
  exists pre a post, cats = pre ++ a :: post /\
    find (has_id pid) (flat_map categoryNodes pre) = None /\
    ((parent = convertCategory a /\ has_id pid (convertCategory a) = true) \/
     (has_id pid (convertCategory a) = false /\
      exists gpre g gpost, c_groups a = gpre ++ g :: gpost /\
        find (has_id pid) (flat_map (groupNodes a) gpre) = None /\
        ((parent = convertGroup a g /\ has_id pid (convertGroup a g) = true) \/
         e_type parent = TPrompt))).
Proof.
  intros H. destruct (find_flat_map_split _ _ _ _ H) as [pre [a [post [-> [H1 H2]]]]].
  exists pre, a, post. split; [reflexivity|]. split; [exact H1|].
  unfold categoryNodes in H2. simpl in H2.
  destruct (has_id pid (convertCategory a)) eqn:Ea.
  - left. injection H2 as <-. auto.
  - right. split; [reflexivity|].
    destruct (find_flat_map_split _ _ _ _ H2) as [gpre [g [gpost [Hg [H3 H4]]]]].
    exists gpre, g, gpost. split; [exact Hg|]. split; [exact H3|].
    unfold groupNodes in H4. simpl in H4.
    destruct (has_id pid (convertGroup a g)) eqn:Eg.
    + left. injection H4 as <-. auto.
    + right. apply find_some in H4 as [H4 _].
      apply in_map_iff in H4 as [p [<- _]]. reflexivity.
Qed.

Lemma modify_first_list_app {A : Type} (g : A -> option A) (l1 l2 : list A) :
  modify_first_list g l1 = None ->
  modify_first_list g (l1 ++ l2) = option_map (app l1) (modify_first_list g l2).
Proof.
  induction l1 as [|x r IH]; simpl; intros H.
  - destruct (modify_first_list g l2); reflexivity.
  - destruct (g x); [discriminate|].
    destruct (modify_first_list g r); [discriminate|].
    rewrite IH by reflexivity. destruct (modify_first_list g l2); reflexivity.
Qed.

Lemma replace_first_entry_none (pid : string) (n e : PromptEntry) :
  find (has_id pid) (flatten_entry e) = None -> replace_first_entry pid n e = None.
Proof.
  induction e as [e IH] using entry_rect'.
  destruct e as [eid ? ? ? ? ? ch ? ? ?]; cbn [opt_list e_children] in IH.
  cbn [replace_first_entry flatten_entry find]. unfold has_id at 1. cbn [e_id].
  destruct (String.eqb eid pid); [discriminate|].
  destruct ch as [ch|]; [|reflexivity]. intros H. cbn [opt_list] in IH.
  assert (Hm : modify_first_list (replace_first_entry pid n) ch = None).
  { revert H; induction IH as [|x r Hx _ IHr]; intros H; [reflexivity|].
    simpl in H. rewrite find_app in H.
    destruct (find (has_id pid) (flatten_entry x)); [discriminate|].
    cbn [modify_first_list]. rewrite Hx by reflexivity. rewrite IHr by exact H. reflexivity. }
  rewrite Hm. reflexivity.
Qed.

Lemma modify_first_none (pid : string) (n : PromptEntry) (l : list PromptEntry) :
  find (has_id pid) (flatten l) = None ->
  modify_first_list (replace_first_entry pid n) l = None.
Proof.
  induction l as [|x r IH]; simpl; [reflexivity|]. unfold flatten. simpl.
  rewrite find_app. destruct (find (has_id pid) (flatten_entry x)) eqn:E; [discriminate|].
  intros H. rewrite replace_first_entry_none by exact E. rewrite IH by exact H. reflexivity.
Qed.

Lemma replace_first_category (pre post : list PromptCategory) (a : PromptCategory)
    (pid : string) (n : PromptEntry) :
  find (has_id pid) (flat_map categoryNodes pre) = None ->
  has_id pid (convertCategory a) = true ->
  replace_first pid n (convertJsonToEntries (pre ++ a :: post)) =
  convertJsonToEntries pre ++ n :: convertJsonToEntries post.
Proof.
  intros H1 H2. unfold replace_first, convertJsonToEntries. rewrite map_app.
  rewrite modify_first_list_app
    by (apply modify_first_none; rewrite <- flatten_convert in H1; exact H1).
  simpl. unfold has_id in H2. simpl in H2. rewrite H2. reflexivity.
Qed.

Lemma replace_first_group (pre post : list PromptCategory) (a : PromptCategory)
    (gpre gpost : list PromptGroup) (g : PromptGroup) (pid : string) (n : PromptEntry) :
  find (has_id pid) (flat_map categoryNodes pre) = None ->
  has_id pid (convertCategory a) = false ->
  c_groups a = gpre ++ g :: gpost ->
  find (has_id pid) (flat_map (groupNodes a) gpre) = None ->
  has_id pid (convertGroup a g) = true ->
  replace_first pid n (convertJsonToEntries (pre ++ a :: post)) =
  convertJsonToEntries pre ++
    set_children (convertCategory a)
      (Some (map (convertGroup a) gpre ++ n :: map (convertGroup a) gpost))
  :: convertJsonToEntries post.
Proof.
  intros H1 H2 Hg H3 H4. unfold replace_first, convertJsonToEntries. rewrite map_app.
  rewrite modify_first_list_app
    by (apply modify_first_none; rewrite <- flatten_convert in H1; exact H1).
  simpl. unfold has_id in H2. simpl in H2. rewrite H2.
  rewrite Hg, map_app.
  rewrite modify_first_list_app
    by (apply modify_first_none; rewrite flatten_convertGroups; exact H3).
  simpl. unfold has_id in H4. simpl in H4. rewrite H4. reflexivity.
Qed.

(** *** What the user file holds after the prompt was attached *)

Lemma entryToGroup_convert (cat : PromptCategory) (g : PromptGroup) :
  entryToGroup (convertGroup cat g) = normGroup g.
Proof.
  unfold entryToGroup, normGroup. simpl. f_equal.
  rewrite filter_all.
  2:{ intros x Hx. apply in_map_iff in Hx as [q [<- _]]. reflexivity. }
  rewrite map_map. reflexivity.
Qed.

Lemma entryToGroup_push (g0 : PromptGroup) (G np : PromptEntry) :
  e_type np = TPrompt -> e_id G = g_id g0 -> e_label G = g_label g0 ->
  map entryToPrompt (filter (isType TPrompt) (opt_list (e_children G))) =
    map normPrompt (g_prompts g0) ->
  entryToGroup (push_child G np) = addedGroup g0 np.
Proof.
  intros Ht Hi Hl Hp. unfold entryToGroup, addedGroup, push_child. simpl.
  rewrite Hi, Hl, filter_app, map_app, Hp. simpl.
  unfold isType. rewrite Ht. reflexivity.
Qed.

Lemma save_attached (a : PromptCategory) (gpre gpost : list PromptGroup) (G : PromptEntry) :
  c_type a = CUser -> e_type G = TGroup ->
  saveUserCategories
    [set_children (convertCategory a)
       (Some (map (convertGroup a) gpre ++ G :: map (convertGroup a) gpost))] =
  [{| c_id := c_id a; c_label := c_label a; c_type := CUser;
      c_groups := map normGroup gpre ++ entryToGroup G :: map normGroup gpost |}].
Proof.
  intros Hc Hg. unfold saveUserCategories. simpl. unfold hasCategoryType. simpl.
  rewrite Hc. simpl. f_equal. f_equal. f_equal.
  rewrite filter_all.
  2:{ intros x Hx. apply in_app_or in Hx as [Hx|[<-|Hx]];
      try (apply in_map_iff in Hx as [g [<- _]]; reflexivity).
      unfold isType. rewrite Hg. reflexivity. }
  rewrite map_app. simpl. rewrite !map_map.
  f_equal; [|f_equal]; apply map_ext; intros g; apply entryToGroup_convert.
Qed.

Lemma saveUserCategories_app (l1 l2 : list PromptEntry) :
  saveUserCategories (l1 ++ l2) = saveUserCategories l1 ++ saveUserCategories l2.
Proof. unfold saveUserCategories. rewrite filter_app, map_app. reflexivity. Qed.

Lemma categoryNodes_norm (c : PromptCategory) :
  isUserCategory c = true -> categoryNodes (normCategory c) = categoryNodes c.
Proof.
  intros Hu. pose proof (convert_norm_user [c]) as H. cbn [filter] in H. rewrite Hu in H.
  pose proof (flatten_convert [normCategory c]) as H1.
  pose proof (flatten_convert [c]) as H2.
  cbn [flat_map] in H1, H2. rewrite app_nil_r in H1, H2.
  rewrite <- H1, <- H2. exact (f_equal flatten H).
Qed.

Lemma in_categoryNodes_group (a : PromptCategory) (g : PromptGroup) :
  In g (c_groups a) -> In (convertGroup a g) (categoryNodes a).
Proof. intros H. right. apply in_flat_map. exists g. split; [exact H | left; reflexivity]. Qed.

Lemma in_categoryNodes_prompt (a : PromptCategory) (g : PromptGroup) (p : Prompt) :
  In g (c_groups a) -> In p (g_prompts g) -> In (convertPrompt a g p) (categoryNodes a).
Proof.
  intros H Hp. right. apply in_flat_map. exists g. split; [exact H|].
  right. apply in_map. exact Hp.
Qed.

(** In the tree read back, the only node with the new id is the new prompt. *)
Lemma added_prompt_found (sys pre post : list PromptCategory) (a : PromptCategory)
    (gpre gpost : list PromptGroup) (g0 : PromptGroup) (np : PromptEntry) (s : string) :
  fresh_in s (flat_map categoryNodes sys) ->
  fresh_in s (flat_map categoryNodes (pre ++ a :: post)) ->
  (forall g, In g (gpre ++ gpost) -> In g (c_groups a)) ->
  In g0 (c_groups a) \/ (g_prompts g0 = [] /\ g_id g0 <> s) ->
  e_id np = s ->
  findById (convertJsonToEntries
              (sys ++ map normCategory (filter isUserCategory pre) ++
               addedCategory a gpre g0 np gpost :: map normCategory (filter isUserCategory post))) s
  = Some (convertPrompt (addedCategory a gpre g0 np gpost) (addedGroup g0 np) (entryToPrompt np)).
Proof.
  intros Fsys Fcats Hgs Hg0 Hnp.
  set (a' := addedCategory a gpre g0 np gpost).
  set (g' := addedGroup g0 np).
  set (N := convertPrompt a' g' (entryToPrompt np)).
  assert (Fa : fresh_in s (categoryNodes a)).
  { intros x Hx. apply Fcats. apply in_flat_map. exists a. split; [|exact Hx].
    apply in_or_app. right. left. reflexivity. }
  assert (Hold : forall c, In c (map normCategory (filter isUserCategory (pre ++ post))) ->
                 fresh_in s (categoryNodes c)).
  { intros c Hc x Hx. apply in_map_iff in Hc as [c0 [<- Hc0]].
    apply filter_In in Hc0 as [Hc0 Hu]. rewrite categoryNodes_norm in Hx by exact Hu.
    apply Fcats. apply in_flat_map. exists c0. split; [|exact Hx].
    apply in_app_or in Hc0 as [Hc0|Hc0]; apply in_or_app; [left|right; right]; exact Hc0. }
  assert (HU : forall y, In y (flat_map categoryNodes
              (sys ++ map normCategory (filter isUserCategory pre) ++
               a' :: map normCategory (filter isUserCategory post))) ->
              e_id y = s -> y = N).
  { intros y Hy Hid. apply in_flat_map in Hy as [c [Hc Hy]].
    apply in_app_or in Hc as [Hc|Hc].
    { exfalso. apply (Fsys y); [apply in_flat_map; eauto | exact Hid]. }
    apply in_app_or in Hc as [Hc|[<-|Hc]].
    1,3: exfalso; refine (Hold c _ y Hy Hid);
         rewrite filter_app, map_app; apply in_or_app; auto.
    destruct Hy as [<-|Hy].
    { exfalso. exact (Fa (convertCategory a) (or_introl eq_refl) Hid). }
    apply in_flat_map in Hy as [g [Hg Hy]]. simpl in Hg.
    apply in_app_or in Hg as [Hg|[<-|Hg]].
    2:{ destruct Hy as [<-|Hy].
        { exfalso. simpl in Hid. destruct Hg0 as [Hg0|[_ Hg0]]; [|exact (Hg0 Hid)].
          exact (Fa _ (in_categoryNodes_group a g0 Hg0) Hid). }
        apply in_map_iff in Hy as [q [<- Hq]]. simpl in Hq.
        apply in_app_or in Hq as [Hq|[<-|[]]]; [|reflexivity].
        exfalso. apply in_map_iff in Hq as [p [<- Hp]].
        destruct Hg0 as [Hg0|[Hg0 _]]; [|rewrite Hg0 in Hp; destruct Hp].
        exact (Fa _ (in_categoryNodes_prompt a g0 p Hg0 Hp) Hid). }
    all: exfalso; apply in_map_iff in Hg as [g1 [<- Hg1]];
      assert (Hg1' : In g1 (c_groups a)) by (apply Hgs; apply in_or_app; auto);
      destruct Hy as [<-|Hy];
      [ exact (Fa _ (in_categoryNodes_group a g1 Hg1') Hid)
      | apply in_map_iff in Hy as [q [<- Hq]]; simpl in Hq;
        apply in_map_iff in Hq as [p [<- Hp]];
        exact (Fa _ (in_categoryNodes_prompt a g1 p Hg1' Hp) Hid) ]. }
  assert (HN : In N (flat_map categoryNodes
              (sys ++ map normCategory (filter isUserCategory pre) ++
               a' :: map normCategory (filter isUserCategory post)))).
  { apply in_flat_map. exists a'. split.
    - apply in_or_app. right. apply in_or_app. right. left. reflexivity.
    - right. apply in_flat_map. exists g'. split.
      + simpl. apply in_or_app. right. left. reflexivity.
      + right. apply in_map. simpl. apply in_or_app. right. left. reflexivity. }
  rewrite findById_find, flatten_convert.
  destruct (find (has_id s) _) as [y|] eqn:E.
  - apply find_some in E as [Hy Hs]. unfold has_id in Hs. apply String.eqb_eq in Hs.
    rewrite (HU y Hy Hs). reflexivity.
  - exfalso. pose proof (find_none_in _ _ N E HN) as H. unfold has_id in H.
    simpl in H. rewrite Hnp, String.eqb_refl in H. discriminate.
Qed.

(** *** The attachment step on a loaded tree *)

Lemma addPrompt_prompts (st : Library) label body tags parentId ev ts :
  prompts (add_state (addPrompt st label body tags parentId ev ts)) =
  convertJsonToEntries (loadSystemCategories (systemFile st) ++
    saveUserCategories (fst (fst (attachPrompt (prompts st) (JS.succ (nextId st)) parentId
      (mkEntry (JS.numberToString (nextId st)) label TPrompt None
         (Some (stripPlaceholders body)) (Some tags) None parentId parentId
         (Some (addEvaluation ev ts))))))).
Proof.
  unfold addPrompt. destruct (attachPrompt _ _ _ _) as [[es nid] stored]. reflexivity.
Qed.

Lemma save_shape (pre post : list PromptCategory) (a : PromptCategory)
    (gpre gpost : list PromptGroup) (g0 : PromptGroup) (G0 np : PromptEntry) :
  c_type a = CUser -> e_type G0 = TGroup -> e_type np = TPrompt ->
  e_id G0 = g_id g0 -> e_label G0 = g_label g0 ->
  map entryToPrompt (filter (isType TPrompt) (opt_list (e_children G0))) =
    map normPrompt (g_prompts g0) ->
  saveUserCategories
    (convertJsonToEntries pre ++
     set_children (convertCategory a)
       (Some (map (convertGroup a) gpre ++ push_child G0 np :: map (convertGroup a) gpost))
     :: convertJsonToEntries post) =
  map normCategory (filter isUserCategory pre) ++
    addedCategory a gpre g0 np gpost :: map normCategory (filter isUserCategory post).
Proof.
  intros Hca HG0 Hnp Hi Hl Hp.
  change (?x :: convertJsonToEntries post) with ([x] ++ convertJsonToEntries post).
  rewrite !saveUserCategories_app, !saveUserCategories_convert.
  rewrite save_attached by assumption.
  rewrite (entryToGroup_push g0 G0 np) by assumption. reflexivity.
Qed.

Lemma addPrompt_returned (st : Library) label body tags parentId ev ts :
  add_returned (addPrompt st label body tags parentId ev ts) =
  Some (JS.numberToString (nextId st)).
Proof.
  unfold addPrompt. destruct (attachPrompt _ _ _ _) as [[es nid] stored]. reflexivity.
Qed.

Lemma attachPrompt_user (cats : list PromptCategory) (nid : JS.number) (pid : string)
    (parent np0 : PromptEntry) :
  pid <> EmptyString ->
  findById (convertJsonToEntries cats) pid = Some parent ->
  e_type parent <> TPrompt -> e_categoryType parent = Some CUser ->
  e_type np0 = TPrompt ->
  exists pre a post gpre g0 gpost,
    cats = pre ++ a :: post /\
    (forall g, In g (gpre ++ gpost) -> In g (c_groups a)) /\
    (In g0 (c_groups a) \/ (g_prompts g0 = [] /\ g_id g0 = JS.numberToString nid)) /\
    saveUserCategories (fst (fst (attachPrompt (convertJsonToEntries cats) nid (Some pid) np0))) =
    map normCategory (filter isUserCategory pre) ++
      addedCategory a gpre g0 (set_categoryType np0 (Some CUser)) gpost
      :: map normCategory (filter isUserCategory post).
Proof.
  intros Hpid Hf Hnt Hct Hnp.
  pose proof Hf as Hf'. rewrite findById_find, flatten_convert in Hf'.
  destruct (convert_find_split _ _ _ Hf') as [pre [a [post [-> [H1 Hcase]]]]].
  assert (Htr : truthy (Some pid) = true).
  { simpl. apply negb_true_iff, String.eqb_neq. exact Hpid. }
  unfold attachPrompt. rewrite Htr, Hf, Hct.
  set (np := set_categoryType np0 (Some CUser)).
  assert (Hnpt : e_type np = TPrompt) by exact Hnp.
  destruct Hcase as [[-> Ha] | [Ha [gpre [g [gpost [Hg [H3 [[-> Hgid] | Ht]]]]]]]].
  - (* the parent is a category *)
    assert (Hca : c_type a = CUser) by (simpl in Hct; congruence).
    cbn [e_type convertCategory].
    change (opt_list (e_children (convertCategory a))) with (map (convertGroup a) (c_groups a)).
    destruct (c_groups a) as [|g0 gs] eqn:Hg.
    + exists pre, a, post, [], {| g_id := JS.numberToString nid; g_label := "Default";
                                  g_prompts := [] |}, [].
      split; [reflexivity|]. split; [intros g []|]. split; [right; auto|].
      cbn [fst map modify_first_list].
      match goal with
      | |- context [push_child ?P (push_child ?T np)] =>
          replace (push_child P (push_child T np))
            with (set_children (convertCategory a)
                    (Some (map (convertGroup a) [] ++ push_child T np ::
                           map (convertGroup a) [])))
            by (unfold push_child, set_children, convertCategory;
                cbn [opt_list e_children]; rewrite Hg; reflexivity)
      end.
      rewrite replace_first_category by assumption.
      apply save_shape; auto.
    + exists pre, a, post, [], g0, gs.
      split; [reflexivity|].
      split; [intros g Hin; rewrite Hg; right; exact Hin|].
      split; [left; rewrite Hg; left; reflexivity|].
      cbn [map modify_first_list].
      change (isType TGroup (convertGroup a g0)) with true. cbv beta iota. cbn [fst].
      change (push_child (convertGroup a g0) np :: map (convertGroup a) gs)
        with (map (convertGroup a) [] ++ push_child (convertGroup a g0) np ::
              map (convertGroup a) gs).
      rewrite replace_first_category by assumption.
      apply save_shape; auto.
      unfold entryToPrompt. cbn [e_children convertGroup opt_list].
      rewrite filter_all.
      2:{ intros x Hx. apply in_map_iff in Hx as [q [<- _]]. reflexivity. }
      rewrite map_map. reflexivity.
  - (* the parent is a group *)
    assert (Hca : c_type a = CUser) by (simpl in Hct; congruence).
    cbn [e_type convertGroup].
    exists pre, a, post, gpre, g, gpost.
    split; [reflexivity|].
    split; [intros g1 Hin; rewrite Hg; apply in_app_or in Hin as [Hin|Hin];
            apply in_or_app; [left | right; right]; exact Hin|].
    split; [left; rewrite Hg; apply in_or_app; right; left; reflexivity|].
    cbn [fst]. rewrite (replace_first_group pre post a gpre gpost g) by assumption.
    apply save_shape; auto.
    cbn [e_children convertGroup opt_list].
    rewrite filter_all.
    2:{ intros x Hx. apply in_map_iff in Hx as [q [<- _]]. reflexivity. }
    rewrite map_map. reflexivity.
  - exfalso. exact (Hnt Ht).
Qed.

(** C2 (as the code has it): in a state of the session whose numeric ids
    are all below [2^53 - 1], [addPrompt] with a [parentId] that resolves
    to a category or a group of kind ['user'] returns an id whose numeric
    value is greater than every numeric id of the forest at the time of the
    call, and after the call [findById] on that id yields a prompt with the
    given label and tags and the body with the placeholder phrases
    stripped. *)
Theorem addPrompt_user_parent_found (st : Library) (label body : string)
    (tags : list string) (pid : string) (parent : PromptEntry) (ev : EvalOutcome) (ts : string) :
  reachable st ->
  (forall y k, In y (flatten (prompts st)) -> JS.parseInt (e_id y) = Some k ->
               JS.ltb k (JS.Finite (2 ^ 53 - 1)) = true) ->
  pid <> EmptyString ->
  findById (prompts st) pid = Some parent ->
  e_type parent <> TPrompt -> e_categoryType parent = Some CUser ->
  exists newId v,
    add_returned (addPrompt st label body tags (Some pid) ev ts) = Some newId /\
    JS.parseInt newId = Some v /\
    (forall y k, In y (flatten (prompts st)) -> JS.parseInt (e_id y) = Some k ->
                 JS.ltb k v = true) /\
    exists y,
      findById (prompts (add_state (addPrompt st label body tags (Some pid) ev ts))) newId
        = Some y /\
      e_type y = TPrompt /\ e_label y = label /\ e_tags y = Some tags /\
      e_prompt y = Some (stripPlaceholders body).
Proof.
  intros Hr Hsafe Hpid Hf Hnt Hct.
  destruct (reachable_loaded st Hr) as [usr [Hp [_ Hn]]].
  set (sys := loadSystemCategories (systemFile st)) in *.
  destruct (getMaxId_bound (prompts st)) as [_ Hmax].
  destruct (getMaxId_safe (prompts st) Hsafe) as [m [Hm Hmr]].
  assert (Hn' : nextId st = JS.Finite (m + 1)).
  { rewrite Hn, Hm. unfold JS.succ. apply ofZ_exact. lia. }
  assert (Hn2 : JS.succ (nextId st) = JS.Finite (m + 2)).
  { rewrite Hn'. unfold JS.succ. replace (m + 1 + 1)%Z with (m + 2)%Z by lia.
    apply ofZ_exact. lia. }
  set (s := JS.numberToString (nextId st)).
  assert (Hs : JS.parseInt s = Some (JS.Finite (m + 1))).
  { unfold s. rewrite Hn'. apply parseInt_numberToString; lia. }
  assert (Fall : fresh_in s (flatten (prompts st))).
  { intros x Hx Hid. specialize (Hmax x (JS.Finite (m + 1)) Hx). rewrite Hid in Hmax.
    specialize (Hmax Hs). rewrite Hm in Hmax. apply num_leb_finite in Hmax. lia. }
  exists s, (JS.Finite (m + 1)). split; [apply addPrompt_returned|]. split; [exact Hs|]. split.
  { intros y k Hy Hk. specialize (Hmax y k Hy Hk). rewrite Hm in Hmax.
    eapply num_leb_ltb_trans; [exact Hmax|]. apply num_ltb_finite. lia. }
  rewrite addPrompt_prompts. rewrite Hp in Hf |- *.
  match goal with
  | |- context [attachPrompt _ _ _ ?np0] =>
      destruct (attachPrompt_user (sys ++ usr) (JS.succ (nextId st)) pid parent np0
                  Hpid Hf Hnt Hct eq_refl)
        as [pre [a [post [gpre [g0 [gpost [Hcats [Hgs [Hg0 Hsave]]]]]]]]]
  end.
  rewrite Hsave.
  rewrite Hp, flatten_convert in Fall.
  rewrite (added_prompt_found sys pre post a gpre gpost g0 _ s).
  - eexists. split; [reflexivity|]. simpl. auto.
  - intros x Hx. apply Fall. apply in_flat_map in Hx as [c [Hc Hx]].
    apply in_flat_map. exists c. split; [apply in_or_app; left|]; assumption.
  - rewrite <- Hcats. exact Fall.
  - exact Hgs.
  - destruct Hg0 as [Hg0|[Hg0 Hid]]; [left; exact Hg0|right; split; [exact Hg0|]].
    rewrite Hid, Hn2. intros E.
    assert (Hs' : JS.parseInt (JS.numberToString (JS.Finite (m + 2)))
                  = Some (JS.Finite (m + 2)))
      by (apply parseInt_numberToString; lia).
    rewrite E, Hs in Hs'. injection Hs' as Hs'. lia.
  - reflexivity.
Qed.

(** ** A concrete library: a system file with one prompt, no user file yet *)

Ltac ids_differ :=
  let e := fresh "e" in let He := fresh "He" in let E := fresh "E" in
  intros e He; vm_compute in He;
  repeat (destruct He as [<-|He]; [intros E; vm_compute in E; discriminate|]);
  destruct He.

(** C1, at the library built from the example files. *)
Lemma prompt_kind_invariant_witness :
  reachable exampleLibrary /\ prompt_kinds_follow_categories (prompts exampleLibrary).
Proof. split; [constructor | apply prompt_kind_invariant; constructor]. Defined.

(** C2, adding under the initial user category of the example library. *)
Lemma addPrompt_user_parent_found_witness :
  reachable exampleLibrary /\
  (forall y k, In y (flatten (prompts exampleLibrary)) -> JS.parseInt (e_id y) = Some k ->
               JS.ltb k (JS.Finite (2 ^ 53 - 1)) = true) /\
  "user" <> EmptyString /\
  findById (prompts exampleLibrary) "user" = Some (convertCategory initialUserCategory) /\
  e_type (convertCategory initialUserCategory) <> TPrompt /\
  e_categoryType (convertCategory initialUserCategory) = Some CUser /\
  exists newId v,
    add_returned (addPrompt exampleLibrary "Review" "Review this code" ["review"]
                    (Some "user") EvalUndefined "t") = Some newId /\
    JS.parseInt newId = Some v /\
    (forall y k, In y (flatten (prompts exampleLibrary)) ->
                 JS.parseInt (e_id y) = Some k -> JS.ltb k v = true) /\
    exists y,
      findById (prompts (add_state (addPrompt exampleLibrary "Review" "Review this code"
                                      ["review"] (Some "user") EvalUndefined "t"))) newId
        = Some y /\
      e_type y = TPrompt /\ e_label y = "Review" /\ e_tags y = Some ["review"] /\
      e_prompt y = Some (stripPlaceholders "Review this code").
Proof.
  assert (Hsafe : forall y k, In y (flatten (prompts exampleLibrary)) ->
                  JS.parseInt (e_id y) = Some k -> JS.ltb k (JS.Finite (2 ^ 53 - 1)) = true).
  { intros y k Hy Hk. vm_compute in Hy.
    repeat (destruct Hy as [<-|Hy];
            [vm_compute in Hk; first [discriminate | injection Hk as <-; reflexivity]|]).
    destruct Hy. }
  split; [constructor|]. split; [exact Hsafe|]. split; [discriminate|].
  split; [vm_compute; reflexivity|]. split; [discriminate|]. split; [reflexivity|].
  apply (addPrompt_user_parent_found exampleLibrary "Review" "Review this code" ["review"]
           "user" (convertCategory initialUserCategory) EvalUndefined "t").
  - constructor.
  - exact Hsafe.
  - discriminate.
  - vm_compute. reflexivity.
  - discriminate.
  - reflexivity.
Defined.

(** Without the bound on the ids C2 fails as well: [getMaxId] reads
    ["9007199254740992"] as [2^53], [2^53 + 1] rounds back to [2^53], and
    [addPrompt] hands out the id of the prompt already there. *)
Lemma addPrompt_id_repeats_at_2pow53 :
  In "9007199254740992" (map e_id (flatten (prompts bigIdLibrary))) /\
  add_returned (addPrompt bigIdLibrary "Review" "Review this code" ["review"]
                  (Some "g9") EvalUndefined "t") = Some "9007199254740992".
Proof. split; vm_compute; [tauto | reflexivity]. Qed.

(** C2 fails for a parent in the system file: the new prompt is attached
    under the system category in memory, but only the user categories are
    written, and the reload loses it. *)
Lemma addPrompt_system_parent_lost :
  add_returned (addPrompt exampleLibrary "Review" "Review this code" ["review"]
                  (Some "sys") EvalUndefined "t") = Some "6" /\
  findById (prompts (add_state (addPrompt exampleLibrary "Review" "Review this code"
                                  ["review"] (Some "sys") EvalUndefined "t"))) "6" = None.
Proof. split; vm_compute; reflexivity. Qed.

(** C3 fails for an id of the system file: after deleting the system
    prompt ['5'] it is read back from the system file. *)
Lemma deletePrompt_system_prompt_kept :
  exists y, findById (prompts (fst (deletePrompt exampleLibrary "5"))) "5" = Some y.
Proof. eexists. vm_compute. reflexivity. Qed.

(** C3, deleting the initial user category of the example library. *)
Lemma deletePrompt_removes_exactly_witness :
  prompts exampleLibrary =
    convertJsonToEntries (loadSystemCategories (systemFile exampleLibrary) ++
                          [initialUserCategory]) /\
  Forall (fun c => c_type c = CUser) [initialUserCategory] /\
  (forall e, In e (flatten (convertJsonToEntries
                              (loadSystemCategories (systemFile exampleLibrary)))) ->
             e_id e <> "user") /\
  findById (prompts (fst (deletePrompt exampleLibrary "user"))) "user" = None /\
  (forall y, outside "user" (prompts exampleLibrary) y ->
     exists y', In y' (flatten (prompts (fst (deletePrompt exampleLibrary "user")))) /\
                same_node y y').
Proof.
  split; [reflexivity|]. split; [repeat constructor|]. split; [ids_differ|].
  apply (deletePrompt_removes_exactly exampleLibrary [initialUserCategory] "user").
  - reflexivity.
  - repeat constructor.
  - ids_differ.
Defined.

(** C4 fails: when the evaluator returns [undefined], the fallback
    attached to the new prompt has score 65 and no suggestion that
    mentions trying again; only the [catch] fallback (score 60) does. *)
Lemma addPrompt_undefined_fallback_no_retry :
  e_evaluation (add_stored (addPrompt exampleLibrary "Review" "Review this code" []
                              None EvalUndefined "t")) = Some (addFallbackEvaluation "t") /\
  overallScore (addFallbackEvaluation "t") = 65%Z /\
  existsb contains_try_again (suggestions (addFallbackEvaluation "t")) = false /\
  existsb contains_try_again (suggestions (addErrorEvaluation "t")) = true.
Proof. vm_compute. repeat split. Qed.

(** C5, at an id the example library does not have. *)
Lemma updatePrompt_unknown_id_noop_witness :
  (forall e, In e (flatten (prompts exampleLibrary)) -> e_id e <> "42") /\
  updatePrompt exampleLibrary "42" emptyPatch EvalUndefined "t" = (exampleLibrary, []).
Proof.
  split; [ids_differ|].
  apply updatePrompt_unknown_id_noop. ids_differ.
Defined.

(** C10, with a stale id ['99'] among the favorites. *)
Lemma favorites_recent_skip_stale_witness :
  let st := toggleFavorite (toggleFavorite exampleLibrary "99") "5" in
  reachable st /\
  getFavoritePrompts st = resolveInTree (favorites (userPreferences st)) (prompts st) /\
  getRecentPrompts st = resolveInTree (recentPrompts (userPreferences st)) (prompts st).
Proof.
  intros st. split; [repeat constructor|].
  apply favorites_recent_skip_stale. repeat constructor.
Defined.

(** ** The search filter *)

Lemma filterBySearch_item_eq (query : string) (item : PromptEntry) :
  filterBySearch_item query item =
  if matchesQuery (JS.toLowerCase query) item then Some item
  else match e_children item with
       | Some ch =>
           match keep_some (filterBySearch_item query) ch with
           | [] => None
           | childMatches => Some (set_children item (Some childMatches))
           end
       | None => None
       end.
Proof. destruct item; reflexivity. Qed.

Lemma length_flatten_member (c : PromptEntry) (l : list PromptEntry) :
  In c l -> (length (flatten_entry c) <= length (flatten l))%nat.
Proof.
  induction l as [|x r IH]; simpl; [intros []|]. unfold flatten. simpl.
  rewrite length_app. intros [<-|H]; [lia|]. specialize (IH H). unfold flatten in IH. lia.
Qed.

Lemma flatten_entry_length_sub (x e : PromptEntry) :
  In x (flatten_entry e) -> (length (flatten_entry x) <= length (flatten_entry e))%nat.
Proof.
  revert x. induction e as [e IH] using entry_rect'. intros x.
  rewrite (flatten_entry_eq e). intros [<-|Hx]; [rewrite flatten_entry_eq; lia|].
  unfold flatten in Hx. apply in_flat_map in Hx as [c [Hc Hx]].
  rewrite Forall_forall in IH. specialize (IH c Hc x Hx).
  pose proof (length_flatten_member c _ Hc). simpl. lia.
Qed.

Lemma no_self_ancestor (m a : PromptEntry) :
  In a (flatten_entry m) -> ancestor_of m a -> False.
Proof.
  intros Ha Hm. apply flatten_entry_length_sub in Ha.
  unfold ancestor_of, flatten in Hm. apply in_flat_map in Hm as [c [Hc Hm]].
  apply flatten_entry_length_sub in Hm.
  pose proof (length_flatten_member c _ Hc).
  rewrite (flatten_entry_eq a) in Ha. simpl in Ha. lia.
Qed.

Lemma flatten_single (e : PromptEntry) : flatten [e] = flatten_entry e.
Proof. unfold flatten. simpl. apply app_nil_r. Qed.

Section SearchFilter.
Variable query : string.
Variable m : PromptEntry.
Hypothesis m_matches : matchesQuery (JS.toLowerCase query) m = true.

Lemma pruned_to_app (l1 l2 r1 r2 : list PromptEntry) :
  pruned_to m l1 r1 -> pruned_to m l2 r2 -> pruned_to m (l1 ++ l2) (r1 ++ r2).
Proof.
  intros [A0 [A1 [A2 A3]]] [B0 [B1 [B2 B3]]]. unfold pruned_to. rewrite !flatten_app.
  split; [|split; [|split]].
  - destruct A0 as [->|A0]; [destruct B0 as [->|B0]; [left; reflexivity|]|];
      right; apply in_or_app; auto.
  - intros H. apply in_app_or in H as [H|H]; apply in_or_app; auto.
  - intros a Ha Hanc. apply in_app_or in Ha as [Ha|Ha];
      [destruct (A2 a Ha Hanc) as [ch Hch] | destruct (B2 a Ha Hanc) as [ch Hch]];
      exists ch; apply in_or_app; auto.
  - intros y Hy. apply in_app_or in Hy as [Hy|Hy];
      [destruct (A3 y Hy) as [H|[a [ch [H1 H2]]]] | destruct (B3 y Hy) as [H|[a [ch [H1 H2]]]]];
      auto; right; exists a, ch; split; auto; apply in_or_app; auto.
Qed.

Lemma pruned_list (l : list PromptEntry) :
  Forall (fun e => only_m query m (flatten_entry e) ->
                   pruned_to m [e] (keep_some (filterBySearch_item query) [e])) l ->
  only_m query m (flatten l) -> pruned_to m l (keep_some (filterBySearch_item query) l).
Proof.
  induction 1 as [|e r He _ IH]; intros Honly.
  - split; [left; reflexivity|]. split; [intros []|]. split; [intros a []|]. intros y [].
  - change (e :: r) with ([e] ++ r).
    assert (Hk : keep_some (filterBySearch_item query) ([e] ++ r) =
                 keep_some (filterBySearch_item query) [e] ++
                 keep_some (filterBySearch_item query) r)
      by (simpl; destruct (filterBySearch_item query e); reflexivity).
    rewrite Hk. apply pruned_to_app.
    + apply He. intros y Hy. apply Honly. unfold flatten. simpl. apply in_or_app. auto.
    + apply IH. intros y Hy. apply Honly. unfold flatten in *. simpl. apply in_or_app. auto.
Qed.

Lemma pruned_item (e : PromptEntry) :
  only_m query m (flatten_entry e) -> pruned_to m [e] (keep_some (filterBySearch_item query) [e]).
Proof.
  induction e as [e IH] using entry_rect'. intros Honly.
  cbn [keep_some]. rewrite filterBySearch_item_eq. unfold pruned_to. rewrite flatten_single.
  destruct (matchesQuery (JS.toLowerCase query) e) eqn:Em; cbv beta iota.
  { assert (e = m) as ->
      by (apply Honly; [rewrite flatten_entry_eq; left; reflexivity | exact Em]).
    rewrite flatten_single.
    split; [|split; [|split]].
    - right. rewrite flatten_entry_eq. left. reflexivity.
    - auto.
    - intros a Ha Hanc. exfalso. exact (no_self_ancestor m a Ha Hanc).
    - auto. }
  assert (Hne : e <> m) by (intros ->; congruence).
  rewrite (flatten_entry_eq e) in Honly |- *.
  unfold ancestor_of.
  destruct (e_children e) as [cl|] eqn:Ech; cbn [opt_list] in *.
  2:{ split; [|split; [|split]].
      - left. reflexivity.
      - intros [H|[]]. congruence.
      - intros a [<-|[]] Hanc. rewrite Ech in Hanc. destruct Hanc.
      - intros y []. }
  assert (Hl : pruned_to m cl (keep_some (filterBySearch_item query) cl)).
  { apply pruned_list; [exact IH|]. intros y Hy. apply Honly. right. exact Hy. }
  destruct Hl as [L0 [L1 [L2 L3]]].
  destruct (keep_some (filterBySearch_item query) cl) as [|c cs] eqn:Ekeep.
  - split; [|split; [|split]].
    + left. reflexivity.
    + intros [H|H]; [congruence|]. destruct (L1 H).
    + intros a [<-|Ha] Hanc.
      * rewrite Ech in Hanc. destruct (L1 Hanc).
      * destruct (L2 a Ha Hanc) as [ch []].
    + intros y [].
  - destruct L0 as [L0|Hin]; [discriminate|].
    rewrite flatten_single, flatten_entry_eq. cbn [e_children set_children opt_list].
    split; [|split; [|split]].
    + right. right. exact Hin.
    + intros _. right. apply L1. exact Hin.
    + intros a [<-|Ha] Hanc.
      * exists (c :: cs). left. reflexivity.
      * destruct (L2 a Ha Hanc) as [ch Hch]. exists ch. right. exact Hch.
    + intros y [<-|Hy].
      * right. exists e, (c :: cs). split; [left; reflexivity|].
        split; [rewrite Ech; exact Hin | reflexivity].
      * destruct (L3 y Hy) as [H|[a [ch [H1 [H2 H3]]]]]; [left; exact H|].
        right. exists a, ch. split; [right; exact H1 | split; assumption].
Qed.

End SearchFilter.

(** C6: when, among all nodes of the forest, only the node [m] matches
    the query (for instance because the lowercased query occurs only in a
    tag of a nested prompt), the filtered forest holds [m], a copy of each
    ancestor of [m] (a category or group) with its other fields kept, and
    no other node outside the subtree of [m]: every sibling subtree without
    a match is dropped. *)
Theorem filterBySearch_keeps_ancestors (es : list PromptEntry) (query : string)
    (m : PromptEntry) :
  In m (flatten es) ->
  matchesQuery (JS.toLowerCase query) m = true ->
  (forall y, In y (flatten es) -> matchesQuery (JS.toLowerCase query) y = true -> y = m) ->
  In m (flatten (filterBySearch es query)) /\
  (forall a, In a (flatten es) -> ancestor_of m a ->
     exists ch, In (set_children a (Some ch)) (flatten (filterBySearch es query))) /\
  (forall y, In y (flatten (filterBySearch es query)) ->
     In y (flatten_entry m) \/
     exists a ch, In a (flatten es) /\ ancestor_of m a /\ y = set_children a (Some ch)).
Proof.
  intros Hin Hm Honly.
  destruct (pruned_list query m es) as [_ [P1 [P2 P3]]].
  - apply Forall_forall. intros e _. apply pruned_item. exact Hm.
  - exact Honly.
  - auto.
Qed.

(** C6, searching the example library for ["LEGACY"], a tag of the system
    prompt only. *)
Lemma filterBySearch_keeps_ancestors_witness :
  let m := convertPrompt exampleSystemCategory exampleGroup examplePrompt in
  let es := prompts exampleLibrary in
  In m (flatten es) /\
  matchesQuery (JS.toLowerCase "LEGACY") m = true /\
  (forall y, In y (flatten es) -> matchesQuery (JS.toLowerCase "LEGACY") y = true -> y = m) /\
  In m (flatten (filterBySearch es "LEGACY")) /\
  (forall a, In a (flatten es) -> ancestor_of m a ->
     exists ch, In (set_children a (Some ch)) (flatten (filterBySearch es "LEGACY"))) /\
  (forall y, In y (flatten (filterBySearch es "LEGACY")) ->
     In y (flatten_entry m) \/
     exists a ch, In a (flatten es) /\ ancestor_of m a /\ y = set_children a (Some ch)).
Proof.
  intros m es.
  assert (Hin : In m (flatten es)) by (vm_compute; right; right; left; reflexivity).
  assert (Hm : matchesQuery (JS.toLowerCase "LEGACY") m = true) by (vm_compute; reflexivity).
  assert (Honly : forall y, In y (flatten es) ->
                  matchesQuery (JS.toLowerCase "LEGACY") y = true -> y = m).
  { intros y Hy Hmy. vm_compute in Hy.
    repeat (destruct Hy as [<-|Hy];
            [vm_compute in Hmy; first [discriminate | reflexivity] |]).
    destruct Hy. }
  split; [exact Hin|]. split; [exact Hm|]. split; [exact Honly|].
  exact (filterBySearch_keeps_ancestors es "LEGACY" m Hin Hm Honly).
Defined.

(* ------------------------------------------------------------------ *)
(** ** Relevance scorer and ranking *)

Lemma toLowerCase_app (a b : string) :
  JS.toLowerCase (a ++ b) = (JS.toLowerCase a ++ JS.toLowerCase b)%string.
Proof. induction a as [|c a IH]; simpl; [reflexivity | now rewrite IH]. Qed.

Lemma startsWith_app (s t w : string) :
  JS.startsWith s w = true -> JS.startsWith (s ++ t)%string w = true.
Proof.
  revert s; induction w as [|c w IH]; intros s H; [now destruct (s ++ t)%string|].
  destruct s as [|d s]; simpl in *; [discriminate|].
  apply andb_true_iff in H as [H1 H2]. now rewrite H1, (IH _ H2).
Qed.

Lemma includes_empty (s : string) : JS.includes s EmptyString = true.
Proof. destruct s; reflexivity. Qed.

Lemma includes_app_l (s t w : string) :
  JS.includes s w = true -> JS.includes (s ++ t)%string w = true.
Proof.
  induction s as [|d s IH]; intros H.
  - destruct w; [apply includes_empty | simpl in H; discriminate].
  - change (JS.startsWith (String d s) w || JS.includes s w = true) in H.
    change (JS.startsWith (String d s ++ t)%string w
            || JS.includes (s ++ t)%string w = true).
    apply orb_true_iff in H as [H|H].
    + now rewrite (startsWith_app _ t _ H).
    + rewrite (IH H). apply orb_true_r.
Qed.

Lemma includes_app_r (s t w : string) :
  JS.includes t w = true -> JS.includes (s ++ t)%string w = true.
Proof.
  induction s as [|c s IH]; intros H; [exact H|].
  simpl. rewrite (IH H). apply orb_true_r.
Qed.

Lemma includes_extend (pre b post w : string) :
  JS.includes (JS.toLowerCase b) w = true ->
  JS.includes (JS.toLowerCase (pre ++ b ++ post)%string) w = true.
Proof.
  intros H. rewrite !toLowerCase_app.
  apply includes_app_r, includes_app_l, H.
Qed.

Lemma bonus_mono (b1 b2 : bool) (n : Q) :
  (b1 = true -> b2 = true) -> 0 <= n -> bonus b1 n <= bonus b2 n.
Proof.
  destruct b1, b2; simpl; intros H Hn; try apply Qle_refl; try exact Hn.
  discriminate (H eq_refl).
Qed.

Lemma bonus_nonneg (b : bool) (n : Q) : 0 <= n -> 0 <= bonus b n.
Proof. destruct b; simpl; intros; [assumption | apply Qle_refl]. Qed.

Lemma Qplus_nonneg (a b : Q) : 0 <= a -> 0 <= b -> 0 <= a + b.
Proof. intros; lra. Qed.

Ltac bool_imp :=
  let Hb := fresh "Hb" in
  intro Hb;
  repeat (rewrite orb_true_iff in * || rewrite andb_true_iff in *);
  intuition auto.

Ltac q_lit := unfold Qle; simpl; lia.

Ltac bonus_le :=
  repeat apply Qplus_le_compat; try apply Qle_refl;
  try (apply bonus_mono; [bool_imp | q_lit]).

Ltac bonus_pos :=
  repeat apply Qplus_nonneg; try apply Qle_refl;
  try (apply bonus_nonneg; q_lit).

Section ScoreMonotone.
Variables (t1 t2 : string).
Hypothesis t12 : forall w, JS.includes t1 w = true -> JS.includes t2 w = true.

Lemma contextBonus_mono (ctx : RelevanceContext) (tags : list string) :
  contextBonus ctx t1 tags <= contextBonus ctx t2 tags.
Proof.
  unfold contextBonus; cbv zeta.
  destruct (c_ctype ctx); destruct (d_isCode (c_data ctx));
    destruct (d_errorCode (c_data ctx)); destruct (d_functionType (c_data ctx));
    destruct (d_testFramework (c_data ctx)); bonus_le.
Qed.

Lemma matchBonus_mono (v : option string) (lbl : string) (tags : list string)
    (a b : Q) :
  0 <= a -> 0 <= b -> matchBonus v t1 lbl tags a b <= matchBonus v t2 lbl tags a b.
Proof.
  intros Ha Hb. unfold matchBonus; cbv zeta.
  destruct v as [s|]; [destruct (truthy (Some s))|]; try apply Qle_refl.
  apply Qplus_le_compat; apply bonus_mono; auto; bool_imp.
Qed.

Lemma fileBonus_mono (f : option string) (tags : list string) :
  fileBonus f t1 tags <= fileBonus f t2 tags.
Proof.
  unfold fileBonus; cbv zeta.
  destruct f as [s|]; [destruct (truthy (Some s))|]; bonus_le.
Qed.

End ScoreMonotone.

Lemma contextBonus_nonneg (ctx : RelevanceContext) (t : string) (tags : list string) :
  0 <= contextBonus ctx t tags.
Proof.
  unfold contextBonus; cbv zeta.
  destruct (c_ctype ctx); destruct (d_isCode (c_data ctx)); bonus_pos.
Qed.

Lemma matchBonus_nonneg (v : option string) (t lbl : string) (tags : list string)
    (a b : Q) :
  0 <= a -> 0 <= b -> 0 <= matchBonus v t lbl tags a b.
Proof.
  intros Ha Hb. unfold matchBonus; cbv zeta.
  destruct v as [s|]; [destruct (truthy (Some s))|]; try apply Qle_refl.
  apply Qplus_nonneg; apply bonus_nonneg; assumption.
Qed.

Lemma fileBonus_nonneg (f : option string) (t : string) (tags : list string) :
  0 <= fileBonus f t tags.
Proof.
  unfold fileBonus; cbv zeta.
  destruct f as [s|]; [destruct (truthy (Some s))|]; bonus_pos.
Qed.

Lemma usageBonus_nonneg (an : UsageAnalytics) (id : string) (u : Q) :
  usageBonus an id = Some u -> 0 <= u.
Proof.
  unfold usageBonus. destruct (usageCount an id) as [n|]; [|discriminate].
  intros E. injection E as <-. apply Qplus_nonneg.
  - apply Q.min_glb; [|q_lit].
    apply Qmult_le_0_compat; [unfold Qle; simpl; lia | q_lit].
  - destruct (lastUsedDays an id) as [d|]; [|apply Qle_refl].
    destruct (Qlt_le_dec d 1); [q_lit|].
    destruct (Qlt_le_dec d 7); [q_lit | apply Qle_refl].
Qed.

Lemma usageBonus_le_5 (an : UsageAnalytics) (id : string) (u : Q) :
  usageBonus an id = Some u -> u <= 5.
Proof.
  unfold usageBonus. destruct (usageCount an id) as [n|]; [|discriminate].
  intros E. injection E as <-.
  assert (H1 : Qmin (inject_Z (Z.of_N n) * (15 # 100)) 3 <= 3) by apply Q.le_min_r.
  destruct (lastUsedDays an id) as [d|]; [|lra].
  destruct (Qlt_le_dec d 1); [lra|]. destruct (Qlt_le_dec d 7); lra.
Qed.

Lemma usageBonus_cases (an : UsageAnalytics) (id : string) :
  if usageIsNumber an id then exists u, usageBonus an id = Some u
  else usageBonus an id = None.
Proof.
  unfold usageIsNumber, usageBonus.
  destruct (usageCount an id); [eexists; reflexivity|reflexivity].
Qed.

Lemma Qmax_0_pos (x : Q) : 0 < x -> Qmax 0 x = x.
Proof.
  intros H. unfold Qmax, GenericMinMax.gmax.
  now rewrite (proj1 (Qlt_alt 0 x) H).
Qed.

(** A usage count that is not a number makes the score [NaN]; otherwise
    the usage block adds between 0 and 5 points and the score is at
    least 1. *)
Lemma relevanceScore_cases (an : UsageAnalytics) (p : PromptEntry)
    (ctx : RelevanceContext) :
  if usageIsNumber an (e_id p)
  then exists u s, usageBonus an (e_id p) = Some u /\ 0 <= u <= 5 /\
                   calculateRelevanceScore an p ctx = Some s /\ 1 <= s
  else usageBonus an (e_id p) = None /\ calculateRelevanceScore an p ctx = None.
Proof.
  pose proof (usageBonus_cases an (e_id p)) as Hc.
  unfold calculateRelevanceScore. cbv zeta.
  destruct (usageIsNumber an (e_id p)).
  2:{ rewrite Hc. now split. }
  destruct Hc as [u Hu]. rewrite Hu.
  assert (H5 := usageBonus_nonneg an (e_id p) u Hu).
  assert (H6 := usageBonus_le_5 an (e_id p) u Hu).
  match goal with |- exists _ s, _ /\ _ /\ Some (Qmax 0 ?x) = Some s /\ _ =>
    assert (Hx : 1 <= x); [|exists u, (Qmax 0 x)] end.
  { assert (H1 := contextBonus_nonneg ctx
      (match e_prompt p with Some t => JS.toLowerCase t | None => EmptyString end)
      (opt_list (e_tags p))).
    assert (H2 := matchBonus_nonneg (d_language (c_data ctx))
      (match e_prompt p with Some t => JS.toLowerCase t | None => EmptyString end)
      (JS.toLowerCase (e_label p)) (opt_list (e_tags p)) 4 3 ltac:(q_lit) ltac:(q_lit)).
    assert (H3 := matchBonus_nonneg (d_projectType (c_data ctx))
      (match e_prompt p with Some t => JS.toLowerCase t | None => EmptyString end)
      (JS.toLowerCase (e_label p)) (opt_list (e_tags p)) 5 4 ltac:(q_lit) ltac:(q_lit)).
    assert (H4 := fileBonus_nonneg (d_fileName (c_data ctx))
      (match e_prompt p with Some t => JS.toLowerCase t | None => EmptyString end)
      (opt_list (e_tags p))).
    lra. }
  split; [reflexivity|]. split; [now split|]. split; [reflexivity|].
  rewrite Qmax_0_pos; [exact Hx|lra].
Qed.

(** Under an error context, a prompt text that extends one free of
    "debug", "error" and "fix" by a "debug" scores strictly higher, when
    the usage count read for the prompt is a number. *)
Lemma score_extend_debug (an : UsageAnalytics) (ctx : RelevanceContext)
    (p : PromptEntry) (pre bp post : string) :
  c_ctype ctx = CtxError ->
  e_prompt p = Some bp ->
  JS.includes (JS.toLowerCase (pre ++ bp ++ post)%string) "debug" = true ->
  (JS.includes (JS.toLowerCase bp) "debug" || JS.includes (JS.toLowerCase bp) "error"
   || JS.includes (JS.toLowerCase bp) "fix") = false ->
  usageIsNumber an (e_id p) = true ->
  exists sp sq,
    calculateRelevanceScore an p ctx = Some sp /\
    calculateRelevanceScore an (set_prompt p (Some (pre ++ bp ++ post)%string)) ctx = Some sq /\
    sp < sq.
Proof.
  intros Hctx Hbp Hdbg Hnone Hnum.
  pose proof (usageBonus_cases an (e_id p)) as Hu. rewrite Hnum in Hu.
  destruct Hu as [u Hu].
  assert (Hmono : forall w, JS.includes (JS.toLowerCase bp) w = true ->
            JS.includes (JS.toLowerCase (pre ++ bp ++ post)%string) w = true)
    by (intros; now apply includes_extend).
  unfold calculateRelevanceScore, set_prompt; cbn [e_prompt e_label e_tags e_id].
  rewrite Hbp, Hu.
  do 2 eexists. split; [reflexivity|]. split; [reflexivity|].
  set (t1 := JS.toLowerCase bp) in *.
  set (t2 := JS.toLowerCase (pre ++ bp ++ post)%string) in *.
  set (lbl := JS.toLowerCase (e_label p)).
  set (tags := opt_list (e_tags p)).
  assert (Hc : contextBonus ctx t1 tags + 10 <= contextBonus ctx t2 tags).
  { unfold contextBonus; cbv zeta. rewrite Hctx.
    rewrite Hnone, Hdbg. simpl bonus at 1 5.
    assert (Hr : bonus (JS.includes t1 "troubleshoot" || JS.includes t1 "solve") 8
                 + bonus (hasTag tags "debug" || hasTag tags "error" || hasTag tags "troubleshoot") 6
                 + bonus (match d_errorCode (c_data ctx) with
                          | Some c => truthy (Some c) && JS.includes t1 c
                          | None => false end) 5
               <= bonus (JS.includes t2 "troubleshoot" || JS.includes t2 "solve") 8
                 + bonus (hasTag tags "debug" || hasTag tags "error" || hasTag tags "troubleshoot") 6
                 + bonus (match d_errorCode (c_data ctx) with
                          | Some c => truthy (Some c) && JS.includes t2 c
                          | None => false end) 5).
    { destruct (d_errorCode (c_data ctx)); bonus_le. }
    lra. }
  pose proof (matchBonus_mono t1 t2 Hmono (d_language (c_data ctx)) lbl tags 4 3
                ltac:(q_lit) ltac:(q_lit)) as Hl.
  pose proof (matchBonus_mono t1 t2 Hmono (d_projectType (c_data ctx)) lbl tags 5 4
                ltac:(q_lit) ltac:(q_lit)) as Hp.
  pose proof (fileBonus_mono t1 t2 Hmono (d_fileName (c_data ctx)) tags) as Hf.
  pose proof (contextBonus_nonneg ctx t1 tags).
  pose proof (matchBonus_nonneg (d_language (c_data ctx)) t1 lbl tags 4 3
                ltac:(q_lit) ltac:(q_lit)).
  pose proof (matchBonus_nonneg (d_projectType (c_data ctx)) t1 lbl tags 5 4
                ltac:(q_lit) ltac:(q_lit)).
  pose proof (fileBonus_nonneg (d_fileName (c_data ctx)) t1 tags).
  pose proof (usageBonus_nonneg an (e_id p) u Hu).
  rewrite !Qmax_0_pos; lra.
Qed.

Lemma getRelevantPrompts_eq (an : UsageAnalytics) (roots : list PromptEntry)
    (ctx : RelevanceContext) :
  getRelevantPrompts an roots ctx = map fst (firstn 10 (rankedScores an roots ctx)).
Proof. reflexivity. Qed.

Lemma in_keep_some {A B : Type} (f : A -> option B) (l : list A) (y : B) :
  In y (keep_some f l) <-> exists x, In x l /\ f x = Some y.
Proof.
  induction l as [|x l IH]; simpl.
  - split; [intros []|intros (z & [] & _)].
  - destruct (f x) as [y'|] eqn:E; simpl; rewrite IH; split.
    + intros [<-|(z & Hz & Hf)]; [exists x; now split; [left|]|exists z; now split; [right|]].
    + intros (z & [<-|Hz] & Hf); [left; congruence|right; now exists z].
    + intros (z & Hz & Hf); exists z; now split; [right|].
    + intros (z & [<-|Hz] & Hf); [congruence|now exists z].
Qed.

Lemma insertByScore_In (x : PromptEntry * Q) (l : list (PromptEntry * Q)) z :
  In z (insertByScore x l) <-> x = z \/ In z l.
Proof.
  induction l as [|y ys IH]; simpl; [tauto|].
  destruct (Qle_bool (snd x) (snd y)); simpl; rewrite ?IH; tauto.
Qed.

Lemma sortByScoreDesc_In (l : list (PromptEntry * Q)) z :
  In z (sortByScoreDesc l) <-> In z l.
Proof.
  unfold sortByScoreDesc.
  assert (G : forall acc, In z (fold_left (fun acc x => insertByScore x acc) l acc)
                          <-> In z l \/ In z acc).
  { induction l as [|x l IH]; simpl; intros acc; [tauto|].
    rewrite IH, insertByScore_In. tauto. }
  rewrite G. simpl. tauto.
Qed.

Lemma insertByScore_sorted (x : PromptEntry * Q) (l : list (PromptEntry * Q)) :
  StronglySorted scoreGe l -> StronglySorted scoreGe (insertByScore x l).
Proof.
  induction l as [|y ys IH]; simpl; intros H.
  - constructor; constructor.
  - inversion H as [|? ? Hs Hf]; subst.
    rewrite Forall_forall in Hf.
    destruct (Qle_bool (snd x) (snd y)) eqn:E.
    + constructor; [now apply IH|].
      apply Forall_forall; intros z Hz.
      apply insertByScore_In in Hz as [<-|Hz]; [now apply Qle_bool_iff | now apply Hf].
    + assert (Hlt : snd y < snd x).
      { apply Qnot_le_lt; intro C; apply Qle_bool_iff in C; congruence. }
      constructor; [exact H|].
      constructor; [unfold scoreGe; now apply Qlt_le_weak|].
      apply Forall_forall; intros z Hz. specialize (Hf z Hz). unfold scoreGe in *.
      eapply Qle_trans; [exact Hf | now apply Qlt_le_weak].
Qed.

Lemma sortByScoreDesc_sorted (l : list (PromptEntry * Q)) :
  StronglySorted scoreGe (sortByScoreDesc l).
Proof.
  unfold sortByScoreDesc.
  assert (G : forall acc, StronglySorted scoreGe acc ->
            StronglySorted scoreGe (fold_left (fun acc x => insertByScore x acc) l acc)).
  { induction l as [|x l IH]; simpl; intros acc H; [exact H|].
    apply IH, insertByScore_sorted, H. }
  apply G. constructor.
Qed.

Lemma StronglySorted_app_cons {A : Type} (R : A -> A -> Prop) l1 x l2 :
  StronglySorted R (l1 ++ x :: l2) ->
  (forall y, In y l1 -> R y x) /\ (forall y, In y l2 -> R x y).
Proof.
  induction l1 as [|a l1 IH]; simpl; intros H.
  - inversion H as [|? ? _ Hf]; subst. rewrite Forall_forall in Hf. split; [tauto | exact Hf].
  - inversion H as [|? ? Hs Hf]; subst. rewrite Forall_forall in Hf.
    destruct (IH Hs) as [IH1 IH2]. split; [|exact IH2].
    intros y [->|Hy]; [apply Hf, in_or_app; simpl; tauto | now apply IH1].
Qed.

Lemma rankedScores_In (an : UsageAnalytics) (roots : list PromptEntry)
    (ctx : RelevanceContext) e s :
  In (e, s) (rankedScores an roots ctx) <->
  In e (extractAllPromptEntries roots) /\ calculateRelevanceScore an e ctx = Some s /\ 0 < s.
Proof.
  unfold rankedScores. rewrite sortByScoreDesc_In, in_keep_some. split.
  - intros [[e' so] [Hx Hf]]. apply in_map_iff in Hx as [e'' [E Hin]].
    injection E as E1 E2. subst e' so.
    unfold positiveScore in Hf; simpl in Hf.
    destruct (calculateRelevanceScore an e'' ctx) as [s'|] eqn:Ec; [|discriminate].
    destruct (Qle_bool s' 0) eqn:C; [discriminate|]. injection Hf as <- <-.
    split; [exact Hin|]. split; [exact Ec|].
    apply Qnot_le_lt; intro C'. apply Qle_bool_iff in C'. congruence.
  - intros [Hin [Hc Hpos]]. exists (e, Some s). split.
    + apply in_map_iff. exists e. rewrite Hc. now split.
    + unfold positiveScore; simpl. destruct (Qle_bool s 0) eqn:C; [|reflexivity].
      apply Qle_bool_iff in C. exfalso. now apply (Qlt_not_le _ _ Hpos).
Qed.

Lemma getRelevantPrompts_split (an : UsageAnalytics) (roots : list PromptEntry)
    (ctx : RelevanceContext) l1 x l2 :
  getRelevantPrompts an roots ctx = l1 ++ x :: l2 ->
  exists L1 s L2, rankedScores an roots ctx = L1 ++ (x, s) :: L2 /\ map fst L1 = l1.
Proof.
  rewrite getRelevantPrompts_eq. set (S := rankedScores an roots ctx). intros H.
  apply map_eq_app in H as [L1 [L2' [HS [H1 H2]]]].
  apply map_eq_cons in H2 as [[x' s] [L2 [-> [Hx _]]]]. simpl in Hx; subst x'.
  exists L1, s, (L2 ++ skipn 10 S). split; [|exact H1].
  rewrite <- (firstn_skipn 10 S) at 1. rewrite HS, <- app_assoc. reflexivity.
Qed.

Lemma getRelevantPrompts_scored (an : UsageAnalytics) (roots : list PromptEntry)
    (ctx : RelevanceContext) x :
  In x (getRelevantPrompts an roots ctx) ->
  exists s, calculateRelevanceScore an x ctx = Some s.
Proof.
  intros H. apply in_split in H as (l1 & l2 & H).
  destruct (getRelevantPrompts_split _ _ _ _ _ _ H) as [L1 [s [L2 [HS _]]]].
  assert (Hx : In (x, s) (rankedScores an roots ctx))
    by (rewrite HS; apply in_or_app; simpl; tauto).
  apply rankedScores_In in Hx as (_ & Hx & _). now exists s.
Qed.

(** C7 (amended). Under an error context, let [q] be the prompt [p] with
    its text extended so that it contains "debug", where [p]'s text
    contains none of "debug", "error", "fix". When the usage count read
    for their id is a number, [q] scores strictly higher than [p]; in the
    list [getRelevantPrompts] returns, [p] never comes before [q], and if
    [p] is returned then [q] is returned before it. When it is not (an id
    such as "constructor" naming a member of [Object.prototype], with no
    stored count), both scores are [NaN] and neither prompt is returned. *)
Theorem getRelevantPrompts_debug_first (an : UsageAnalytics)
    (roots : list PromptEntry) (ctx : RelevanceContext)
    (p q : PromptEntry) (pre bp post : string) :
  c_ctype ctx = CtxError ->
  e_prompt p = Some bp ->
  q = set_prompt p (Some (pre ++ bp ++ post)%string) ->
  JS.includes (JS.toLowerCase (pre ++ bp ++ post)%string) "debug" = true ->
  (JS.includes (JS.toLowerCase bp) "debug" || JS.includes (JS.toLowerCase bp) "error"
   || JS.includes (JS.toLowerCase bp) "fix") = false ->
  In q (extractAllPromptEntries roots) ->
  if usageIsNumber an (e_id p) then
    (exists sp sq, calculateRelevanceScore an p ctx = Some sp /\
                   calculateRelevanceScore an q ctx = Some sq /\ sp < sq) /\
    (forall l1 l2, getRelevantPrompts an roots ctx = l1 ++ q :: l2 -> ~ In p l1) /\
    (forall l1 l2, getRelevantPrompts an roots ctx = l1 ++ p :: l2 -> In q l1)
  else
    calculateRelevanceScore an p ctx = None /\ calculateRelevanceScore an q ctx = None /\
    ~ In p (getRelevantPrompts an roots ctx) /\ ~ In q (getRelevantPrompts an roots ctx).
Proof.
  intros Hctx Hbp Hq Hdbg Hnone Hin.
  destruct (usageIsNumber an (e_id p)) eqn:Hnum.
  2:{ pose proof (relevanceScore_cases an p ctx) as Hp.
      pose proof (relevanceScore_cases an q ctx) as Hq'.
      assert (Eid : e_id q = e_id p) by (subst q; reflexivity).
      rewrite Eid, Hnum in Hq'. rewrite Hnum in Hp.
      destruct Hp as [_ Hp], Hq' as [_ Hq'].
      split; [exact Hp|]. split; [exact Hq'|].
      split; intros H; apply getRelevantPrompts_scored in H as [s Hs]; congruence. }
  destruct (score_extend_debug an ctx p pre bp post Hctx Hbp Hdbg Hnone Hnum)
    as (sp & sq & Hsp & Hsq & Hlt).
  rewrite <- Hq in Hsq.
  assert (Hneq : q <> p).
  { intros E. apply (f_equal e_prompt) in E. subst q. simpl in E.
    rewrite Hbp in E. injection E as E. rewrite E in Hdbg.
    rewrite Hdbg in Hnone. discriminate. }
  pose proof (sortByScoreDesc_sorted
                (keep_some positiveScore
                   (map (fun p => (p, calculateRelevanceScore an p ctx))
                      (extractAllPromptEntries roots)))) as Hsorted.
  fold (rankedScores an roots ctx) in Hsorted.
  split; [now exists sp, sq|]. split.
  - intros l1 l2 Hr Hp.
    destruct (getRelevantPrompts_split _ _ _ _ _ _ Hr) as [L1 [s [L2 [HS <-]]]].
    apply in_map_iff in Hp as [[p' sp'] [Hp' HpL1]]. simpl in Hp'; subst p'.
    assert (Hq' : In (q, s) (rankedScores an roots ctx))
      by (rewrite HS; apply in_or_app; simpl; tauto).
    assert (Hp'' : In (p, sp') (rankedScores an roots ctx))
      by (rewrite HS; apply in_or_app; tauto).
    apply rankedScores_In in Hq' as [_ [Eq _]]. rewrite Hsq in Eq. injection Eq as <-.
    apply rankedScores_In in Hp'' as [_ [Ep _]]. rewrite Hsp in Ep. injection Ep as <-.
    rewrite HS in Hsorted. apply StronglySorted_app_cons in Hsorted as [H1 _].
    specialize (H1 _ HpL1). unfold scoreGe in H1. simpl in H1.
    now apply (Qlt_not_le _ _ Hlt).
  - intros l1 l2 Hr.
    destruct (getRelevantPrompts_split _ _ _ _ _ _ Hr) as [L1 [s [L2 [HS <-]]]].
    assert (Hp' : In (p, s) (rankedScores an roots ctx))
      by (rewrite HS; apply in_or_app; simpl; tauto).
    apply rankedScores_In in Hp' as [_ [Ep Hpos]]. rewrite Hsp in Ep. injection Ep as <-.
    assert (Hq' : In (q, sq) (rankedScores an roots ctx)).
    { apply rankedScores_In. split; [exact Hin|]. split; [exact Hsq|].
      eapply Qlt_trans; eassumption. }
    rewrite HS in Hq', Hsorted. apply StronglySorted_app_cons in Hsorted as [_ H2].
    apply in_app_or in Hq' as [Hq'|[Hq'|Hq']].
    + change q with (fst (q, sq)). now apply in_map.
    + injection Hq' as E _. exfalso. exact (Hneq (eq_sym E)).
    + specialize (H2 _ Hq'). unfold scoreGe in H2. simpl in H2.
      exfalso. now apply (Qlt_not_le _ _ Hlt).
Qed.

Lemma getRelevantPrompts_debug_first_witness :
  if usageIsNumber noAnalytics (e_id (convertPrompt rankCategory rankGroup plainPrompt)) then
    (exists sp sq,
       calculateRelevanceScore noAnalytics (convertPrompt rankCategory rankGroup plainPrompt)
         errorContext = Some sp /\
       calculateRelevanceScore noAnalytics
         (convertPrompt rankCategory rankGroup plainDebugPrompt) errorContext = Some sq /\
       sp < sq) /\
    (forall l1 l2,
        getRelevantPrompts noAnalytics [convertCategory rankCategory] errorContext
          = l1 ++ convertPrompt rankCategory rankGroup plainDebugPrompt :: l2 ->
        ~ In (convertPrompt rankCategory rankGroup plainPrompt) l1) /\
    (forall l1 l2,
        getRelevantPrompts noAnalytics [convertCategory rankCategory] errorContext
          = l1 ++ convertPrompt rankCategory rankGroup plainPrompt :: l2 ->
        In (convertPrompt rankCategory rankGroup plainDebugPrompt) l1)
  else
    calculateRelevanceScore noAnalytics (convertPrompt rankCategory rankGroup plainPrompt)
      errorContext = None /\
    calculateRelevanceScore noAnalytics
      (convertPrompt rankCategory rankGroup plainDebugPrompt) errorContext = None /\
    ~ In (convertPrompt rankCategory rankGroup plainPrompt)
        (getRelevantPrompts noAnalytics [convertCategory rankCategory] errorContext) /\
    ~ In (convertPrompt rankCategory rankGroup plainDebugPrompt)
        (getRelevantPrompts noAnalytics [convertCategory rankCategory] errorContext).
Proof.
  apply (getRelevantPrompts_debug_first noAnalytics [convertCategory rankCategory]
           errorContext (convertPrompt rankCategory rankGroup plainPrompt)
           (convertPrompt rankCategory rankGroup plainDebugPrompt)
           "Debug: " "Look at the bug in this code" "");
    try reflexivity.
  vm_compute. auto.
Defined.

(** C7 (counterexample). Two prompts identical but for their text, only
    one of which contains "debug", get the same score under an error
    context when the other contains "fix"; the tie keeps forest order, so
    the one without "debug" comes first. *)
Theorem relevance_debug_tie :
  convertPrompt tieCategory tieGroup debugVariantPrompt
    = set_prompt (convertPrompt tieCategory tieGroup examplePrompt)
        (Some "Debug and fix the bug in this code") /\
  JS.includes (JS.toLowerCase "Debug and fix the bug in this code") "debug" = true /\
  JS.includes (JS.toLowerCase "Fix the bug in this code") "debug" = false /\
  match calculateRelevanceScore noAnalytics
          (convertPrompt tieCategory tieGroup debugVariantPrompt) errorContext,
        calculateRelevanceScore noAnalytics
          (convertPrompt tieCategory tieGroup examplePrompt) errorContext with
  | Some s1, Some s2 => s1 == s2
  | _, _ => False
  end /\
  getRelevantPrompts noAnalytics [convertCategory tieCategory] errorContext
    = [convertPrompt tieCategory tieGroup examplePrompt;
       convertPrompt tieCategory tieGroup debugVariantPrompt].
Proof.
  split; [reflexivity|]. split; [reflexivity|]. split; [reflexivity|].
  split; vm_compute; reflexivity.
Qed.

(** An id naming a member of [Object.prototype], with no stored count,
    makes the score [NaN], and [getRelevantPrompts] drops the prompt. *)
Lemma relevance_prototype_id_dropped :
  calculateRelevanceScore noAnalytics
      (convertPrompt constructorCategory constructorGroup constructorPrompt) errorContext
    = None /\
  getRelevantPrompts noAnalytics [convertCategory constructorCategory] errorContext = [].
Proof. split; vm_compute; reflexivity. Qed.

(* ------------------------------------------------------------------ *)
(** ** Variable substitution *)

Lemma expandReplacement_no_dollar (v m b a : string) :
  no_dollar v = true -> expandReplacement v m b a = v.
Proof.
  induction v as [|c v IH]; intros H; [reflexivity|].
  simpl in H. apply andb_true_iff in H as [Hc Hv].
  destruct (Ascii.eqb_spec c "$"%char) as [->|Hne]; [discriminate|].
  rewrite <- (IH Hv) at 2.
  destruct c as [[] [] [] [] [] [] [] []]; try reflexivity; exfalso; now apply Hne.
Qed.

Lemma replace_go_ext (ma : string -> option nat) (e1 e2 : string -> string -> string -> string)
    (fuel : nat) (before s : string) :
  (forall m b a, e1 m b a = e2 m b a) ->
  Regex.replace_go ma e1 fuel before s = Regex.replace_go ma e2 fuel before s.
Proof.
  intros He. revert before s; induction fuel as [|f IH]; intros before s; [reflexivity|].
  simpl. destruct s as [|c r]; [reflexivity|].
  destruct (ma (String c r)) as [[|n]|]; rewrite ?He, ?IH; reflexivity.
Qed.

(** C8. When no supplied value contains "$", [substituteVariables]
    replaces each case-insensitive occurrence of [{{name}}] with the
    value itself, as the specification describes. *)
Theorem substituteVariables_literal_without_dollar (prompt : string)
    (values : list (string * string)) :
  Forall (fun nv => no_dollar (snd nv) = true) values ->
  substituteVariables prompt values = substituteVariables_spec prompt values.
Proof.
  unfold substituteVariables, substituteVariables_spec.
  revert prompt; induction values as [|[variable value] values IH]; intros prompt H;
    [reflexivity|].
  inversion H as [|? ? Hv Hr]; subst. simpl in Hv |- *.
  rewrite IH by exact Hr. f_equal.
  unfold Regex.replace_all. apply replace_go_ext.
  intros. now apply expandReplacement_no_dollar.
Qed.

Lemma substituteVariables_literal_without_dollar_witness :
  substituteVariables "Hello {{name}}" [("name", "World")]
    = substituteVariables_spec "Hello {{name}}" [("name", "World")] /\
  substituteVariables "Hello {{name}}" [("name", "World")] = "Hello World" /\
  substituteVariables "Hello {{NAME}}" [("name", "World")] = "Hello World".
Proof.
  split; [|split; vm_compute; reflexivity].
  apply substituteVariables_literal_without_dollar.
  repeat constructor.
Defined.

(** C8 (failing input). A value is used as a [replace] pattern string, not
    as text: "$&" puts the placeholder back and "$$" becomes "$". *)
Theorem substituteVariables_dollar_pattern :
  substituteVariables "Hello {{name}}" [("name", "$&")] = "Hello {{name}}" /\
  substituteVariables_spec "Hello {{name}}" [("name", "$&")] = "Hello $&" /\
  substituteVariables "Run {{selection}}" [("selection", "echo $$")] = "Run echo $" /\
  substituteVariables_spec "Run {{selection}}" [("selection", "echo $$")]
    = "Run echo $$".
Proof. repeat split; vm_compute; reflexivity. Qed.

(* ------------------------------------------------------------------ *)
(** ** The [usePrompt] command *)

Lemma promptForCustomVariables_cancel (variables : list string) (c : VariableContext)
    (ask : InputBox) (v : string) :
  In v variables -> getPredefinedVariable v c = None ->
  ask v (getDefaultValueForVariable v) = None ->
  promptForCustomVariables variables c ask
    = Throws "Variable substitution cancelled by user".
Proof.
  intros Hin Hpre Hask. unfold promptForCustomVariables. generalize (@nil (string * string)).
  induction variables as [|w vs IH]; intros acc; [destruct Hin|].
  simpl. destruct Hin as [<-|Hin].
  - now rewrite Hpre, Hask.
  - destruct (getPredefinedVariable w c);
      [|destruct (ask w (getDefaultValueForVariable w)); [|reflexivity]];
      now rewrite (IH Hin).
Qed.

(** C9. If the user dismisses the input box of a variable the prompt
    asks for, [promptForCustomVariables] throws the cancellation error and
    [usePrompt] copies nothing and leaves the library (recent prompts and
    favorites included) as it was, showing the cancellation warning and
    the copy failure. *)
Theorem usePrompt_cancel_keeps_state (st : Library) (entry : PromptEntry)
    (c : VariableContext) (ask : InputBox) (clipboard p v : string) :
  e_prompt entry = Some p -> p <> EmptyString ->
  In v (extractVariables p) -> getPredefinedVariable v c = None ->
  ask v (getDefaultValueForVariable v) = None ->
  promptForCustomVariables (extractVariables p) c ask
    = Throws "Variable substitution cancelled by user" /\
  usePrompt st entry c ask clipboard
    = (st, clipboard,
       [ShowWarning "Variable substitution cancelled. Prompt not copied.";
        ShowError "Failed to copy prompt to clipboard. Please try again."]).
Proof.
  intros Hp Hne Hin Hpre Hask.
  pose proof (promptForCustomVariables_cancel _ c ask v Hin Hpre Hask) as Hc.
  split; [exact Hc|].
  unfold usePrompt. rewrite Hp. unfold truthy.
  destruct (String.eqb_spec p EmptyString) as [E|_]; [contradiction|]. simpl negb.
  cbv iota beta zeta. unfold copyPromptToClipboard.
  destruct (extractVariables p) as [|w ws] eqn:Ev; [destruct Hin|].
  rewrite Hc. reflexivity.
Qed.

Lemma usePrompt_cancel_keeps_state_witness :
  promptForCustomVariables
      (extractVariables "Explain {{selection}} at {{level}} level")
      exampleVariableContext (fun _ _ => None)
    = Throws "Variable substitution cancelled by user" /\
  usePrompt exampleLibrary (convertPrompt exampleSystemCategory exampleGroup levelPrompt)
      exampleVariableContext (fun _ _ => None) "previous"
    = (exampleLibrary, "previous",
       [ShowWarning "Variable substitution cancelled. Prompt not copied.";
        ShowError "Failed to copy prompt to clipboard. Please try again."]).
Proof.
  apply (usePrompt_cancel_keeps_state exampleLibrary
           (convertPrompt exampleSystemCategory exampleGroup levelPrompt)
           exampleVariableContext (fun _ _ => None) "previous"
           "Explain {{selection}} at {{level}} level" "level");
    [reflexivity | discriminate | vm_compute; auto | reflexivity | reflexivity].
Defined.

(* ------------------------------------------------------------------ *)
(** ** Favorites, recent prompts and tags *)

Lemma rm_first_removeFirst (x : string) (l : list string) :
  (fix rm_first (l : list string) :=
     match l with
     | [] => []
     | y :: r => if String.eqb y x then r else y :: rm_first r
     end) l = removeFirst x l.
Proof. induction l as [|y r IH]; simpl; [reflexivity|]. now rewrite IH. Qed.

Lemma recent_addToRecent (st : Library) (id : string) :
  recentPrompts (userPreferences (addToRecent st id))
  = let rec := id :: removeFirst id (recentPrompts (userPreferences st)) in
    if Nat.ltb 10 (length rec) then firstn 10 rec else rec.
Proof. unfold addToRecent. simpl. now rewrite rm_first_removeFirst. Qed.

Lemma favorites_toggleFavorite (st : Library) (id : string) :
  favorites (userPreferences (toggleFavorite st id))
  = if existsb (String.eqb id) (favorites (userPreferences st))
    then removeFirst id (favorites (userPreferences st))
    else favorites (userPreferences st) ++ [id].
Proof.
  unfold toggleFavorite. simpl.
  destruct (existsb _ _); [apply rm_first_removeFirst | reflexivity].
Qed.

Lemma removeFirst_In (x y : string) (l : list string) :
  In y (removeFirst x l) -> In y l.
Proof.
  induction l as [|z r IH]; simpl; [tauto|].
  destruct (String.eqb z x); simpl; tauto.
Qed.

Lemma removeFirst_In_other (x y : string) (l : list string) :
  y <> x -> In y (removeFirst x l) <-> In y l.
Proof.
  intros Hne. induction l as [|z r IH]; simpl; [tauto|].
  destruct (String.eqb_spec z x) as [->|Hz]; simpl; rewrite ?IH; [|tauto].
  split; [tauto|]. intros [E|H]; [congruence | exact H].
Qed.

Lemma removeFirst_NoDup (x : string) (l : list string) :
  NoDup l -> NoDup (removeFirst x l) /\ ~ In x (removeFirst x l).
Proof.
  induction l as [|z r IH]; simpl; intros H; [split; [constructor | tauto]|].
  inversion H as [|? ? Hz Hr]; subst.
  destruct (String.eqb_spec z x) as [->|Hne].
  - split; assumption.
  - destruct (IH Hr) as [H1 H2]. split.
    + constructor; [|exact H1]. intros C. apply Hz, (removeFirst_In x), C.
    + intros [E|C]; [congruence | exact (H2 C)].
Qed.

Lemma removeFirst_not_In (x : string) (l : list string) :
  ~ In x l -> removeFirst x l = l.
Proof.
  induction l as [|z r IH]; simpl; intros H; [reflexivity|].
  destruct (String.eqb_spec z x) as [->|_]; [tauto|]. rewrite IH; tauto.
Qed.

Lemma existsb_eqb_In (x : string) (l : list string) :
  existsb (String.eqb x) l = true <-> In x l.
Proof.
  rewrite existsb_exists. split.
  - intros [y [Hy E]]. apply String.eqb_eq in E. now subst.
  - intros H. exists x. split; [exact H | apply String.eqb_refl].
Qed.

Lemma firstn_In {A : Type} (n : nat) (l : list A) (x : A) :
  In x (firstn n l) -> In x l.
Proof.
  intros H. rewrite <- (firstn_skipn n l). apply in_or_app. now left.
Qed.

Lemma firstn_NoDup {A : Type} (n : nat) (l : list A) : NoDup l -> NoDup (firstn n l).
Proof.
  revert l; induction n as [|n IH]; intros l H; [constructor|].
  destruct l as [|x r]; [constructor|]. simpl.
  inversion H as [|? ? Hx Hr]; subst. constructor; [|now apply IH].
  intros C. apply Hx. exact (firstn_In _ _ _ C).
Qed.

(** X1. After [addToRecent st id] the recent list starts with [id], has at
    most 10 entries, and holds no id that was not there before besides
    [id]. *)
Theorem addToRecent_front_bounded (st : Library) (id : string) :
  let r := recentPrompts (userPreferences (addToRecent st id)) in
  hd_error r = Some id /\ (length r <= 10)%nat /\
  (forall x, In x r -> x = id \/ In x (recentPrompts (userPreferences st))).
Proof.
  cbv zeta. rewrite recent_addToRecent. cbv zeta.
  set (rest := removeFirst id (recentPrompts (userPreferences st))).
  destruct (Nat.ltb_spec 10 (length (id :: rest))) as [Hlt|Hle].
  - split; [reflexivity|]. split; [rewrite length_firstn; lia|].
    intros x Hx. apply firstn_In in Hx. destruct Hx as [<-|Hx]; [now left|].
    right. exact (removeFirst_In _ _ _ Hx).
  - split; [reflexivity|]. split; [exact Hle|].
    intros x [<-|Hx]; [now left|]. right. exact (removeFirst_In _ _ _ Hx).
Qed.

(** X2. [addToRecent] keeps the recent list free of duplicates. *)
Theorem addToRecent_NoDup (st : Library) (id : string) :
  NoDup (recentPrompts (userPreferences st)) ->
  NoDup (recentPrompts (userPreferences (addToRecent st id))).
Proof.
  intros H. rewrite recent_addToRecent. cbv zeta.
  destruct (removeFirst_NoDup id _ H) as [H1 H2].
  assert (Hc : NoDup (id :: removeFirst id (recentPrompts (userPreferences st))))
    by (constructor; assumption).
  destruct (Nat.ltb _ _); [now apply firstn_NoDup | exact Hc].
Qed.

Lemma addToRecent_NoDup_witness :
  NoDup (recentPrompts (userPreferences (addToRecent exampleLibrary "5"))).
Proof. apply addToRecent_NoDup. vm_compute. constructor. Defined.

(** X3. Using the same prompt twice in a row leaves the library as using
    it once. *)
Theorem addToRecent_idempotent (st : Library) (id : string) :
  addToRecent (addToRecent st id) id = addToRecent st id.
Proof.
  assert (Hr := recent_addToRecent (addToRecent st id) id).
  assert (Hr1 := recent_addToRecent st id).
  set (r1 := recentPrompts (userPreferences (addToRecent st id))) in *.
  assert (Hhd : exists t, r1 = id :: t /\ (length r1 <= 10)%nat).
  { rewrite Hr1. cbv zeta.
    destruct (Nat.ltb_spec 10 (length (id :: removeFirst id (recentPrompts (userPreferences st))))).
    - eexists; split; [reflexivity|]. rewrite length_firstn. lia.
    - eexists; split; [reflexivity | assumption]. }
  destruct Hhd as [t [Ht Hlen]].
  rewrite Ht in Hr. simpl in Hr. rewrite String.eqb_refl in Hr.
  rewrite <- Ht in Hr. destruct (Nat.ltb_spec 10 (length r1)); [lia|].
  unfold addToRecent at 1. rewrite rm_first_removeFirst. fold r1.
  rewrite Ht. simpl removeFirst. rewrite String.eqb_refl. rewrite <- Ht.
  destruct (Nat.ltb_spec 10 (length r1)); [lia|].
  unfold addToRecent at 2. unfold with_prefs. simpl. reflexivity.
Qed.

Lemma toggleFavorite_eq (st : Library) (id : string) :
  toggleFavorite st id
  = with_prefs st
      {| favorites := if existsb (String.eqb id) (favorites (userPreferences st))
                      then removeFirst id (favorites (userPreferences st))
                      else favorites (userPreferences st) ++ [id];
         recentPrompts := recentPrompts (userPreferences st);
         searchHistory := searchHistory (userPreferences st) |}.
Proof.
  unfold toggleFavorite. destruct (existsb _ _); [|reflexivity].
  now rewrite rm_first_removeFirst.
Qed.

Lemma removeFirst_app_last (x : string) (l : list string) :
  ~ In x l -> removeFirst x (l ++ [x]) = l.
Proof.
  induction l as [|z r IH]; simpl; intros H; [now rewrite String.eqb_refl|].
  destruct (String.eqb_spec z x) as [->|_]; [tauto|]. rewrite IH; tauto.
Qed.

(** X4. Toggling an id that is not a favorite twice gives back the same
    library: it is appended, then removed. *)
Theorem toggleFavorite_twice (st : Library) (id : string) :
  ~ In id (favorites (userPreferences st)) ->
  toggleFavorite (toggleFavorite st id) id = st.
Proof.
  intros H. rewrite (toggleFavorite_eq st id).
  assert (E : existsb (String.eqb id) (favorites (userPreferences st)) = false).
  { destruct (existsb _ _) eqn:E; [|reflexivity]. apply existsb_eqb_In in E. tauto. }
  rewrite E. rewrite toggleFavorite_eq. simpl.
  assert (E2 : existsb (String.eqb id) (favorites (userPreferences st) ++ [id]) = true)
    by (apply existsb_eqb_In, in_or_app; simpl; tauto).
  rewrite E2, removeFirst_app_last by exact H.
  destruct st as [sf uf ps aps n [f r s]]. reflexivity.
Qed.

Lemma toggleFavorite_twice_witness :
  toggleFavorite (toggleFavorite exampleLibrary "5") "5" = exampleLibrary.
Proof. apply toggleFavorite_twice. simpl. tauto. Defined.

(** X5. On a duplicate-free favorites list, [toggleFavorite st id] flips
    whether [id] is a favorite, leaves every other id as it was, and keeps
    the list duplicate-free. *)
Theorem toggleFavorite_flips (st : Library) (id : string) :
  NoDup (favorites (userPreferences st)) ->
  isFavorite (toggleFavorite st id) id = negb (isFavorite st id) /\
  (forall x, x <> id -> isFavorite (toggleFavorite st id) x = isFavorite st x) /\
  NoDup (favorites (userPreferences (toggleFavorite st id))).
Proof.
  intros H. unfold isFavorite. rewrite toggleFavorite_eq. simpl.
  set (f := favorites (userPreferences st)).
  assert (Hb : forall x l, existsb (String.eqb x) l = true <-> In x l) by
    (intros; apply existsb_eqb_In).
  destruct (existsb (String.eqb id) f) eqn:E.
  - destruct (removeFirst_NoDup id f H) as [H1 H2].
    split; [|split; [|exact H1]].
    + destruct (existsb (String.eqb id) (removeFirst id f)) eqn:E'; [|reflexivity].
      apply Hb in E'. tauto.
    + intros x Hx. apply Bool.eq_iff_eq_true. rewrite !Hb.
      now apply removeFirst_In_other.
  - assert (Hn : ~ In id f) by (intros C; apply Hb in C; congruence).
    split; [|split].
    + apply Hb, in_or_app. simpl. tauto.
    + intros x Hx. apply Bool.eq_iff_eq_true. rewrite !Hb, in_app_iff. simpl.
      split; [intros [C|[C|[]]]; [exact C | congruence] | tauto].
    + apply NoDup_app; [exact H | repeat constructor; simpl; tauto |].
      intros x Hx [C|[]]. subst. tauto.
Qed.

Lemma toggleFavorite_flips_witness :
  isFavorite (toggleFavorite exampleLibrary "5") "5" = negb (isFavorite exampleLibrary "5") /\
  (forall x, x <> "5" ->
     isFavorite (toggleFavorite exampleLibrary "5") x = isFavorite exampleLibrary x) /\
  NoDup (favorites (userPreferences (toggleFavorite exampleLibrary "5"))).
Proof. apply toggleFavorite_flips. vm_compute. constructor. Defined.

Lemma setFromList_spec (l : list string) :
  NoDup (setFromList l) /\ (forall x, In x (setFromList l) <-> In x l).
Proof.
  unfold setFromList.
  assert (G : forall acc, NoDup acc ->
    NoDup (fold_left (fun acc x => if existsb (String.eqb x) acc then acc else acc ++ [x]) l acc)
    /\ forall x, In x (fold_left (fun acc x => if existsb (String.eqb x) acc
                                                then acc else acc ++ [x]) l acc)
                 <-> In x acc \/ In x l).
  { induction l as [|y r IH]; simpl; intros acc Hacc; [split; [exact Hacc | tauto]|].
    destruct (existsb (String.eqb y) acc) eqn:E.
    - apply existsb_eqb_In in E. destruct (IH acc Hacc) as [H1 H2].
      split; [exact H1|]. intros x. rewrite H2. split; [tauto|].
      intros [H|[<-|H]]; tauto.
    - assert (Hy : ~ In y acc) by (intros C; apply existsb_eqb_In in C; congruence).
      assert (Hacc' : NoDup (acc ++ [y])).
      { apply NoDup_app; [exact Hacc | repeat constructor; simpl; tauto |].
        intros x Hx [C|[]]; subst; tauto. }
      destruct (IH _ Hacc') as [H1 H2]. split; [exact H1|].
      intros x. rewrite H2, in_app_iff. simpl. tauto. }
  destruct (G [] (NoDup_nil _)) as [H1 H2]. split; [exact H1|].
  intros x. rewrite H2. simpl. tauto.
Qed.

Lemma insertString_perm (x : string) (l : list string) :
  Permutation (insertString x l) (x :: l).
Proof.
  induction l as [|y r IH]; simpl; [reflexivity|].
  destruct (String.leb x y); [reflexivity|].
  rewrite IH. apply perm_swap.
Qed.

Lemma sortStrings_perm (l : list string) : Permutation (sortStrings l) l.
Proof.
  induction l as [|x r IH]; simpl; [reflexivity|].
  rewrite insertString_perm. now apply perm_skip.
Qed.

Lemma insertString_sorted (x : string) (l : list string) :
  Sorted (fun a b => String.leb a b = true) l ->
  Sorted (fun a b => String.leb a b = true) (insertString x l).
Proof.
  induction l as [|y r IH]; simpl; intros H; [repeat constructor|].
  destruct (String.leb x y) eqn:E; [constructor; [exact H | now constructor]|].
  assert (Hyx : String.leb y x = true)
    by (destruct (String.leb_total x y); [congruence | assumption]).
  inversion H as [|? ? Hr Hhd]; subst. constructor; [now apply IH|].
  destruct r as [|z r']; simpl; [now constructor|].
  destruct (String.leb x z); constructor; [exact Hyx|].
  now inversion Hhd.
Qed.

Lemma sortStrings_sorted (l : list string) :
  Sorted (fun a b => String.leb a b = true) (sortStrings l).
Proof.
  induction l as [|x r IH]; simpl; [constructor | now apply insertString_sorted].
Qed.

(** X6. [getAllTags] lists every tag of every prompt, each once, in
    ascending order, and nothing else. *)
Theorem getAllTags_spec (st : Library) :
  NoDup (getAllTags st) /\
  Sorted (fun a b => String.leb a b = true) (getAllTags st) /\
  (forall t, In t (getAllTags st) <-> exists p, In p (allPrompts st) /\ In t (p_tags p)).
Proof.
  unfold getAllTags.
  destruct (setFromList_spec (flat_map p_tags (allPrompts st))) as [H1 H2].
  pose proof (sortStrings_perm (setFromList (flat_map p_tags (allPrompts st)))) as Hp.
  split; [exact (Permutation_NoDup (Permutation_sym Hp) H1)|].
  split; [apply sortStrings_sorted|].
  intros t. split.
  - intros Ht. apply (Permutation_in _ Hp), H2, in_flat_map in Ht.
    destruct Ht as [p [Hp1 Hp2]]. now exists p.
  - intros [p [Hp1 Hp2]]. apply (Permutation_in _ (Permutation_sym Hp)), H2, in_flat_map.
    now exists p.
Qed.

(* ------------------------------------------------------------------ *)
(** *** Looking up, removing and numbering nodes of the tree *)

Lemma find_first_split {A : Type} (f : A -> bool) (l : list A) (x : A) :
  find f l = Some x ->
  exists l1 l2, l = l1 ++ x :: l2 /\ f x = true /\ forall y, In y l1 -> f y = false.
Proof.
  induction l as [|a r IH]; simpl; [discriminate|]. destruct (f a) eqn:E.
  - intros H. injection H as <-. exists [], r. repeat split; auto. intros y [].
  - intros H. destruct (IH H) as (l1 & l2 & -> & Hx & Hl1).
    exists (a :: l1), l2. repeat split; auto. intros y [<-|Hy]; auto.
Qed.

(** X7. [findById] returns the first node, in depth-first pre-order, whose
    id is the one asked for; it returns [null] exactly when no node of the
    forest has that id. *)
Theorem findById_first_preorder (es : list PromptEntry) (id : string) :
  (forall e, findById es id = Some e ->
     e_id e = id /\
     exists l1 l2, flatten es = l1 ++ e :: l2 /\ forall y, In y l1 -> e_id y <> id) /\
  (findById es id = None <-> forall y, In y (flatten es) -> e_id y <> id).
Proof.
  rewrite findById_find. split; [|split].
  - intros e H. destruct (find_first_split _ _ _ H) as (l1 & l2 & Heq & He & Hl1).
    unfold has_id in He. apply String.eqb_eq in He. split; [exact He|].
    exists l1, l2. split; [exact Heq|]. intros y Hy Hid.
    specialize (Hl1 y Hy). unfold has_id in Hl1. rewrite Hid, String.eqb_refl in Hl1.
    discriminate.
  - intros H y Hy Hid. pose proof (find_none_in _ _ _ H Hy) as Hf.
    unfold has_id in Hf. rewrite Hid, String.eqb_refl in Hf. discriminate.
  - intros H. destruct (find (has_id id) (flatten es)) as [e|] eqn:E; [|reflexivity].
    apply find_some_in in E as [Hin Hf]. apply String.eqb_eq in Hf.
    exfalso. exact (H e Hin Hf).
Qed.

Lemma keep_some_flatten_in (id : string) (l : list PromptEntry) (y : PromptEntry) :
  In y (flatten (keep_some (removeById_entry id) l)) ->
  exists c c', In c l /\ removeById_entry id c = Some c' /\ In y (flatten_entry c').
Proof.
  induction l as [|c r IH]; simpl; [intros []|].
  destruct (removeById_entry id c) as [c'|] eqn:E.
  - unfold flatten; simpl. intros Hy. apply in_app_or in Hy as [Hy|Hy].
    + exists c, c'. auto.
    + destruct (IH Hy) as (d & d' & ? & ? & ?). exists d, d'. auto.
  - intros Hy. destruct (IH Hy) as (d & d' & ? & ? & ?). exists d, d'. auto.
Qed.

Lemma removeById_entry_absent (id : string) (e : PromptEntry) :
  forall e' y, removeById_entry id e = Some e' -> In y (flatten_entry e') -> e_id y <> id.
Proof.
  induction e as [e IH] using entry_rect'.
  destruct e as [eid ? ? ? ? ? ch ? ? ?]; cbn [removeById_entry e_children] in *.
  intros e' y H Hy. destruct (String.eqb_spec eid id) as [_|Hne]; [discriminate|].
  injection H as <-. rewrite flatten_entry_eq in Hy. destruct Hy as [<-|Hy]; [exact Hne|].
  destruct ch as [ch|]; cbn in Hy; [|contradiction].
  apply keep_some_flatten_in in Hy as (c & c' & Hc & Hr & Hy).
  rewrite Forall_forall in IH. exact (IH c Hc c' y Hr Hy).
Qed.

Lemma keep_some_all {A : Type} (f : A -> option A) (l : list A) :
  Forall (fun c => f c = Some c) l -> keep_some f l = l.
Proof. induction 1 as [|c r Hc _ IH]; simpl; [reflexivity|]. now rewrite Hc, IH. Qed.

Lemma removeById_entry_noop (id : string) (e : PromptEntry) :
  (forall y, In y (flatten_entry e) -> e_id y <> id) -> removeById_entry id e = Some e.
Proof.
  induction e as [e IH] using entry_rect'.
  intros H. rewrite flatten_entry_eq in H.
  destruct e as [eid ? ? ? ? ? ch ? ? ?]; cbn [removeById_entry e_children e_id opt_list] in *.
  destruct (String.eqb_spec eid id) as [Heq|_].
  { exfalso. exact (H _ (or_introl eq_refl) Heq). }
  destruct ch as [ch|]; [|reflexivity].
  rewrite keep_some_all; [reflexivity|].
  rewrite Forall_forall in IH |- *. intros c Hc. apply IH; [exact Hc|].
  intros y Hy. apply H. right. unfold flatten. apply in_flat_map. eauto.
Qed.

(** X8. After [removeById] no node of the forest has the removed id; when
    no node had it, [removeById] returns the forest unchanged. *)
Theorem removeById_spec (es : list PromptEntry) (id : string) :
  (forall y, In y (flatten (removeById es id)) -> e_id y <> id) /\
  ((forall y, In y (flatten es) -> e_id y <> id) -> removeById es id = es).
Proof.
  split.
  - intros y Hy. apply keep_some_flatten_in in Hy as (c & c' & _ & Hr & Hy).
    exact (removeById_entry_absent id c c' y Hr Hy).
  - intros H. unfold removeById. apply keep_some_all. apply Forall_forall.
    intros c Hc. apply removeById_entry_noop. intros y Hy. apply H.
    unfold flatten. apply in_flat_map. eauto.
Qed.

(** X9. [getMaxId] is at least 0, at least every id that [parseInt]
    reads as a number, and it is either 0 or the number read from the id of
    some node of the forest. *)
Theorem getMaxId_spec (es : list PromptEntry) :
  JS.leb (JS.Finite 0) (getMaxId es) = true /\
  (forall y k, In y (flatten es) -> JS.parseInt (e_id y) = Some k ->
               JS.leb k (getMaxId es) = true) /\
  (getMaxId es = JS.Finite 0 \/
   exists y, In y (flatten es) /\ JS.parseInt (e_id y) = Some (getMaxId es)).
Proof.
  destruct (getMaxId_bound es) as [H0 Hb]. split; [exact H0|]. split; [exact Hb|].
  apply getMaxId_attained.
Qed.

(** X10. After [loadPrompts], when every numeric id of the loaded tree is
    below [2^53 - 1], [nextId] is an integer of at least 1 and the id
    [generateId] hands out next, [String(nextId)], is the id of no node of
    the loaded tree. *)
Theorem loadPrompts_nextId_fresh (st : Library) :
  (forall y k, In y (flatten (prompts (loadPrompts st))) -> JS.parseInt (e_id y) = Some k ->
               JS.ltb k (JS.Finite (2 ^ 53 - 1)) = true) ->
  exists n, nextId (loadPrompts st) = JS.Finite n /\ (1 <= n)%Z /\
  forall y, In y (flatten (prompts (loadPrompts st))) ->
            e_id y <> JS.numberToString (nextId (loadPrompts st)).
Proof.
  intros Hsafe. unfold loadPrompts in *.
  destruct (loadUserCategories (userFile st)) as [uf usr]. cbn in *.
  set (es := convertJsonToEntries _) in *.
  destruct (getMaxId_safe es Hsafe) as [m [Hm Hr]].
  destruct (getMaxId_bound es) as [_ Hb].
  rewrite Hm. unfold JS.succ. rewrite ofZ_exact by lia.
  exists (m + 1)%Z. split; [reflexivity|]. split; [lia|].
  intros y Hy Hid. assert (Hp : JS.parseInt (e_id y) = Some (JS.Finite (m + 1))).
  { rewrite Hid. apply parseInt_numberToString. lia. }
  specialize (Hb y _ Hy Hp). rewrite Hm in Hb. apply num_leb_finite in Hb. lia.
Qed.
(** X10, at the library built from the example files. *)
Lemma loadPrompts_nextId_fresh_witness :
  (forall y k, In y (flatten (prompts (loadPrompts exampleLibrary))) ->
               JS.parseInt (e_id y) = Some k -> JS.ltb k (JS.Finite (2 ^ 53 - 1)) = true) /\
  exists n, nextId (loadPrompts exampleLibrary) = JS.Finite n /\ (1 <= n)%Z /\
  forall y, In y (flatten (prompts (loadPrompts exampleLibrary))) ->
            e_id y <> JS.numberToString (nextId (loadPrompts exampleLibrary)).
Proof.
  assert (Hsafe : forall y k, In y (flatten (prompts (loadPrompts exampleLibrary))) ->
                  JS.parseInt (e_id y) = Some k -> JS.ltb k (JS.Finite (2 ^ 53 - 1)) = true).
  { intros y k Hy Hk. vm_compute in Hy.
    repeat (destruct Hy as [<-|Hy];
            [vm_compute in Hk; first [discriminate | injection Hk as <-; reflexivity]|]).
    destruct Hy. }
  split; [exact Hsafe|]. exact (loadPrompts_nextId_fresh exampleLibrary Hsafe).
Defined.


(** X11. Reading a tree built by [convertJsonToEntries] back with
    [convertEntriesToCategories] gives the same categories, groups and
    prompts in the same order, with the same kinds, ids, labels, texts and
    tags; only the prompts' evaluations are dropped. *)
Theorem convertEntriesToCategories_roundtrip (cats : list PromptCategory) :
  convertEntriesToCategories (convertJsonToEntries cats) = map dropEvaluations cats.
Proof.
  unfold convertEntriesToCategories, convertJsonToEntries.
  rewrite filter_all.
  2:{ intros x Hx. apply in_map_iff in Hx as [c [<- _]]. reflexivity. }
  rewrite map_map. apply map_ext. intros c. unfold dropEvaluations. simpl. f_equal.
  rewrite filter_all.
  2:{ intros x Hx. apply in_map_iff in Hx as [g [<- _]]. reflexivity. }
  rewrite map_map. apply map_ext. intros g. unfold entryToGroup, normGroup. simpl. f_equal.
  rewrite filter_all.
  2:{ intros x Hx. apply in_map_iff in Hx as [q [<- _]]. reflexivity. }
  rewrite map_map. reflexivity.
Qed.

(* ------------------------------------------------------------------ *)
(** *** What [getRootEntries] shows of a loaded tree *)

Lemma fold_sum_shift {A : Type} (f : A -> nat) (l : list A) (a : nat) :
  fold_left (fun s x => (s + f x)%nat) l a = (a + list_sum (map f l))%nat.
Proof.
  revert a. induction l as [|x r IH]; intros a; simpl; [lia|]. rewrite IH. lia.
Qed.

Lemma getChildPromptCount_convertGroup (c : PromptCategory) (g : PromptGroup) :
  getChildPromptCount (convertGroup c g) = length (g_prompts g).
Proof.
  unfold convertGroup. cbn [getChildPromptCount PromptNodeType_eqb].
  rewrite fold_sum_shift, map_map. simpl.
  induction (g_prompts g) as [|p ps IH]; simpl; [reflexivity|]. now rewrite IH.
Qed.

(** X12. For categories read from JSON, the total that [getRootEntries]
    puts in the ["System Prompts (n)"] label, the sum of
    [getChildPromptCount] over the category nodes, is the number of prompts
    the categories hold. *)
Theorem totalPromptCount_convert (cats : list PromptCategory) :
  totalPromptCount (convertJsonToEntries cats) = length (extractAllPrompts cats).
Proof.
  unfold totalPromptCount, convertJsonToEntries, extractAllPrompts.
  rewrite fold_sum_shift, map_map. simpl.
  induction cats as [|c cs IH]; simpl; [reflexivity|]. rewrite IH, length_app. f_equal.
  unfold convertCategory. cbn [getChildPromptCount PromptNodeType_eqb].
  rewrite fold_sum_shift, map_map.
  rewrite (map_ext _ (fun g => length (g_prompts g)) (getChildPromptCount_convertGroup c)).
  simpl. induction (c_groups c) as [|g gs IHg]; simpl; [reflexivity|].
  rewrite IHg, length_app. reflexivity.
Qed.

Lemma extractAllUserPrompts_prompts (grp : PromptEntry) (c : PromptCategory) (g : PromptGroup)
  (ps : list Prompt) :
  flat_map (fun child =>
              if isType TPrompt child then [contextualPrompt grp child]
              else match e_children child with
                   | Some _ => extractAllUserPrompts_entry child
                   | None => []
                   end) (map (convertPrompt c g) ps) =
  map (fun p => contextualPrompt grp (convertPrompt c g p)) ps.
Proof. induction ps as [|p ps IH]; [reflexivity|]. cbn [map flat_map]. now rewrite IH. Qed.

Lemma extractAllUserPrompts_convertGroup (c : PromptCategory) (g : PromptGroup) :
  extractAllUserPrompts_entry (convertGroup c g) =
  map (fun p => contextualPrompt (convertGroup c g) (convertPrompt c g p)) (g_prompts g).
Proof.
  unfold convertGroup at 1. cbn [extractAllUserPrompts_entry].
  apply (extractAllUserPrompts_prompts (convertGroup c g)).
Qed.

Lemma extractAllUserPrompts_groups (cat : PromptEntry) (c : PromptCategory) (gs : list PromptGroup) :
  flat_map (fun child =>
              if isType TPrompt child then [contextualPrompt cat child]
              else match e_children child with
                   | Some _ => extractAllUserPrompts_entry child
                   | None => []
                   end) (map (convertGroup c) gs) =
  flat_map (fun g => map (fun p => contextualPrompt (convertGroup c g) (convertPrompt c g p))
                         (g_prompts g)) gs.
Proof.
  induction gs as [|g gs IH]; [reflexivity|]. cbn [map flat_map]. rewrite IH. f_equal.
  change (isType TPrompt (convertGroup c g)) with false.
  change (e_children (convertGroup c g)) with (Some (map (convertPrompt c g) (g_prompts g))).
  cbv beta iota. apply extractAllUserPrompts_convertGroup.
Qed.

Lemma extractAllUserPrompts_convertCategory (c : PromptCategory) :
  extractAllUserPrompts_entry (convertCategory c) =
  flat_map (fun g => map (fun p => contextualPrompt (convertGroup c g) (convertPrompt c g p))
                         (g_prompts g)) (c_groups c).
Proof. unfold convertCategory. cbn [extractAllUserPrompts_entry]. apply extractAllUserPrompts_groups. Qed.

Lemma flat_map_map_comp {A B C : Type} (f : B -> list C) (g : A -> B) (l : list A) :
  flat_map f (map g l) = flat_map (fun x => f (g x)) l.
Proof. induction l as [|x r IH]; simpl; congruence. Qed.

(** X13. For categories read from JSON, [extractAllUserPrompts] lists
    every prompt once, in file order. Each listed node keeps the prompt's
    id, label and text, and its tags are the prompt's tags followed by the
    tag made from the label of its group. *)
Theorem extractAllUserPrompts_convert (cats : list PromptCategory) :
  map e_id (extractAllUserPrompts (convertJsonToEntries cats)) = map p_id (extractAllPrompts cats) /\
  forall x, In x (extractAllUserPrompts (convertJsonToEntries cats)) ->
    exists c g p, In c cats /\ In g (c_groups c) /\ In p (g_prompts g) /\
      e_id x = p_id p /\ e_label x = p_label p /\ e_prompt x = p_prompt p /\
      e_type x = TPrompt /\ e_tags x = Some (p_tags p ++ [categoryTag (g_label g)]).
Proof.
  unfold extractAllUserPrompts, convertJsonToEntries, extractAllPrompts.
  rewrite flat_map_map_comp.
  rewrite (flat_map_ext _ _ extractAllUserPrompts_convertCategory). split.
  - rewrite !flat_map_concat_map, !concat_map, !map_map. f_equal. apply map_ext. intros c.
    rewrite !flat_map_concat_map, !concat_map, !map_map. f_equal. apply map_ext. intros g.
    rewrite !map_map. reflexivity.
  - intros x Hx. apply in_flat_map in Hx as (c & Hc & Hx).
    apply in_flat_map in Hx as (g & Hg & Hx). apply in_map_iff in Hx as (p & <- & Hp).
    exists c, g, p. repeat split; assumption.
Qed.

Lemma lower_char_idem (c : ascii) : JS.lower_char (JS.lower_char c) = JS.lower_char c.
Proof. destruct c as [[] [] [] [] [] [] [] []]; reflexivity. Qed.

Lemma is_ws_lower_char (c : ascii) : JS.is_ws (JS.lower_char c) = JS.is_ws c.
Proof. destruct c as [[] [] [] [] [] [] [] []]; reflexivity. Qed.

Lemma toLowerCase_get (s : string) (n : nat) (c : ascii) :
  String.get n (JS.toLowerCase s) = Some c -> exists d, c = JS.lower_char d.
Proof.
  revert n. induction s as [|a s IH]; intros [|n]; simpl; try discriminate.
  - intros H. injection H as <-. eauto.
  - apply IH.
Qed.

Lemma replace_spaces_get (b : bool) (s : string) (n : nat) (c : ascii) :
  String.get n (replace_spaces b s) = Some c ->
  c = "-"%char \/ (JS.is_ws c = false /\ exists m, String.get m s = Some c).
Proof.
  revert b n. induction s as [|a s IH]; intros b n; simpl; [destruct n; discriminate|].
  destruct (JS.is_ws a) eqn:Ea; [destruct b|].
  - intros H. destruct (IH true n H) as [?|[? [m ?]]]; [now left|]. right. split; [assumption|].
    now exists (S m).
  - destruct n as [|n]; simpl; [intros H; injection H as <-; now left|].
    intros H. destruct (IH true n H) as [?|[? [m ?]]]; [now left|]. right. split; [assumption|].
    now exists (S m).
  - destruct n as [|n]; simpl.
    + intros H. injection H as <-. right. split; [assumption|]. now exists 0%nat.
    + intros H. destruct (IH false n H) as [?|[? [m ?]]]; [now left|]. right.
      split; [assumption|]. now exists (S m).
Qed.

Lemma replace_spaces_nospace (b : bool) (s : string) :
  (forall n c, String.get n s = Some c -> JS.is_ws c = false) -> replace_spaces b s = s.
Proof.
  revert b. induction s as [|a s IH]; intros b H; simpl; [reflexivity|].
  rewrite (H 0%nat a eq_refl). f_equal. apply IH. intros n c Hc. exact (H (S n) c Hc).
Qed.

Lemma toLowerCase_replace_spaces (b : bool) (s : string) :
  JS.toLowerCase (replace_spaces b s) = replace_spaces b (JS.toLowerCase s).
Proof.
  revert b. induction s as [|a s IH]; intros b; simpl; [reflexivity|].
  rewrite is_ws_lower_char. destruct (JS.is_ws a), b; simpl; now rewrite IH.
Qed.

Lemma toLowerCase_idem (s : string) : JS.toLowerCase (JS.toLowerCase s) = JS.toLowerCase s.
Proof. induction s as [|a s IH]; simpl; [reflexivity|]. now rewrite lower_char_idem, IH. Qed.

(** X14. The tag [extractAllUserPrompts] makes from a label
    ([label.toLowerCase().replace(/\s+/g, '-')]) holds no white space and
    no upper-case letter, so making a tag from a tag gives it back. *)
Theorem categoryTag_normal (label : string) :
  (forall n c, String.get n (categoryTag label) = Some c ->
     JS.is_ws c = false /\ JS.lower_char c = c) /\
  categoryTag (categoryTag label) = categoryTag label.
Proof.
  assert (H : forall n c, String.get n (categoryTag label) = Some c ->
                JS.is_ws c = false /\ JS.lower_char c = c).
  { intros n c Hc. unfold categoryTag in Hc.
    destruct (replace_spaces_get _ _ _ _ Hc) as [->|[Hs [m Hm]]]; [split; reflexivity|].
    split; [exact Hs|]. destruct (toLowerCase_get _ _ _ Hm) as [d ->]. apply lower_char_idem. }
  split; [exact H|].
  unfold categoryTag at 1. unfold categoryTag at 1.
  rewrite toLowerCase_replace_spaces, toLowerCase_idem.
  apply replace_spaces_nospace. intros n c Hc. exact (proj1 (H n c Hc)).
Qed.

(* ------------------------------------------------------------------ *)
(** *** The search filter of the tree view *)

Lemma keep_some_nil {A B : Type} (f : A -> option B) (l : list A) :
  keep_some f l = [] <-> forall x, In x l -> f x = None.
Proof.
  induction l as [|x r IH]; simpl; [split; [intros _ y []|reflexivity]|].
  destruct (f x) as [y|] eqn:E; split.
  - discriminate.
  - intros H. rewrite (H x (or_introl eq_refl)) in E. discriminate.
  - intros H y [<-|Hy]; [exact E|]. now apply IH.
  - intros H. apply IH. intros y Hy. apply H. now right.
Qed.

Lemma keep_some_idem {A : Type} (f : A -> option A) (l : list A) :
  (forall x y, In x l -> f x = Some y -> f y = Some y) ->
  keep_some f (keep_some f l) = keep_some f l.
Proof.
  induction l as [|x r IH]; simpl; intros H; [reflexivity|].
  destruct (f x) as [y|] eqn:E.
  - simpl. rewrite (H x y (or_introl eq_refl) E). f_equal. apply IH. eauto.
  - apply IH. eauto.
Qed.

Lemma filterBySearch_item_idem (q : string) (e : PromptEntry) :
  forall e', filterBySearch_item q e = Some e' -> filterBySearch_item q e' = Some e'.
Proof.
  induction e as [e IH] using entry_rect'.
  destruct e as [eid lab ty ct pr tg ch par cid ev]; cbn [e_children] in IH.
  intros e' H. cbn [filterBySearch_item] in H.
  destruct (matchesQuery (JS.toLowerCase q) (mkEntry eid lab ty ct pr tg ch par cid ev)) eqn:M.
  - injection H as <-. cbn [filterBySearch_item]. now rewrite M.
  - destruct ch as [ch|]; [|discriminate].
    destruct (keep_some (filterBySearch_item q) ch) as [|c cs] eqn:K; [discriminate|].
    injection H as <-. cbn [set_children e_id e_label e_type e_categoryType e_prompt e_tags
                             e_parentId e_categoryId e_evaluation filterBySearch_item].
    unfold matchesQuery in M |- *. cbn [e_label e_prompt e_tags] in M |- *. rewrite M.
    rewrite <- K, keep_some_idem, K; [reflexivity|].
    rewrite Forall_forall in IH. intros x y Hx Hy. exact (IH x Hx y Hy).
Qed.

(** X15. [filterBySearch] with the empty query returns the items
    unchanged, and filtering an already filtered list again with the same
    query changes nothing. *)
Theorem filterBySearch_empty_idempotent (items : list PromptEntry) (query : string) :
  filterBySearch items "" = items /\
  filterBySearch (filterBySearch items query) query = filterBySearch items query.
Proof.
  split.
  - unfold filterBySearch. apply keep_some_all. apply Forall_forall. intros [? ? ? ? ? ? ? ? ? ?] _.
    cbn [filterBySearch_item]. unfold matchesQuery. cbn [JS.toLowerCase e_label].
    now rewrite includes_empty.
  - unfold filterBySearch. apply keep_some_idem. intros x y _. apply filterBySearch_item_idem.
Qed.

(** X16. One item passes [filterBySearch] (as it is, or rebuilt with the
    filtered children) exactly when some node of its subtree matches the
    lower-cased query; an item that matches itself is kept unchanged,
    children included. *)
Theorem filterBySearch_item_spec (query : string) (x : PromptEntry) :
  (filterBySearch_item query x = None <->
   forall z, In z (flatten_entry x) -> matchesQuery (JS.toLowerCase query) z = false) /\
  (matchesQuery (JS.toLowerCase query) x = true -> filterBySearch_item query x = Some x).
Proof.
  split.
  2:{ destruct x as [? ? ? ? ? ? ? ? ? ?]. intros M. cbn [filterBySearch_item]. now rewrite M. }
  induction x as [x IH] using entry_rect'. rewrite flatten_entry_eq.
  destruct x as [eid lab ty ct pr tg ch par cid ev]; cbn [e_children opt_list] in *.
  cbn [filterBySearch_item].
  set (x := mkEntry eid lab ty ct pr tg ch par cid ev).
  destruct (matchesQuery (JS.toLowerCase query) x) eqn:M.
  { split; [discriminate|]. intros H. rewrite (H x (or_introl eq_refl)) in M. discriminate. }
  assert (Hch : (forall z, In z (flatten (opt_list ch)) ->
                   matchesQuery (JS.toLowerCase query) z = false) <->
                (forall z, In z (x :: flatten (opt_list ch)) ->
                   matchesQuery (JS.toLowerCase query) z = false)).
  { split; [intros H z [<-|Hz]; auto|intros H z Hz; apply H; now right]. }
  rewrite <- Hch. clear Hch.
  destruct ch as [ch|]; cbn [opt_list] in *.
  2:{ split; [intros _ z []|reflexivity]. }
  transitivity (keep_some (filterBySearch_item query) ch = []).
  { destruct (keep_some (filterBySearch_item query) ch); split; congruence. }
  rewrite keep_some_nil, Forall_forall in *. split.
  - intros H z Hz. unfold flatten in Hz. apply in_flat_map in Hz as (c & Hc & Hz).
    exact (proj1 (IH c Hc) (H c Hc) z Hz).
  - intros H c Hc. apply (proj2 (IH c Hc)). intros z Hz. apply H.
    unfold flatten. apply in_flat_map. eauto.
Qed.

(* ------------------------------------------------------------------ *)
(** *** What the relevance ranking returns *)

(** X17. When the usage count read for a prompt's id is a number, the
    usage block of [calculateRelevanceScore] adds between 0 and 5 points
    and the score is at least 1: the scorer starts from 1 and every other
    block only adds. When it is not (an id naming a member of
    [Object.prototype], with no stored count), the usage block and the
    score are [NaN]. *)
Theorem calculateRelevanceScore_ge_1 (an : UsageAnalytics) (p : PromptEntry)
    (ctx : RelevanceContext) :
  if usageIsNumber an (e_id p)
  then exists u s, usageBonus an (e_id p) = Some u /\ 0 <= u <= 5 /\
                   calculateRelevanceScore an p ctx = Some s /\ 1 <= s
  else usageBonus an (e_id p) = None /\ calculateRelevanceScore an p ctx = None.
Proof. exact (relevanceScore_cases an p ctx). Qed.








(* ------------------------------------------------------------------ *)
(** *** Placeholders of a prompt and the values asked for them *)

Lemma str_app_assoc (a b c : string) : ((a ++ b) ++ c)%string = (a ++ b ++ c)%string.
Proof. induction a as [|x a IH]; simpl; congruence. Qed.

Lemma startsWith_self (w rest : string) : JS.startsWith (w ++ rest)%string w = true.
Proof. induction w as [|c w IH]; simpl; [now destruct rest|]. now rewrite Ascii.eqb_refl, IH. Qed.

Lemma includes_of_startsWith (s w : string) : JS.startsWith s w = true -> JS.includes s w = true.
Proof.
  intros H. destruct s as [|c s];
    [change (JS.startsWith EmptyString w || false = true)
    |change (JS.startsWith (String c s) w || JS.includes s w = true)]; now rewrite H.
Qed.

Lemma startsWith_split (s p : string) : JS.startsWith s p = true -> exists rest, s = (p ++ rest)%string.
Proof.
  revert s. induction p as [|c p IH]; intros s H; [now exists s|].
  destruct s as [|d s]; [discriminate|]. simpl in H. apply andb_true_iff in H as [Hc H].
  apply Ascii.eqb_eq in Hc as ->. destruct (IH s H) as [rest ->]. now exists rest.
Qed.

Lemma startsWith_app_inv (s w t : string) :
  JS.startsWith s (w ++ t)%string = true -> JS.startsWith s w = true.
Proof.
  revert s. induction w as [|c w IH]; intros s H; [now destruct s|].
  destruct s as [|d s]; [discriminate|]. simpl in *. apply andb_true_iff in H as [Hc H].
  rewrite Hc. now apply IH.
Qed.

Lemma includes_app_inv (s w t : string) :
  JS.includes s (w ++ t)%string = true -> JS.includes s w = true.
Proof.
  induction s as [|d s IH]; intros H.
  - destruct w as [|c w]; [apply includes_empty|]. simpl in H. discriminate.
  - change (JS.startsWith (String d s) (w ++ t) || JS.includes s (w ++ t) = true)%string in H.
    change (JS.startsWith (String d s) w || JS.includes s w = true).
    apply orb_true_iff in H as [H|H].
    + now rewrite (startsWith_app_inv _ _ _ H).
    + rewrite (IH H). apply orb_true_r.
Qed.

Lemma drop_suffix (n : nat) (s : string) : exists pre, s = (pre ++ Regex.drop n s)%string.
Proof.
  revert s. induction n as [|n IH]; intros s; [now exists EmptyString|].
  destruct s as [|c s]; [now exists EmptyString|]. simpl.
  destruct (IH s) as [pre Hpre]. exists (String c pre). simpl. now rewrite <- Hpre.
Qed.

Lemma word_prefix_split (r : string) :
  r = (word_prefix r ++ Regex.drop (String.length (word_prefix r)) r)%string.
Proof.
  induction r as [|c r IH]; simpl; [reflexivity|].
  destruct (is_word_char c); simpl; [now rewrite <- IH|reflexivity].
Qed.

Lemma word_prefix_chars (r : string) (n : nat) (c : ascii) :
  String.get n (word_prefix r) = Some c -> is_word_char c = true.
Proof.
  revert n. induction r as [|d r IH]; intros n; simpl; [destruct n; discriminate|].
  destruct (is_word_char d) eqn:E; [|destruct n; discriminate].
  destruct n as [|n]; simpl; [intros H; now injection H as <-|apply IH].
Qed.

Lemma variableMatches_S (f : nat) (a : ascii) (r : string) :
  variableMatches (S f) (String a r) =
  if Ascii.eqb a "{" then
    match r with
    | String b r' =>
        if Ascii.eqb b "{" then
          let w := word_prefix r' in
          if negb (String.eqb w EmptyString)
             && JS.startsWith (Regex.drop (String.length w) r') "}}"
          then w :: variableMatches f (Regex.drop (String.length w + 2)%nat r')
          else variableMatches f r
        else variableMatches f r
    | EmptyString => variableMatches f r
    end
  else variableMatches f r.
Proof.
  destruct a as [[] [] [] [] [] [] [] []]; try reflexivity.
  destruct r as [|b r]; [reflexivity|].
  destruct b as [[] [] [] [] [] [] [] []]; reflexivity.
Qed.

Lemma variableMatches_spec (fuel : nat) (s w : string) :
  In w (variableMatches fuel s) ->
  w <> EmptyString /\ (forall n c, String.get n w = Some c -> is_word_char c = true) /\
  JS.includes s ("{{" ++ w ++ "}}")%string = true.
Proof.
  revert s. induction fuel as [|f IH]; intros s Hw; [contradiction|].
  destruct s as [|a r]; [contradiction|].
  assert (Htail : In w (variableMatches f r) ->
            w <> EmptyString /\ (forall n c, String.get n w = Some c -> is_word_char c = true) /\
            JS.includes (String a r) ("{{" ++ w ++ "}}")%string = true).
  { intros H. destruct (IH r H) as (H1 & H2 & H3). repeat split; try assumption.
    exact (includes_app_r (String a EmptyString) r _ H3). }
  rewrite variableMatches_S in Hw.
  destruct (Ascii.eqb_spec a "{") as [->|_]; [|exact (Htail Hw)].
  destruct r as [|b r']; [exact (Htail Hw)|].
  destruct (Ascii.eqb_spec b "{") as [->|_]; [|exact (Htail Hw)].
  cbv zeta in Hw.
  destruct (negb (String.eqb (word_prefix r') EmptyString) &&
            JS.startsWith (Regex.drop (String.length (word_prefix r')) r') "}}") eqn:E;
    [|exact (Htail Hw)].
  apply andb_true_iff in E as [Hne Hst]. destruct Hw as [<-|Hw].
  - split; [intros C; rewrite C in Hne; discriminate|]. split; [apply word_prefix_chars|].
    destruct (startsWith_split _ _ Hst) as [rest Hrest].
    pose proof (word_prefix_split r') as Hsplit.
    remember (word_prefix r') as w eqn:Hw. rewrite Hrest in Hsplit. rewrite Hsplit.
    apply includes_of_startsWith.
    assert (E : String "{" (String "{" (w ++ "}}" ++ rest)) = (("{{" ++ w ++ "}}") ++ rest)%string)
      by (simpl; now rewrite str_app_assoc).
    rewrite E. apply startsWith_self.
  - destruct (IH _ Hw) as (H1 & H2 & H3). repeat split; try assumption.
    destruct (drop_suffix (String.length (word_prefix r') + 2) r') as [pre Hpre].
    rewrite Hpre. exact (includes_app_r "{{" _ _ (includes_app_r pre _ _ H3)).
Qed.

Lemma dedup_fold_spec (l acc : list string) :
  NoDup acc ->
  NoDup (fold_left (fun vars v => if existsb (String.eqb v) vars then vars else vars ++ [v]) l acc) /\
  forall x, In x (fold_left (fun vars v => if existsb (String.eqb v) vars then vars else vars ++ [v]) l acc)
            <-> In x acc \/ In x l.
Proof.
  revert acc. induction l as [|v l IH]; intros acc Hacc; simpl; [split; [exact Hacc|tauto]|].
  destruct (existsb (String.eqb v) acc) eqn:E.
  - apply existsb_eqb_In in E. destruct (IH acc Hacc) as [H1 H2]. split; [exact H1|].
    intros x. rewrite H2. split; [tauto|]. intros [H|[<-|H]]; tauto.
  - assert (Hn : ~ In v acc) by (intros C; apply existsb_eqb_In in C; congruence).
    assert (Hacc' : NoDup (acc ++ [v])).
    { apply NoDup_app; [exact Hacc|repeat constructor; auto|].
      intros x Hx [<-|[]]. exact (Hn Hx). }
    destruct (IH _ Hacc') as [H1 H2]. split; [exact H1|].
    intros x. rewrite H2, in_app_iff. simpl. tauto.
Qed.

(** X19. [extractVariables] returns each name at most once; every name it
    returns is a non-empty run of word characters ([\w]) and the prompt
    contains ["{{name}}"]. *)
Theorem extractVariables_spec (prompt : string) :
  NoDup (extractVariables prompt) /\
  forall v, In v (extractVariables prompt) ->
    v <> EmptyString /\ (forall n c, String.get n v = Some c -> is_word_char c = true) /\
    JS.includes prompt ("{{" ++ v ++ "}}")%string = true.
Proof.
  unfold extractVariables.
  destruct (dedup_fold_spec (variableMatches (S (String.length prompt)) prompt) [] (NoDup_nil _))
    as [H1 H2].
  split; [exact H1|]. intros v Hv. apply H2 in Hv as [[]|Hv].
  exact (variableMatches_spec _ _ _ Hv).
Qed.

Lemma setOwn_In (obj : StringRecord) (key value k x : string) :
  In (k, x) (setOwn obj key value) -> (k = key /\ x = value) \/ In (k, x) obj.
Proof.
  induction obj as [|[k0 v0] rest IH]; simpl.
  - intros [E|[]]. injection E as <- <-. now left.
  - destruct (String.eqb_spec k0 key) as [->|_]; simpl.
    + intros [E|H]; [injection E as <- <-; now left|tauto].
    + intros [E|H]; [tauto|]. destruct (IH H); tauto.
Qed.

Lemma setOwn_keeps (obj : StringRecord) (key value k x : string) :
  k <> key -> In (k, x) obj -> In (k, x) (setOwn obj key value).
Proof.
  intros Hne. induction obj as [|[k0 v0] rest IH]; simpl; [tauto|].
  destruct (String.eqb_spec k0 key) as [->|_]; simpl.
  - intros [E|H]; [injection E as <- _; contradiction|tauto].
  - intros [E|H]; [now left|right; now apply IH].
Qed.

Lemma setOwn_sets (obj : StringRecord) (key value : string) :
  In (key, value) (setOwn obj key value).
Proof.
  induction obj as [|[k0 v0] rest IH]; simpl; [now left|].
  destruct (String.eqb_spec k0 key) as [->|_]; simpl; tauto.
Qed.

Lemma setOwn_keys (obj : StringRecord) (key value k : string) :
  In k (map fst (setOwn obj key value)) <-> k = key \/ In k (map fst obj).
Proof.
  induction obj as [|[k0 v0] rest IH]; simpl; [intuition congruence|].
  destruct (String.eqb_spec k0 key) as [->|_]; simpl; rewrite ?IH; intuition congruence.
Qed.

Lemma setOwn_NoDup (obj : StringRecord) (key value : string) :
  NoDup (map fst obj) -> NoDup (map fst (setOwn obj key value)).
Proof.
  induction obj as [|[k0 v0] rest IH]; simpl; intros H.
  - constructor; [tauto|constructor].
  - inversion H as [|? ? Hn Hd]; subst.
    destruct (String.eqb_spec k0 key) as [->|Hne]; simpl; [now constructor|].
    constructor; [|now apply IH]. rewrite setOwn_keys. intros [E|E]; [congruence|tauto].
Qed.

(** What the object built by the loop holds, after the variables [done]. *)
Definition valuesFor (c : VariableContext) (ask : InputBox) (done : list string)
    (vals : StringRecord) : Prop :=
  NoDup (map fst vals) /\
  (forall v, In v done -> v <> "__proto__" -> exists x, In (v, x) vals) /\
  (forall v x, In (v, x) vals ->
     In v done /\ v <> "__proto__" /\
     (getPredefinedVariable v c = Some x \/
      (getPredefinedVariable v c = None /\ ask v (getDefaultValueForVariable v) = Some x))).

Lemma valuesFor_set (c : VariableContext) (ask : InputBox) (done : list string)
    (vals : StringRecord) (v x : string) :
  valuesFor c ask done vals ->
  (getPredefinedVariable v c = Some x \/
   (getPredefinedVariable v c = None /\ ask v (getDefaultValueForVariable v) = Some x)) ->
  valuesFor c ask (done ++ [v]) (setProperty vals v x).
Proof.
  intros (Hd & Hall & Hok) Hx. unfold setProperty.
  destruct (String.eqb_spec v "__proto__") as [Ep|Hp].
  - split; [exact Hd|]. split.
    + intros w Hw Hne. apply in_app_or in Hw as [Hw|[<-|[]]]; [now apply Hall|contradiction].
    + intros w y Hy. destruct (Hok w y Hy) as (Hw & Hne & Hv).
      split; [apply in_or_app; now left|]. now split.
  - split; [now apply setOwn_NoDup|]. split.
    + intros w Hw Hne. destruct (String.eqb_spec w v) as [->|Hwv].
      * exists x. apply setOwn_sets.
      * apply in_app_or in Hw as [Hw|[E|[]]]; [|congruence].
        destruct (Hall w Hw Hne) as [y Hy]. exists y. now apply setOwn_keeps.
    + intros w y Hy. apply setOwn_In in Hy as [[-> ->]|Hy].
      * split; [apply in_or_app; right; now left|]. now split.
      * destruct (Hok w y Hy) as (Hw & Hne & Hv).
        split; [apply in_or_app; now left|]. now split.
Qed.

Lemma promptForCustomVariables_loop_outcome (c : VariableContext) (ask : InputBox)
    (variables done : list string) (vals : StringRecord) :
  valuesFor c ask done vals ->
  match promptForCustomVariables_loop variables c ask vals with
  | Returns vals' => valuesFor c ask (done ++ variables) vals'
  | Throws m =>
      m = "Variable substitution cancelled by user" /\
      exists v, In v variables /\ getPredefinedVariable v c = None /\
                ask v (getDefaultValueForVariable v) = None
  end.
Proof.
  revert done vals. induction variables as [|w vs IH]; intros done vals H; simpl.
  - now rewrite app_nil_r.
  - assert (Hnext : forall x,
      (getPredefinedVariable w c = Some x \/
       (getPredefinedVariable w c = None /\ ask w (getDefaultValueForVariable w) = Some x)) ->
      match promptForCustomVariables_loop vs c ask (setProperty vals w x) with
      | Returns vals' => valuesFor c ask (done ++ w :: vs) vals'
      | Throws m =>
          m = "Variable substitution cancelled by user" /\
          exists v, (w = v \/ In v vs) /\ getPredefinedVariable v c = None /\
                    ask v (getDefaultValueForVariable v) = None
      end).
    { intros x Hx. specialize (IH (done ++ [w]) _ (valuesFor_set c ask done vals w x H Hx)).
      rewrite <- app_assoc in IH. simpl in IH.
      destruct (promptForCustomVariables_loop vs c ask (setProperty vals w x)); [exact IH|].
      destruct IH as [Hm (v & Hv & Hp & Ha)]. split; [exact Hm|]. exists v. tauto. }
    destruct (getPredefinedVariable w c) as [pv|] eqn:Ep.
    + apply Hnext. now left.
    + destruct (ask w (getDefaultValueForVariable w)) as [x|] eqn:Ea.
      * apply Hnext. right. now split.
      * split; [reflexivity|]. exists w. split; [now left|]. now split.
Qed.

(** X20. [promptForCustomVariables] either returns an object with one
    own property for every variable it was given other than "__proto__"
    (whose assignment the inherited [__proto__] setter ignores), and no
    other property, each value being the predefined one or else the
    answer typed in the input box; or it throws ["Variable substitution
    cancelled by user"], and then some variable without a predefined
    value had its input box dismissed. *)
Theorem promptForCustomVariables_outcome (variables : list string) (c : VariableContext)
    (ask : InputBox) :
  match promptForCustomVariables variables c ask with
  | Returns vals =>
      NoDup (map fst vals) /\
      (forall v, In v variables -> v <> "__proto__" -> exists x, In (v, x) vals) /\
      (forall v x, In (v, x) vals ->
         In v variables /\ v <> "__proto__" /\
         (getPredefinedVariable v c = Some x \/
          (getPredefinedVariable v c = None /\ ask v (getDefaultValueForVariable v) = Some x)))
  | Throws m =>
      m = "Variable substitution cancelled by user" /\
      exists v, In v variables /\ getPredefinedVariable v c = None /\
                ask v (getDefaultValueForVariable v) = None
  end.
Proof.
  apply (promptForCustomVariables_loop_outcome c ask variables [] []).
  split; [constructor|]. split; [intros v []|intros v x []].
Qed.

(** [Object.entries] lists the array-index keys first, in ascending
    order; "__proto__" never becomes an own property. *)
Lemma objectEntries_example :
  objectEntries (setProperty (setProperty (setProperty (setProperty [] "b" "1") "10" "2")
                                "__proto__" "x") "2" "3")
  = [("2", "3"); ("10", "2"); ("b", "1")].
Proof. vm_compute. reflexivity. Qed.

Lemma extractVariables_nil (p : string) :
  JS.includes p "{{" = false -> extractVariables p = [].
Proof.
  intros H. destruct (extractVariables p) as [|v vs] eqn:E; [reflexivity|].
  destruct (proj2 (extractVariables_spec p) v) as (_ & _ & Hi); [rewrite E; now left|].
  apply includes_app_inv in Hi. rewrite Hi in H. discriminate.
Qed.

(** X21. Using a prompt whose text is non-empty and contains no ["{{"]
    asks for nothing: the text is copied to the clipboard as it is, the
    prompt's id goes to the front of the recent list, and only the
    confirmation message is shown. *)
Theorem usePrompt_plain_text (st : Library) (entry : PromptEntry) (c : VariableContext)
    (ask : InputBox) (clipboard p : string) :
  e_prompt entry = Some p -> p <> EmptyString -> JS.includes p "{{" = false ->
  usePrompt st entry c ask clipboard = (addToRecent st (e_id entry), p, [ShowInfo (e_label entry)]).
Proof.
  intros Hp Hne Hno. unfold usePrompt. rewrite Hp. unfold truthy.
  destruct (String.eqb_spec p EmptyString) as [E|_]; [contradiction|]. cbn [negb].
  unfold copyPromptToClipboard. rewrite (extractVariables_nil p Hno). reflexivity.
Qed.

Lemma usePrompt_plain_text_witness :
  usePrompt exampleLibrary
    (mkEntry "7" "Explain" TPrompt (Some CSystem) (Some "Explain this code.") None None
       None None None)
    exampleVariableContext (fun _ _ => None) ""
  = (addToRecent exampleLibrary "7", "Explain this code.", [ShowInfo "Explain"]).
Proof. apply usePrompt_plain_text; [reflexivity | discriminate | vm_compute; reflexivity]. Defined.

(* ------------------------------------------------------------------ *)
(** *** Score tiers and suggestion clean-up of the evaluation service *)

(** X23. [getScoreTier] is monotone: a higher overall score never gets a
    worse tier. *)
Theorem getScoreTier_monotone (s1 s2 : Z) :
  (s1 <= s2)%Z -> (tierRank (getScoreTier s1) <= tierRank (getScoreTier s2))%nat.
Proof.
  intros H. unfold getScoreTier.
  destruct (85 <=? s1)%Z eqn:A1, (70 <=? s1)%Z eqn:B1, (50 <=? s1)%Z eqn:C1,
           (85 <=? s2)%Z eqn:A2, (70 <=? s2)%Z eqn:B2, (50 <=? s2)%Z eqn:C2;
    rewrite ?Z.leb_le, ?Z.leb_gt in *; simpl; lia.
Qed.

Lemma getScoreTier_monotone_witness :
  (tierRank (getScoreTier 69) <= tierRank (getScoreTier 70))%nat.
Proof. apply getScoreTier_monotone. lia. Defined.

Lemma upper_char_idem (c : ascii) : upper_char (upper_char c) = upper_char c.
Proof. destruct c as [[] [] [] [] [] [] [] []]; reflexivity. Qed.

Lemma substring_0_length (n : nat) (s : string) :
  String.length (substring 0 n s) = Nat.min n (String.length s).
Proof.
  revert s. induction n as [|n IH]; intros [|c s]; simpl; try reflexivity. now rewrite IH.
Qed.

Lemma substring_0_get0 (n : nat) (s : string) :
  (0 < n)%nat -> String.get 0 (substring 0 n s) = String.get 0 s.
Proof. intros H. destruct n as [|n]; [lia|]. now destruct s. Qed.

Lemma lastSpaceIndex_bound (s : string) (i j : nat) :
  lastSpaceIndex s i = Some j -> (i <= j < i + String.length s)%nat.
Proof.
  revert i. induction s as [|c s IH]; intros i; simpl; [discriminate|].
  destruct (lastSpaceIndex s (S i)) as [k|] eqn:E.
  - intros H. injection H as <-. specialize (IH _ E). lia.
  - destruct (Ascii.eqb c " "); [intros H; injection H as <-; lia|discriminate].
Qed.

Lemma endsWithChar_snoc (s : string) (c : ascii) :
  endsWithChar (s ++ String c EmptyString) c = true.
Proof.
  induction s as [|d s IH]; simpl; [apply Ascii.eqb_refl|].
  destruct (s ++ String c EmptyString)%string eqn:E; [destruct s; discriminate|exact IH].
Qed.

Lemma endsWithChar_dots (s : string) : endsWithChar (s ++ "...") "." = true.
Proof.
  replace (s ++ "...")%string with ((s ++ "..") ++ String "." EmptyString)%string
    by (rewrite str_app_assoc; reflexivity).
  apply endsWithChar_snoc.
Qed.

Lemma get0_app (s t : string) : s <> EmptyString -> String.get 0 (s ++ t) = String.get 0 s.
Proof. destruct s; [contradiction|reflexivity]. Qed.

Lemma string_length_app (s t : string) :
  String.length (s ++ t) = (String.length s + String.length t)%nat.
Proof. induction s as [|c s IH]; simpl; congruence. Qed.

Lemma processSuggestion_shape (suggestion : string) :
  let r := processSuggestion suggestion in
  (0 < String.length r <= 80)%nat /\
  (endsWithChar r "." || endsWithChar r "!" || endsWithChar r "?") = true /\
  first_capital r.
Proof.
  unfold processSuggestion. cbv zeta.
  set (p0 := capitalizeFirst (stripSuggestionPrefix suggestion)).
  assert (H0 : first_capital p0).
  { unfold p0. destruct (stripSuggestionPrefix suggestion) as [|c r]; simpl;
      intros d Hd; [discriminate|]. injection Hd as <-. apply upper_char_idem. }
  set (p1 := if negb (endsWithChar p0 ".") && negb (endsWithChar p0 "!")
                && negb (endsWithChar p0 "?") then (p0 ++ ".")%string else p0).
  assert (H1 : p1 <> EmptyString /\
               (endsWithChar p1 "." || endsWithChar p1 "!" || endsWithChar p1 "?") = true /\
               first_capital p1).
  { unfold p1.
    destruct (negb (endsWithChar p0 ".") && negb (endsWithChar p0 "!")
              && negb (endsWithChar p0 "?")) eqn:E.
    - split; [destruct p0; discriminate|]. split.
      + change "."%string with (String "." EmptyString). now rewrite endsWithChar_snoc.
      + intros c Hc. destruct (string_dec p0 EmptyString) as [Ez|Ez].
        * rewrite Ez in Hc. simpl in Hc. injection Hc as <-. reflexivity.
        * rewrite get0_app in Hc by exact Ez. exact (H0 c Hc).
    - split.
      + intros C. rewrite C in E. simpl in E. discriminate.
      + split; [|exact H0].
        destruct (endsWithChar p0 "."), (endsWithChar p0 "!"), (endsWithChar p0 "?");
          simpl in *; congruence. }
  destruct H1 as (Hne & Hend & Hcap).
  assert (Hpos : (0 < String.length p1)%nat)
    by (clearbody p1; destruct p1 as [|? ?]; [contradiction|simpl; lia]).
  destruct (80 <? String.length p1)%nat eqn:L; [|apply Nat.ltb_ge in L].
  2:{ split; [lia|]. split; assumption. }
  apply Nat.ltb_lt in L.
  set (t := substring 0 77 p1).
  assert (Ht : String.length t = 77%nat) by (unfold t; rewrite substring_0_length; lia).
  assert (Htc : first_capital t).
  { intros c Hc. unfold t in Hc. rewrite substring_0_get0 in Hc by lia. exact (Hcap c Hc). }
  assert (Hdots : forall u, (u = t \/ (exists j, (60 < j < 77)%nat /\ u = substring 0 j t)) ->
    (0 < String.length (u ++ "...") <= 80)%nat /\
    (endsWithChar (u ++ "...") "." || endsWithChar (u ++ "...") "!" ||
     endsWithChar (u ++ "...") "?") = true /\ first_capital (u ++ "...")).
  { intros u Hu. split; [|split].
    - rewrite string_length_app. simpl.
      destruct Hu as [->|(j & Hj & ->)]; [lia|]. rewrite substring_0_length. lia.
    - now rewrite endsWithChar_dots.
    - assert (Hu' : u <> EmptyString /\ first_capital u).
      { destruct Hu as [->|(j & Hj & ->)].
        - split; [intros C; rewrite C in Ht; discriminate|exact Htc].
        - split.
          + intros C. assert (Hl := substring_0_length j t). rewrite C in Hl. simpl in Hl. lia.
          + intros c Hc. rewrite substring_0_get0 in Hc by lia. exact (Htc c Hc). }
      destruct Hu' as [Hu1 Hu2]. intros c Hc. rewrite get0_app in Hc by exact Hu1.
      exact (Hu2 c Hc). }
  destruct (lastSpaceIndex t 0) as [j|] eqn:Ej; [|apply Hdots; now left].
  apply lastSpaceIndex_bound in Ej.
  destruct (60 <? j)%nat eqn:Hj; [apply Nat.ltb_lt in Hj|]; apply Hdots; [right|left; reflexivity].
  exists j. split; [lia|reflexivity].
Qed.

(** X22. [processSuggestions] keeps the first two suggestions (fewer if
    there are fewer) and turns each into a non-empty text of at most 80
    characters that ends in ['.'], ['!'] or ['?'] and whose first
    character is not a lower-case letter. *)
Theorem processSuggestions_shape (suggestions : list string) :
  length (processSuggestions suggestions) = Nat.min 2 (length suggestions) /\
  forall s, In s (processSuggestions suggestions) ->
    (0 < String.length s <= 80)%nat /\
    (endsWithChar s "." || endsWithChar s "!" || endsWithChar s "?") = true /\
    forall c, String.get 0 s = Some c -> upper_char c = c.
Proof.
  unfold processSuggestions. split; [now rewrite length_map, length_firstn|].
  intros s Hs. apply in_map_iff in Hs as [x [<- _]]. apply processSuggestion_shape.
Qed.

(* ------------------------------------------------------------------ *)
(** ** The view filters, the export and the nearby comments *)

(** X24. whatever sequence of [setShowFavoritesOnly] and
    [setShowRecentOnly] calls runs from the initial state, the two view
    filters are never on together. *)
Theorem viewFilters_exclusive (cmds : list ViewCommand) :
  let vw := fold_left runViewCommand cmds initialView in
  showFavoritesOnly vw && showRecentOnly vw = false.
Proof.
  cbv zeta.
  assert (Hgen : forall v, showFavoritesOnly v && showRecentOnly v = false ->
            showFavoritesOnly (fold_left runViewCommand cmds v)
            && showRecentOnly (fold_left runViewCommand cmds v) = false).
  { induction cmds as [|c cmds IH]; intros v Hv; simpl; [exact Hv|].
    apply IH. destruct c as [[]|[]]; simpl; try reflexivity. apply andb_false_r. }
  apply Hgen. reflexivity.
Qed.

Lemma map_filter_flat_map {A B : Type} (f : A -> B) (P : A -> bool) (g : A -> list A)
    (l : list A) :
  map f (filter P (flat_map g l)) = flat_map (fun x => map f (filter P (g x))) l.
Proof.
  induction l as [|x r IH]; simpl; [reflexivity|].
  rewrite filter_app, map_app, IH. reflexivity.
Qed.

Lemma flat_map_ext_Forall {A B : Type} (f g : A -> list B) (l : list A) :
  Forall (fun x => f x = g x) l -> flat_map f l = flat_map g l.
Proof. induction 1 as [|x r Hx _ IH]; simpl; [reflexivity|]. now rewrite Hx, IH. Qed.

Lemma promptData_item_spec (e : PromptEntry) :
  promptData_item e =
  map toPromptData (filter (fun e => isType TPrompt e && truthy (e_prompt e)) (flatten_entry e)).
Proof.
  induction e as [e IH] using entry_rect'.
  destruct e as [eid lbl ty ct pr tg ch pid cid ev]; cbn [promptData_item flatten_entry].
  cbn [filter]. unfold isType at 1. cbn [e_type e_prompt].
  assert (Hrest : match ch with Some ch => flat_map promptData_item ch | None => [] end =
                  map toPromptData (filter (fun e => isType TPrompt e && truthy (e_prompt e))
                     match ch with Some ch => flat_map flatten_entry ch | None => [] end)).
  { destruct ch as [ch|]; [|reflexivity]. cbn in IH.
    rewrite map_filter_flat_map. apply flat_map_ext_Forall.
    eapply Forall_impl; [|exact IH]. intros x Hx. exact Hx. }
  destruct (PromptNodeType_eqb ty TPrompt && truthy pr); simpl; rewrite Hrest; reflexivity.
Qed.

(** X25. [extractAllPromptData] lists the same prompts, in the same order,
    as [extractAllPromptEntries], each converted field by field ([tags]
    defaulting to [[]]). *)
Theorem extractAllPromptData_entries (es : list PromptEntry) :
  extractAllPromptData es = map toPromptData (extractAllPromptEntries es).
Proof.
  unfold extractAllPromptData, extractAllPromptEntries, flatten.
  rewrite map_filter_flat_map. apply flat_map_ext. apply promptData_item_spec.
Qed.

Lemma first_some_in {A B : Type} (f : A -> option B) (l : list A) (y : B) :
  first_some f l = Some y -> exists x, In x l /\ f x = Some y.
Proof.
  induction l as [|x r IH]; simpl; [discriminate|].
  destruct (f x) eqn:E.
  - intros H. injection H as <-. eauto.
  - intros H. destruct (IH H) as (x' & ? & ?). eauto.
Qed.

Lemma flatten_in_children (e c n : PromptEntry) :
  In c (opt_list (e_children e)) -> In n (flatten_entry c) -> In n (flatten_entry e).
Proof.
  intros Hc Hn. rewrite flatten_entry_eq. right. unfold flatten. apply in_flat_map. eauto.
Qed.

Lemma findParentCategory_item_sound (itemId : string) (e : PromptEntry) :
  forall parent p, findParentCategory_item itemId parent e = Some (Some p) ->
  (parent = Some p /\ exists n, In n (flatten_entry e) /\ e_id n = itemId)
  \/ (e_type p = TCategory /\ In p (flatten_entry e) /\
      exists n, In n (flatten (opt_list (e_children p))) /\ e_id n = itemId).
Proof.
  induction e as [e IH] using entry_rect'.
  intros parent p H.
  destruct e as [eid lbl ty ct pr tg ch pid cid ev] eqn:Ee; cbn [findParentCategory_item] in H.
  destruct (String.eqb_spec eid itemId) as [Heq|Hne].
  { injection H as ->. left. split; [reflexivity|]. exists e. subst e. split; [left; reflexivity|exact Heq]. }
  destruct ch as [ch|]; [|discriminate].
  rewrite <- Ee in H.
  destruct (first_some _ ch) as [[r|]|] eqn:Ef; try discriminate.
  injection H as <-. rewrite <- Ee.
  apply first_some_in in Ef as (c & Hc & Hr).
  assert (Hce : In c (opt_list (e_children e))) by (subst e; exact Hc).
  cbn [e_children opt_list] in IH. rewrite Forall_forall in IH.
  destruct (IH c Hc _ _ Hr) as [[Hp (n & Hn & Hid)]|(Hty & Hin & Hrest)].
  - destruct (PromptNodeType_eqb ty TCategory) eqn:Ecat.
    + injection Hp as <-. right. split.
      { subst e. cbn [e_type]. destruct ty; cbn in Ecat; congruence. }
      split; [subst e; simpl; left; reflexivity|].
      exists n. split; [|exact Hid]. unfold flatten. apply in_flat_map. eauto.
    + left. split; [exact Hp|]. exists n. split; [exact (flatten_in_children e c n Hce Hn)|exact Hid].
  - right. split; [exact Hty|]. split; [exact (flatten_in_children e c r Hce Hin)|exact Hrest].
Qed.

(** X26. when [findParentCategory] returns an entry, it is a category of
    the forest and some node below it carries the id looked for. *)
Theorem findParentCategory_sound (es : list PromptEntry) (itemId : string) (p : PromptEntry)
    (H : findParentCategory es itemId = Some p) :
  e_type p = TCategory /\ In p (flatten es) /\
  exists n, In n (flatten (opt_list (e_children p))) /\ e_id n = itemId.
Proof.
  unfold findParentCategory in H.
  destruct (first_some _ es) as [r|] eqn:Ef; [|discriminate]. subst r.
  apply first_some_in in Ef as (e & He & Hr).
  destruct (findParentCategory_item_sound itemId e None p Hr) as [[Hp _]|(Hty & Hin & Hrest)];
    [discriminate|].
  split; [exact Hty|]. split; [unfold flatten; apply in_flat_map; eauto|exact Hrest].
Qed.

Lemma findParentCategory_sound_witness :
  findParentCategory [exampleCodeCategory] "p1" = Some exampleCodeCategory
  /\ e_type exampleCodeCategory = TCategory.
Proof.
  split; [reflexivity|].
  exact (proj1 (findParentCategory_sound [exampleCodeCategory] "p1" exampleCodeCategory eq_refl)).
Defined.

Lemma getFavoritePrompts_nonempty (st : Library) (e : PromptEntry) :
  In e (getFavoritePrompts st) -> (0 <? length (favorites (userPreferences st)))%nat = true.
Proof.
  unfold getFavoritePrompts, resolveStoredIds.
  destruct (favorites (userPreferences st)); simpl; [contradiction|reflexivity].
Qed.

Lemma findParentCategory_item_flat (itemId : string) (parent : option PromptEntry)
    (l : list PromptEntry) :
  (forall x, In x l -> e_children x = None) ->
  (exists x, In x l /\ e_id x = itemId) ->
  first_some (findParentCategory_item itemId parent) l = Some parent.
Proof.
  induction l as [|x r IH]; intros Hch (y & Hy & Hid); [contradiction|].
  simpl. destruct x as [xid ? ? ? ? ? xch ? ? ?]; cbn [findParentCategory_item].
  destruct (String.eqb_spec xid itemId) as [_|Hne]; [reflexivity|].
  assert (Hx : xch = None) by exact (Hch _ (or_introl eq_refl)). subst xch.
  apply IH; [intros z Hz; apply Hch; right; exact Hz|].
  destruct Hy as [<-|Hy]; [contradiction|]. eauto.
Qed.

(** X27. A favorite prompt with a non-empty text and an id other than
    "favorites" is always in the list [exportPrompts] writes ("system
    prompts only"), whether it comes from a system or from a user
    category: its first occurrence in the root entries is below the
    Favorites section, which has [categoryType 'system']. (For the id
    "favorites", [findParentCategory] matches the section itself.) *)
Theorem exportPrompts_includes_favorites (localeCompare : string -> string -> Z)
    (st : Library) (vw : ViewState) (e : PromptEntry)
    (Hfav : In e (getFavoritePrompts st)) (Htext : truthy (e_prompt e) = true)
    (Hid : e_id e <> "favorites") :
  In (toPromptData e) (exportedSystemPrompts (getRootEntries localeCompare st vw)).
Proof.
  assert (Hroot : exists rest, getRootEntries localeCompare st vw = favoritesSection st :: rest).
  { unfold getRootEntries. rewrite (getFavoritePrompts_nonempty st e Hfav). simpl.
    eexists. reflexivity. }
  destruct Hroot as [rest ->].
  assert (Hp : exists p, e = createPromptEntry p).
  { unfold getFavoritePrompts, resolveStoredIds in Hfav. apply in_map_iff in Hfav.
    destruct Hfav as (p & <- & _). eauto. }
  assert (Hflat : forall x, In x (getFavoritePrompts st) -> e_children x = None).
  { intros x Hx. unfold getFavoritePrompts, resolveStoredIds in Hx. apply in_map_iff in Hx.
    destruct Hx as (p & <- & _). reflexivity. }
  unfold exportedSystemPrompts. apply filter_In. split.
  - unfold extractAllPromptData. apply in_flat_map. exists (favoritesSection st).
    split; [left; reflexivity|]. unfold favoritesSection. cbn [promptData_item].
    simpl (PromptNodeType_eqb TCategory TPrompt && truthy None). rewrite app_nil_l.
    apply in_flat_map. exists e. split; [exact Hfav|].
    destruct Hp as [p ->]. unfold createPromptEntry in *. cbn [promptData_item].
    cbn [e_prompt] in Htext. rewrite Htext. simpl. left. reflexivity.
  - change (pd_id (toPromptData e)) with (e_id e). unfold findParentCategory. cbn [first_some].
    assert (Hsec : findParentCategory_item (e_id e) None (favoritesSection st)
                   = Some (Some (favoritesSection st))).
    { unfold favoritesSection at 1. cbn [findParentCategory_item].
      destruct (String.eqb_spec "favorites" (e_id e)) as [Heq|_]; [congruence|].
      cbn [PromptNodeType_eqb].
      rewrite (findParentCategory_item_flat (e_id e) _ _ Hflat); [reflexivity|].
      exists e. split; [exact Hfav|reflexivity]. }
    rewrite Hsec. reflexivity.
Qed.

Lemma exportPrompts_includes_favorites_witness :
  In exampleUserPrompt (getFavoritePrompts exampleFavoriteLibrary)
  /\ truthy (e_prompt exampleUserPrompt) = true /\ e_id exampleUserPrompt <> "favorites"
  /\ In (toPromptData exampleUserPrompt)
        (exportedSystemPrompts (getRootEntries (fun _ _ => 0%Z) exampleFavoriteLibrary initialView)).
Proof.
  assert (H1 : In exampleUserPrompt (getFavoritePrompts exampleFavoriteLibrary))
    by (vm_compute; left; reflexivity).
  assert (H2 : truthy (e_prompt exampleUserPrompt) = true) by reflexivity.
  assert (H3 : e_id exampleUserPrompt <> "favorites") by (vm_compute; discriminate).
  split; [exact H1|]. split; [exact H2|]. split; [exact H3|].
  exact (exportPrompts_includes_favorites (fun _ _ => 0%Z) exampleFavoriteLibrary initialView
           exampleUserPrompt H1 H2 H3).
Defined.

Lemma insertBy_perm {A : Type} (cmp : A -> A -> Z) (x : A) (l : list A) :
  Permutation (insertBy cmp x l) (x :: l).
Proof.
  induction l as [|y ys IH]; simpl; [reflexivity|].
  destruct (cmp x y <? 0)%Z; [reflexivity|].
  rewrite IH. apply perm_swap.
Qed.

(** Sorting with any comparator keeps the elements. *)
Lemma sortBy_perm {A : Type} (cmp : A -> A -> Z) (l : list A) :
  Permutation (sortBy cmp l) l.
Proof.
  unfold sortBy.
  assert (H : forall acc, Permutation (fold_left (fun acc x => insertBy cmp x acc) l acc)
                                      (l ++ acc)).
  { induction l as [|x r IH]; intros acc; simpl; [reflexivity|].
    rewrite IH, insertBy_perm. symmetry. apply Permutation_middle. }
  rewrite H, app_nil_r. reflexivity.
Qed.

Lemma length_zero_nil {A : Type} (l : list A) :
  (0 <? length l)%nat = false -> l = [].
Proof. destruct l; simpl; [reflexivity|discriminate]. Qed.

(** X28. the "System Prompts" and "Your Prompts" sections of the root
    view only appear when neither view filter is on. The children of the
    first are the system categories and those of the second the flattened
    user prompts, sorted but none dropped or repeated, whatever
    [localeCompare] answers; with no user prompt it is the placeholder
    section. *)
Theorem getRootEntries_sections (localeCompare : string -> string -> Z)
    (st : Library) (vw : ViewState) (r : PromptEntry)
    (Hr : In r (getRootEntries localeCompare st vw)) :
  (e_id r = "system-section" \/ e_id r = "user-section" ->
     showFavoritesOnly vw = false /\ showRecentOnly vw = false)
  /\ (e_id r = "system-section" ->
        Permutation (opt_list (e_children r)) (filter (hasCategoryType CSystem) (prompts st)))
  /\ (e_id r = "user-section" ->
        Permutation (opt_list (e_children r))
                    (extractAllUserPrompts (filter (hasCategoryType CUser) (prompts st)))
        \/ (extractAllUserPrompts (filter (hasCategoryType CUser) (prompts st)) = []
            /\ r = emptyUserSection)).
Proof.
  unfold getRootEntries in Hr. cbv zeta in Hr.
  rewrite !in_app_iff in Hr.
  destruct Hr as [Hr|[Hr|Hr]].
  - destruct (_ || _); simpl in Hr; [|contradiction].
    destruct Hr as [<-|[]]. unfold favoritesSection. cbn [e_id].
    split; [intros [Hx|Hx]; discriminate|split; intros Hx; discriminate].
  - destruct (_ || _); simpl in Hr; [|contradiction].
    destruct Hr as [<-|[]]. unfold recentSection. cbn [e_id].
    split; [intros [Hx|Hx]; discriminate|split; intros Hx; discriminate].
  - destruct (negb (showFavoritesOnly vw) && negb (showRecentOnly vw)) eqn:Ef;
      [|contradiction].
    apply andb_true_iff in Ef as [Ef1 Ef2]. apply negb_true_iff in Ef1, Ef2.
    assert (Hoff : e_id r = "system-section" \/ e_id r = "user-section" ->
                   showFavoritesOnly vw = false /\ showRecentOnly vw = false) by auto.
    split; [exact Hoff|]. clear Hoff.
    rewrite in_app_iff in Hr. destruct Hr as [Hr|Hr].
    + destruct (0 <? length _)%nat; simpl in Hr; [|contradiction].
      destruct Hr as [<-|[]]. cbn [e_id e_children opt_list].
      split; [intros _; apply sortBy_perm|intros H; discriminate].
    + destruct (0 <? length (filter (hasCategoryType CUser) (prompts st)))%nat eqn:Eu.
      * destruct (0 <? length (extractAllUserPrompts _))%nat eqn:Ep; simpl in Hr;
          destruct Hr as [<-|[]]; cbn [e_id e_children opt_list];
          (split; [intros H; discriminate|intros _]).
        -- left. apply sortBy_perm.
        -- right. split; [apply length_zero_nil; exact Ep|reflexivity].
      * simpl in Hr. destruct Hr as [<-|[]]. unfold emptyUserSection. cbn [e_id].
        split; [intros H; discriminate|intros _].
        right. rewrite (length_zero_nil _ Eu). split; reflexivity.
Qed.

Lemma getRootEntries_sections_witness :
  In exampleUserSection (getRootEntries (fun _ _ => 0%Z) exampleFavoriteLibrary initialView)
  /\ e_id exampleUserSection = "user-section"
  /\ Permutation (opt_list (e_children exampleUserSection))
       (extractAllUserPrompts (filter (hasCategoryType CUser) (prompts exampleFavoriteLibrary))).
Proof.
  assert (Hin : In exampleUserSection
                   (getRootEntries (fun _ _ => 0%Z) exampleFavoriteLibrary initialView))
    by (vm_compute; right; right; left; reflexivity).
  assert (Hid : e_id exampleUserSection = "user-section") by reflexivity.
  split; [exact Hin|]. split; [exact Hid|].
  destruct (proj2 (proj2 (getRootEntries_sections (fun _ _ => 0%Z) exampleFavoriteLibrary
              initialView exampleUserSection Hin)) Hid) as [Hp|[He _]]; [exact Hp|].
  vm_compute in He. discriminate.
Defined.





